(** * RemoteEstimatorProxy: the receiver side of transport-wide congestion
    control feedback.

  A shallow embedding of
  [modules/remote_bitrate_estimator/remote_estimator_proxy.cc] and the
  properties of its arrival window, its two feedback paths, its scheduling
  arithmetic and its send-time unwrapping.

  Conventions.
  - [int64_t] quantities (sequence numbers after unwrapping, arrival times,
    clock readings) are [Z]; signed overflow is undefined in C++ and the
    guard on [kMaxTimeMs] keeps the arithmetic of this file far from it.
  - [uint8_t], [uint16_t] and [uint32_t] quantities are [Z] with the
    wrap-around written out ([Z.land], [mod]).
  - [std::map<int64_t, int64_t>] is a list of (key, value) pairs in strictly
    ascending key order; an iterator is the suffix of the list that starts
    at the element it points to, [end()] being the empty suffix.
  - [double] arithmetic is exact rational arithmetic followed by a rounding
    operator [fl], about which the theorems assume only what IEEE-754
    round-to-nearest provides. *)

From Stdlib Require Import ZArith List Bool Lia QArith Qround Lqa.
Import ListNotations.

Local Open Scope Z_scope.

(** ** [std::map<int64_t, int64_t>] *)

Module StdMap.

(** A stored arrival: the unwrapped sequence number and the arrival time. *)
Abbreviation entry := (Z * Z)%type (only parsing).
Definition t : Type := list entry.
(** An iterator into a map: the suffix starting at the pointed element. *)
Definition iterator : Type := list entry.

Definition keys (m : t) : list Z := map fst m.

(** Strictly ascending keys: the representation invariant of the tree. *)
Inductive sorted : t -> Prop :=
| sorted_nil : sorted []
| sorted_cons k v m :
    Forall (fun e => k < fst e) m -> sorted m -> sorted ((k, v) :: m).

Fixpoint sortedb (m : t) : bool :=
  match m with
  | [] => true
  | (k, _) :: m' => forallb (fun e => k <? fst e) m' && sortedb m'
  end.

(** [m.begin()] *)
Definition begin_ (m : t) : iterator := m.

(** Two iterators into the same map are equal when they point to the same
    position, that is, when the suffixes have the same length. *)
Definition iter_eqb (a b : iterator) : bool := (length a =? length b)%nat.

(** [m.lower_bound(k)]: the first element whose key is not less than [k]. *)
Fixpoint lower_bound (k : Z) (m : t) : iterator :=
  match m with
  | [] => []
  | (k', v') :: m' => if k' <? k then lower_bound k m' else m
  end.

(** [m.upper_bound(k)]: the first element whose key is greater than [k]. *)
Fixpoint upper_bound (k : Z) (m : t) : iterator :=
  match m with
  | [] => []
  | (k', v') :: m' => if k' <=? k then upper_bound k m' else m
  end.

(** [m.find(k)], as the value found. *)
Fixpoint find (k : Z) (m : t) : option Z :=
  match m with
  | [] => None
  | (k', v') :: m' => if k' =? k then Some v' else find k m'
  end.

(** [m[k] = v] *)
Fixpoint assign (k v : Z) (m : t) : t :=
  match m with
  | [] => [(k, v)]
  | (k', v') :: m' =>
      if k <? k' then (k, v) :: m
      else if k =? k' then (k, v) :: m'
      else (k', v') :: assign k v m'
  end.

(** [m.erase(m.begin(), it)]: what remains is the suffix [it]. *)
Definition erase_until (it : iterator) (m : t) : t := it.

(** [m.begin()->first] and [m.rbegin()->first]. *)
Definition first_key (m : t) : option Z :=
  match m with [] => None | (k, _) :: _ => Some k end.

Definition last_key (m : t) : option Z :=
  match rev m with [] => None | (k, _) :: _ => Some k end.

(** The span of the map: its largest key minus its smallest key. *)
Definition span (m : t) : Z :=
  match first_key m, last_key m with
  | Some lo, Some hi => hi - lo
  | _, _ => 0
  end.

(** The elements of the range [[b, e)] of two iterators of one map. *)
Definition range (b e : iterator) : list entry :=
  firstn (length b - length e) b.

End StdMap.

Import StdMap.


(** ** Outcomes of a call

    A call either returns, or stops at a failed assertion, or leaves defined
    behaviour.  [RTC_CHECK] is fatal in every build; [RTC_DCHECK] states a
    precondition and is modelled as checked. *)

Inductive failure : Type :=
| DcheckFailed   (* an RTC_DCHECK precondition does not hold *)
| CheckFailed    (* an RTC_CHECK does not hold: the process aborts *)
| Undefined      (* dereferencing or incrementing end(), or an empty optional *)
| OutOfFuel.     (* the loop bound of the model was too small *)

Inductive outcome (A : Type) : Type :=
| Ok (a : A)
| Err (f : failure).

Arguments Ok {A} a.
Arguments Err {A} f.

Definition bind {A B : Type} (c : outcome A) (k : A -> outcome B) : outcome B :=
  match c with
  | Ok a => k a
  | Err f => Err f
  end.

Notation "x <- c ;; k" := (bind c (fun x => k))
  (at level 61, c at next level, right associativity).
Notation "' pat <- c ;; k" := (bind c (fun x => match x with pat => k end))
  (at level 61, pat pattern, c at next level, right associativity).

(** ** Constants of the translation unit *)

(** Impossible to request feedback older than what can be represented by 15
    bits. *)
Definition kMaxNumberOfPackets : Z := Z.shiftl 1 15.

(** [std::numeric_limits<int64_t>::max() / 1000] *)
Definition kMaxTimeMs : Z := (2 ^ 63 - 1) / 1000.

(** [kTwccReportSize = 20 + 8 + 10 + 30] *)
Definition kTwccReportSize : Z := 20 + 8 + 10 + 30.

(** ** Collaborators whose code is outside this translation unit *)

(** Modelled from the spec: [rtcp::TransportFeedback]
    (modules/rtp_rtcp/source/rtcp_packet/transport_feedback.h is not part of
    the sources at hand).  A message carries a media SSRC, a 16-bit base
    sequence number, a base time in microseconds, an 8-bit feedback counter
    and the receive records appended so far. *)
Record TransportFeedback : Type := {
  include_timestamps_ : bool;
  tf_media_ssrc : Z;
  tf_base_seq : Z;
  tf_base_time_us : Z;
  tf_feedback_seq : Z;
  tf_packets : list (Z * Z)
}.

(** Modelled from the spec: appending a record can fail when the fixed capacity
    of the message is exhausted.  When there is room is left to the wire
    format: [has_room] is a parameter of the development. *)
Class FeedbackCapacity : Type := {
  has_room : TransportFeedback -> Z -> Z -> bool
}.

(** Modelled from the spec: the 16-bit sequence number unwrapper
    ([SeqNumUnwrapper<uint16_t>], declared outside the sources at hand): a
    function of the raw value and of the internal state that returns a 64-bit
    value and the next state. *)
Class SeqNumUnwrapper : Type := {
  unwrapper : Type;
  unwrapper_new : unwrapper;
  Unwrap : unwrapper -> Z -> Z * unwrapper
}.

(** Rounding of an exact result to the nearest [double]. *)
Class Binary64 : Type := {
  fl : Q -> Q
}.

(** The per-packet information handed to the inference engine and to the
    statistics collector. *)
Record PacketInfo : Type := {
  pi_pacing_rate : Q;
  pi_padding_rate : Q;
  pi_payload_type : Z;
  pi_sequence_number : Z;
  pi_send_time_ms : Z;
  pi_ssrc : Z;
  pi_padding_length : Z;
  pi_header_length : Z;
  pi_arrival_time_ms : Z;
  pi_payload_size : Z
}.

(** The bandwidth estimator ([onnxinfer]) and the constants of the statistics
    collector ([StatCollect]) are third-party libraries: the estimate is an
    unspecified function of the packets the engine has received. *)
Class Telemetry : Type := {
  GetBweEstimate : list PacketInfo -> Q;
  SC_PACER_PACING_RATE_EMPTY : Q;
  SC_PACER_PADDING_RATE_EMPTY : Q
}.

(** ** Plain data of the interface *)

Record FeedbackRequest : Type := {
  include_timestamps : bool;
  sequence_count : Z
}.

Record RTPHeader : Type := {
  payloadType : Z;
  sequenceNumber : Z;
  ssrc : Z;
  paddingLength : Z;
  headerLength : Z;
  hasTransportSequenceNumber : bool;
  transportSequenceNumber : Z;
  absoluteSendTime : Z;
  feedback_request : option FeedbackRequest
}.

Record BweMessage : Type := {
  pacing_rate : Q;
  padding_rate : Q;
  target_rate : Q;
  timestamp_ms : Z
}.

(** The readings of [clock_->TimeInMilliseconds()] during one call of
    [IncomingPacket], in the order of the reads: the one of
    [TimeToSendBweMessage], the one that stamps the estimate sent back (taken
    only when one is sent, after the estimator has run), and the one of
    [TimeToSaveIntoRedis]. *)
Record ClockReadings : Type := {
  bwe_time_now : Z;
  bwe_timestamp : Z;
  redis_time_now : Z
}.

(** A clock that does not advance during the call. *)
Definition steady (t : Z) : ClockReadings :=
  {| bwe_time_now := t; bwe_timestamp := t; redis_time_now := t |}.

(** What the feedback sender was asked to send. *)
Inductive RtcpPacket : Type :=
| SendTransportFeedback (m : TransportFeedback)
| SendApplicationPacket (b : BweMessage).

(** The fields of [send_config_] that this file reads, in milliseconds. *)
Record TransportWideFeedbackConfig : Type := {
  back_window : Z;
  min_interval : Z;
  max_interval : Z;
  default_interval : Z;
  bandwidth_fraction : Q
}.

Record AlphaCCConfig : Type := {
  bwe_feedback_duration_ms : Z;
  redis_update_duration_ms : Z
}.

(** ** The proxy *)

Section Proxy.

Context {unwrapper_impl : SeqNumUnwrapper} {capacity : FeedbackCapacity}
        {binary64 : Binary64} {telemetry : Telemetry}.

(** The data members of [RemoteEstimatorProxy].  The collaborators reached
    through pointers are represented by what they were given:
    [feedback_sender_] by the packets it was asked to send, [onnx_infer_] and
    [stats_collect_] by the per-packet records they received. *)
Record RemoteEstimatorProxy : Type := {
  feedback_sender_ : list RtcpPacket;
  send_config_ : TransportWideFeedbackConfig;
  last_process_time_ms_ : Z;
  unwrapper_ : unwrapper;
  periodic_window_start_seq_ : option Z;
  packet_arrival_times_ : StdMap.t;
  media_ssrc_ : Z;
  feedback_packet_count_ : Z;
  send_interval_ms_ : Z;
  send_periodic_feedback_ : bool;
  bwe_sendback_interval_ms_ : Z;
  last_bwe_sendback_ms_ : Z;
  stats_collect_ : list PacketInfo;
  redis_save_interval_ms_ : Z;
  last_redis_save_ms_ : Z;
  onnx_infer_ : list PacketInfo;
  cycles_ : Z;
  max_abs_send_time_ : Z
}.

(** Assignments to single members. *)

Definition set_feedback_sender_ (v : list RtcpPacket) (p : RemoteEstimatorProxy) :=
  {| feedback_sender_ := v; send_config_ := send_config_ p;
     last_process_time_ms_ := last_process_time_ms_ p;
     unwrapper_ := unwrapper_ p;
     periodic_window_start_seq_ := periodic_window_start_seq_ p;
     packet_arrival_times_ := packet_arrival_times_ p;
     media_ssrc_ := media_ssrc_ p;
     feedback_packet_count_ := feedback_packet_count_ p;
     send_interval_ms_ := send_interval_ms_ p;
     send_periodic_feedback_ := send_periodic_feedback_ p;
     bwe_sendback_interval_ms_ := bwe_sendback_interval_ms_ p;
     last_bwe_sendback_ms_ := last_bwe_sendback_ms_ p;
     stats_collect_ := stats_collect_ p;
     redis_save_interval_ms_ := redis_save_interval_ms_ p;
     last_redis_save_ms_ := last_redis_save_ms_ p;
     onnx_infer_ := onnx_infer_ p; cycles_ := cycles_ p;
     max_abs_send_time_ := max_abs_send_time_ p |}.

Definition set_last_process_time_ms_ (v : Z) (p : RemoteEstimatorProxy) :=
  {| feedback_sender_ := feedback_sender_ p; send_config_ := send_config_ p;
     last_process_time_ms_ := v;
     unwrapper_ := unwrapper_ p;
     periodic_window_start_seq_ := periodic_window_start_seq_ p;
     packet_arrival_times_ := packet_arrival_times_ p;
     media_ssrc_ := media_ssrc_ p;
     feedback_packet_count_ := feedback_packet_count_ p;
     send_interval_ms_ := send_interval_ms_ p;
     send_periodic_feedback_ := send_periodic_feedback_ p;
     bwe_sendback_interval_ms_ := bwe_sendback_interval_ms_ p;
     last_bwe_sendback_ms_ := last_bwe_sendback_ms_ p;
     stats_collect_ := stats_collect_ p;
     redis_save_interval_ms_ := redis_save_interval_ms_ p;
     last_redis_save_ms_ := last_redis_save_ms_ p;
     onnx_infer_ := onnx_infer_ p; cycles_ := cycles_ p;
     max_abs_send_time_ := max_abs_send_time_ p |}.

Definition set_unwrapper_ (v : unwrapper) (p : RemoteEstimatorProxy) :=
  {| feedback_sender_ := feedback_sender_ p; send_config_ := send_config_ p;
     last_process_time_ms_ := last_process_time_ms_ p;
     unwrapper_ := v;
     periodic_window_start_seq_ := periodic_window_start_seq_ p;
     packet_arrival_times_ := packet_arrival_times_ p;
     media_ssrc_ := media_ssrc_ p;
     feedback_packet_count_ := feedback_packet_count_ p;
     send_interval_ms_ := send_interval_ms_ p;
     send_periodic_feedback_ := send_periodic_feedback_ p;
     bwe_sendback_interval_ms_ := bwe_sendback_interval_ms_ p;
     last_bwe_sendback_ms_ := last_bwe_sendback_ms_ p;
     stats_collect_ := stats_collect_ p;
     redis_save_interval_ms_ := redis_save_interval_ms_ p;
     last_redis_save_ms_ := last_redis_save_ms_ p;
     onnx_infer_ := onnx_infer_ p; cycles_ := cycles_ p;
     max_abs_send_time_ := max_abs_send_time_ p |}.

Definition set_periodic_window_start_seq_ (v : option Z) (p : RemoteEstimatorProxy) :=
  {| feedback_sender_ := feedback_sender_ p; send_config_ := send_config_ p;
     last_process_time_ms_ := last_process_time_ms_ p;
     unwrapper_ := unwrapper_ p;
     periodic_window_start_seq_ := v;
     packet_arrival_times_ := packet_arrival_times_ p;
     media_ssrc_ := media_ssrc_ p;
     feedback_packet_count_ := feedback_packet_count_ p;
     send_interval_ms_ := send_interval_ms_ p;
     send_periodic_feedback_ := send_periodic_feedback_ p;
     bwe_sendback_interval_ms_ := bwe_sendback_interval_ms_ p;
     last_bwe_sendback_ms_ := last_bwe_sendback_ms_ p;
     stats_collect_ := stats_collect_ p;
     redis_save_interval_ms_ := redis_save_interval_ms_ p;
     last_redis_save_ms_ := last_redis_save_ms_ p;
     onnx_infer_ := onnx_infer_ p; cycles_ := cycles_ p;
     max_abs_send_time_ := max_abs_send_time_ p |}.

Definition set_packet_arrival_times_ (v : StdMap.t) (p : RemoteEstimatorProxy) :=
  {| feedback_sender_ := feedback_sender_ p; send_config_ := send_config_ p;
     last_process_time_ms_ := last_process_time_ms_ p;
     unwrapper_ := unwrapper_ p;
     periodic_window_start_seq_ := periodic_window_start_seq_ p;
     packet_arrival_times_ := v;
     media_ssrc_ := media_ssrc_ p;
     feedback_packet_count_ := feedback_packet_count_ p;
     send_interval_ms_ := send_interval_ms_ p;
     send_periodic_feedback_ := send_periodic_feedback_ p;
     bwe_sendback_interval_ms_ := bwe_sendback_interval_ms_ p;
     last_bwe_sendback_ms_ := last_bwe_sendback_ms_ p;
     stats_collect_ := stats_collect_ p;
     redis_save_interval_ms_ := redis_save_interval_ms_ p;
     last_redis_save_ms_ := last_redis_save_ms_ p;
     onnx_infer_ := onnx_infer_ p; cycles_ := cycles_ p;
     max_abs_send_time_ := max_abs_send_time_ p |}.

Definition set_media_ssrc_ (v : Z) (p : RemoteEstimatorProxy) :=
  {| feedback_sender_ := feedback_sender_ p; send_config_ := send_config_ p;
     last_process_time_ms_ := last_process_time_ms_ p;
     unwrapper_ := unwrapper_ p;
     periodic_window_start_seq_ := periodic_window_start_seq_ p;
     packet_arrival_times_ := packet_arrival_times_ p;
     media_ssrc_ := v;
     feedback_packet_count_ := feedback_packet_count_ p;
     send_interval_ms_ := send_interval_ms_ p;
     send_periodic_feedback_ := send_periodic_feedback_ p;
     bwe_sendback_interval_ms_ := bwe_sendback_interval_ms_ p;
     last_bwe_sendback_ms_ := last_bwe_sendback_ms_ p;
     stats_collect_ := stats_collect_ p;
     redis_save_interval_ms_ := redis_save_interval_ms_ p;
     last_redis_save_ms_ := last_redis_save_ms_ p;
     onnx_infer_ := onnx_infer_ p; cycles_ := cycles_ p;
     max_abs_send_time_ := max_abs_send_time_ p |}.

Definition set_feedback_packet_count_ (v : Z) (p : RemoteEstimatorProxy) :=
  {| feedback_sender_ := feedback_sender_ p; send_config_ := send_config_ p;
     last_process_time_ms_ := last_process_time_ms_ p;
     unwrapper_ := unwrapper_ p;
     periodic_window_start_seq_ := periodic_window_start_seq_ p;
     packet_arrival_times_ := packet_arrival_times_ p;
     media_ssrc_ := media_ssrc_ p;
     feedback_packet_count_ := v;
     send_interval_ms_ := send_interval_ms_ p;
     send_periodic_feedback_ := send_periodic_feedback_ p;
     bwe_sendback_interval_ms_ := bwe_sendback_interval_ms_ p;
     last_bwe_sendback_ms_ := last_bwe_sendback_ms_ p;
     stats_collect_ := stats_collect_ p;
     redis_save_interval_ms_ := redis_save_interval_ms_ p;
     last_redis_save_ms_ := last_redis_save_ms_ p;
     onnx_infer_ := onnx_infer_ p; cycles_ := cycles_ p;
     max_abs_send_time_ := max_abs_send_time_ p |}.

Definition set_send_interval_ms_ (v : Z) (p : RemoteEstimatorProxy) :=
  {| feedback_sender_ := feedback_sender_ p; send_config_ := send_config_ p;
     last_process_time_ms_ := last_process_time_ms_ p;
     unwrapper_ := unwrapper_ p;
     periodic_window_start_seq_ := periodic_window_start_seq_ p;
     packet_arrival_times_ := packet_arrival_times_ p;
     media_ssrc_ := media_ssrc_ p;
     feedback_packet_count_ := feedback_packet_count_ p;
     send_interval_ms_ := v;
     send_periodic_feedback_ := send_periodic_feedback_ p;
     bwe_sendback_interval_ms_ := bwe_sendback_interval_ms_ p;
     last_bwe_sendback_ms_ := last_bwe_sendback_ms_ p;
     stats_collect_ := stats_collect_ p;
     redis_save_interval_ms_ := redis_save_interval_ms_ p;
     last_redis_save_ms_ := last_redis_save_ms_ p;
     onnx_infer_ := onnx_infer_ p; cycles_ := cycles_ p;
     max_abs_send_time_ := max_abs_send_time_ p |}.

Definition set_send_periodic_feedback_ (v : bool) (p : RemoteEstimatorProxy) :=
  {| feedback_sender_ := feedback_sender_ p; send_config_ := send_config_ p;
     last_process_time_ms_ := last_process_time_ms_ p;
     unwrapper_ := unwrapper_ p;
     periodic_window_start_seq_ := periodic_window_start_seq_ p;
     packet_arrival_times_ := packet_arrival_times_ p;
     media_ssrc_ := media_ssrc_ p;
     feedback_packet_count_ := feedback_packet_count_ p;
     send_interval_ms_ := send_interval_ms_ p;
     send_periodic_feedback_ := v;
     bwe_sendback_interval_ms_ := bwe_sendback_interval_ms_ p;
     last_bwe_sendback_ms_ := last_bwe_sendback_ms_ p;
     stats_collect_ := stats_collect_ p;
     redis_save_interval_ms_ := redis_save_interval_ms_ p;
     last_redis_save_ms_ := last_redis_save_ms_ p;
     onnx_infer_ := onnx_infer_ p; cycles_ := cycles_ p;
     max_abs_send_time_ := max_abs_send_time_ p |}.

Definition set_last_bwe_sendback_ms_ (v : Z) (p : RemoteEstimatorProxy) :=
  {| feedback_sender_ := feedback_sender_ p; send_config_ := send_config_ p;
     last_process_time_ms_ := last_process_time_ms_ p;
     unwrapper_ := unwrapper_ p;
     periodic_window_start_seq_ := periodic_window_start_seq_ p;
     packet_arrival_times_ := packet_arrival_times_ p;
     media_ssrc_ := media_ssrc_ p;
     feedback_packet_count_ := feedback_packet_count_ p;
     send_interval_ms_ := send_interval_ms_ p;
     send_periodic_feedback_ := send_periodic_feedback_ p;
     bwe_sendback_interval_ms_ := bwe_sendback_interval_ms_ p;
     last_bwe_sendback_ms_ := v;
     stats_collect_ := stats_collect_ p;
     redis_save_interval_ms_ := redis_save_interval_ms_ p;
     last_redis_save_ms_ := last_redis_save_ms_ p;
     onnx_infer_ := onnx_infer_ p; cycles_ := cycles_ p;
     max_abs_send_time_ := max_abs_send_time_ p |}.

Definition set_stats_collect_ (v : list PacketInfo) (p : RemoteEstimatorProxy) :=
  {| feedback_sender_ := feedback_sender_ p; send_config_ := send_config_ p;
     last_process_time_ms_ := last_process_time_ms_ p;
     unwrapper_ := unwrapper_ p;
     periodic_window_start_seq_ := periodic_window_start_seq_ p;
     packet_arrival_times_ := packet_arrival_times_ p;
     media_ssrc_ := media_ssrc_ p;
     feedback_packet_count_ := feedback_packet_count_ p;
     send_interval_ms_ := send_interval_ms_ p;
     send_periodic_feedback_ := send_periodic_feedback_ p;
     bwe_sendback_interval_ms_ := bwe_sendback_interval_ms_ p;
     last_bwe_sendback_ms_ := last_bwe_sendback_ms_ p;
     stats_collect_ := v;
     redis_save_interval_ms_ := redis_save_interval_ms_ p;
     last_redis_save_ms_ := last_redis_save_ms_ p;
     onnx_infer_ := onnx_infer_ p; cycles_ := cycles_ p;
     max_abs_send_time_ := max_abs_send_time_ p |}.

Definition set_last_redis_save_ms_ (v : Z) (p : RemoteEstimatorProxy) :=
  {| feedback_sender_ := feedback_sender_ p; send_config_ := send_config_ p;
     last_process_time_ms_ := last_process_time_ms_ p;
     unwrapper_ := unwrapper_ p;
     periodic_window_start_seq_ := periodic_window_start_seq_ p;
     packet_arrival_times_ := packet_arrival_times_ p;
     media_ssrc_ := media_ssrc_ p;
     feedback_packet_count_ := feedback_packet_count_ p;
     send_interval_ms_ := send_interval_ms_ p;
     send_periodic_feedback_ := send_periodic_feedback_ p;
     bwe_sendback_interval_ms_ := bwe_sendback_interval_ms_ p;
     last_bwe_sendback_ms_ := last_bwe_sendback_ms_ p;
     stats_collect_ := stats_collect_ p;
     redis_save_interval_ms_ := redis_save_interval_ms_ p;
     last_redis_save_ms_ := v;
     onnx_infer_ := onnx_infer_ p; cycles_ := cycles_ p;
     max_abs_send_time_ := max_abs_send_time_ p |}.

Definition set_onnx_infer_ (v : list PacketInfo) (p : RemoteEstimatorProxy) :=
  {| feedback_sender_ := feedback_sender_ p; send_config_ := send_config_ p;
     last_process_time_ms_ := last_process_time_ms_ p;
     unwrapper_ := unwrapper_ p;
     periodic_window_start_seq_ := periodic_window_start_seq_ p;
     packet_arrival_times_ := packet_arrival_times_ p;
     media_ssrc_ := media_ssrc_ p;
     feedback_packet_count_ := feedback_packet_count_ p;
     send_interval_ms_ := send_interval_ms_ p;
     send_periodic_feedback_ := send_periodic_feedback_ p;
     bwe_sendback_interval_ms_ := bwe_sendback_interval_ms_ p;
     last_bwe_sendback_ms_ := last_bwe_sendback_ms_ p;
     stats_collect_ := stats_collect_ p;
     redis_save_interval_ms_ := redis_save_interval_ms_ p;
     last_redis_save_ms_ := last_redis_save_ms_ p;
     onnx_infer_ := v; cycles_ := cycles_ p;
     max_abs_send_time_ := max_abs_send_time_ p |}.

Definition set_send_time_state (c m : Z) (p : RemoteEstimatorProxy) :=
  {| feedback_sender_ := feedback_sender_ p; send_config_ := send_config_ p;
     last_process_time_ms_ := last_process_time_ms_ p;
     unwrapper_ := unwrapper_ p;
     periodic_window_start_seq_ := periodic_window_start_seq_ p;
     packet_arrival_times_ := packet_arrival_times_ p;
     media_ssrc_ := media_ssrc_ p;
     feedback_packet_count_ := feedback_packet_count_ p;
     send_interval_ms_ := send_interval_ms_ p;
     send_periodic_feedback_ := send_periodic_feedback_ p;
     bwe_sendback_interval_ms_ := bwe_sendback_interval_ms_ p;
     last_bwe_sendback_ms_ := last_bwe_sendback_ms_ p;
     stats_collect_ := stats_collect_ p;
     redis_save_interval_ms_ := redis_save_interval_ms_ p;
     last_redis_save_ms_ := last_redis_save_ms_ p;
     onnx_infer_ := onnx_infer_ p; cycles_ := c;
     max_abs_send_time_ := m |}.

(** *** Operations of [rtcp::TransportFeedback] used by the proxy *)

(** Modelled from the spec: a fresh message; the default constructor includes
    timestamps. *)
Definition TransportFeedback_new (with_timestamps : bool) : TransportFeedback :=
  {| include_timestamps_ := with_timestamps; tf_media_ssrc := 0;
     tf_base_seq := 0; tf_base_time_us := 0; tf_feedback_seq := 0;
     tf_packets := [] |}.

Definition SetMediaSsrc (m : TransportFeedback) (s : Z) : TransportFeedback :=
  {| include_timestamps_ := include_timestamps_ m; tf_media_ssrc := s;
     tf_base_seq := tf_base_seq m; tf_base_time_us := tf_base_time_us m;
     tf_feedback_seq := tf_feedback_seq m; tf_packets := tf_packets m |}.

Definition SetBase (m : TransportFeedback) (base_sequence ref_timestamp_us : Z)
  : TransportFeedback :=
  {| include_timestamps_ := include_timestamps_ m;
     tf_media_ssrc := tf_media_ssrc m;
     tf_base_seq := base_sequence; tf_base_time_us := ref_timestamp_us;
     tf_feedback_seq := tf_feedback_seq m; tf_packets := tf_packets m |}.

Definition SetFeedbackSequenceNumber (m : TransportFeedback) (n : Z)
  : TransportFeedback :=
  {| include_timestamps_ := include_timestamps_ m;
     tf_media_ssrc := tf_media_ssrc m;
     tf_base_seq := tf_base_seq m; tf_base_time_us := tf_base_time_us m;
     tf_feedback_seq := n; tf_packets := tf_packets m |}.

(** Modelled from the spec: appends the record, or fails and leaves the message
    as it was when the capacity is exhausted. *)
Definition AddReceivedPacket (m : TransportFeedback) (sequence_number timestamp_us : Z)
  : option TransportFeedback :=
  if has_room m sequence_number timestamp_us then
    Some {| include_timestamps_ := include_timestamps_ m;
            tf_media_ssrc := tf_media_ssrc m;
            tf_base_seq := tf_base_seq m; tf_base_time_us := tf_base_time_us m;
            tf_feedback_seq := tf_feedback_seq m;
            tf_packets := tf_packets m ++ [(sequence_number, timestamp_us)] |}
  else None.

(** *** Construction *)

(** The constructor reads the clock twice: [bwe_now] initialises
    [last_bwe_sendback_ms_] and [redis_now], read after it,
    [last_redis_save_ms_]. *)
Definition RemoteEstimatorProxy_new (config : TransportWideFeedbackConfig)
  (alphacc : AlphaCCConfig) (bwe_now redis_now : Z) : RemoteEstimatorProxy :=
  {| feedback_sender_ := [];
     send_config_ := config;
     last_process_time_ms_ := -1;
     unwrapper_ := unwrapper_new;
     periodic_window_start_seq_ := None;
     packet_arrival_times_ := [];
     media_ssrc_ := 0;
     feedback_packet_count_ := 0;
     send_interval_ms_ := default_interval config;
     send_periodic_feedback_ := true;
     bwe_sendback_interval_ms_ := bwe_feedback_duration_ms alphacc;
     last_bwe_sendback_ms_ := bwe_now;
     stats_collect_ := [];
     redis_save_interval_ms_ := redis_update_duration_ms alphacc;
     last_redis_save_ms_ := redis_now;
     onnx_infer_ := [];
     cycles_ := -1;
     max_abs_send_time_ := 0 |}.

(** *** [BuildFeedbackPacket] *)

(** The loop [for (auto it = begin_iterator; it != end_iterator; ++it)]. *)
Fixpoint add_received_packets (it end_iterator begin_iterator : iterator)
  (feedback_packet : TransportFeedback) (next_sequence_number : Z)
  : outcome (TransportFeedback * Z) :=
  match it with
  | [] =>
      if iter_eqb it end_iterator
      then Ok (feedback_packet, next_sequence_number)
      else Err Undefined
  | (first, second) :: it' =>
      if iter_eqb it end_iterator
      then Ok (feedback_packet, next_sequence_number)
      else
        match AddReceivedPacket feedback_packet (Z.land first 65535)
                (second * 1000) with
        | None =>
            (* RTC_CHECK(begin_iterator != it) *)
            if iter_eqb begin_iterator it then Err CheckFailed
            else Ok (feedback_packet, next_sequence_number)
        | Some feedback_packet' =>
            add_received_packets it' end_iterator begin_iterator
              feedback_packet' (first + 1)
        end
  end.

Definition BuildFeedbackPacket (feedback_packet_count media_ssrc
  base_sequence_number : Z) (begin_iterator end_iterator : iterator)
  (feedback_packet : TransportFeedback) : outcome (TransportFeedback * Z) :=
  (* RTC_DCHECK(begin_iterator != end_iterator) *)
  if iter_eqb begin_iterator end_iterator then Err DcheckFailed
  else
    match begin_iterator with
    | [] => Err Undefined
    | (_, begin_second) :: _ =>
        let feedback_packet := SetMediaSsrc feedback_packet media_ssrc in
        let feedback_packet :=
          SetBase feedback_packet (Z.land base_sequence_number 65535)
            (begin_second * 1000) in
        let feedback_packet :=
          SetFeedbackSequenceNumber feedback_packet feedback_packet_count in
        add_received_packets begin_iterator end_iterator begin_iterator
          feedback_packet base_sequence_number
    end.

(** [feedback_packet_count_++] on a [uint8_t]. *)
Definition next_feedback_packet_count (n : Z) : Z := (n + 1) mod 256.

(** *** [SendPeriodicFeedbacks] *)

(** The [for] loop, bounded by [fuel] iterations. *)
Fixpoint SendPeriodicFeedbacks_loop (fuel : nat) (p : RemoteEstimatorProxy)
  : outcome RemoteEstimatorProxy :=
  match periodic_window_start_seq_ p with
  | None => Err Undefined
  | Some start =>
      let begin_iterator := lower_bound start (packet_arrival_times_ p) in
      if iter_eqb begin_iterator [] then Ok p
      else
        match fuel with
        | O => Err OutOfFuel
        | S fuel' =>
            let count := feedback_packet_count_ p in
            let p := set_feedback_packet_count_
                       (next_feedback_packet_count count) p in
            '(feedback_packet, next) <-
               BuildFeedbackPacket count (media_ssrc_ p) start begin_iterator
                 [] (TransportFeedback_new true) ;;
            let p := set_periodic_window_start_seq_ (Some next) p in
            let p := set_feedback_sender_
                       (feedback_sender_ p ++
                          [SendTransportFeedback feedback_packet]) p in
            SendPeriodicFeedbacks_loop fuel' p
        end
  end.

(** Every iteration moves the cursor past at least one stored arrival, so the
    number of stored arrivals bounds the number of iterations. *)
Definition SendPeriodicFeedbacks (p : RemoteEstimatorProxy)
  : outcome RemoteEstimatorProxy :=
  match periodic_window_start_seq_ p with
  | None => Ok p
  | Some _ =>
      SendPeriodicFeedbacks_loop (length (packet_arrival_times_ p)) p
  end.

(** *** [SendFeedbackOnRequest] *)

Definition SendFeedbackOnRequest (p : RemoteEstimatorProxy)
  (sequence_number : Z) (request : FeedbackRequest)
  : outcome RemoteEstimatorProxy :=
  if sequence_count request =? 0 then Ok p
  else
    let feedback_packet := TransportFeedback_new (include_timestamps request) in
    let first_sequence_number :=
      sequence_number - sequence_count request + 1 in
    let begin_iterator :=
      lower_bound first_sequence_number (packet_arrival_times_ p) in
    let end_iterator := upper_bound sequence_number (packet_arrival_times_ p) in
    let count := feedback_packet_count_ p in
    let p := set_feedback_packet_count_ (next_feedback_packet_count count) p in
    '(feedback_packet, _) <-
       BuildFeedbackPacket count (media_ssrc_ p) first_sequence_number
         begin_iterator end_iterator feedback_packet ;;
    let p := set_packet_arrival_times_
               (erase_until begin_iterator (packet_arrival_times_ p)) p in
    Ok (set_feedback_sender_
          (feedback_sender_ p ++ [SendTransportFeedback feedback_packet]) p).

(** *** [OnPacketArrival] *)

(** The culling loop: erase from the front while the entry is older than
    [seq] and its arrival is at least the back window before
    [arrival_time]. *)
Fixpoint cull_old_packets (seq arrival_time back_window_ms : Z) (m : StdMap.t)
  : StdMap.t :=
  match m with
  | [] => []
  | (first, second) :: m' =>
      if (first <? seq) && (back_window_ms <=? arrival_time - second)
      then cull_old_packets seq arrival_time back_window_ms m'
      else m
  end.

Definition OnPacketArrival (p : RemoteEstimatorProxy)
  (sequence_number arrival_time : Z) (request : option FeedbackRequest)
  : outcome RemoteEstimatorProxy :=
  if (arrival_time <? 0) || (kMaxTimeMs <? arrival_time) then Ok p
  else
    let '(seq, u) := Unwrap (unwrapper_ p) sequence_number in
    let p := set_unwrapper_ u p in
    let p :=
      if send_periodic_feedback_ p then
        let p :=
          match periodic_window_start_seq_ p with
          | Some start =>
              if iter_eqb (lower_bound start (packet_arrival_times_ p)) []
              then
                (* Start new feedback packet, cull old packets. *)
                set_packet_arrival_times_
                  (cull_old_packets seq arrival_time
                     (back_window (send_config_ p))
                     (packet_arrival_times_ p)) p
              else p
          | None => p
          end in
        match periodic_window_start_seq_ p with
        | None => set_periodic_window_start_seq_ (Some seq) p
        | Some start =>
            if seq <? start
            then set_periodic_window_start_seq_ (Some seq) p
            else p
        end
      else p in
    (* We are only interested in the first time a packet is received. *)
    match find seq (packet_arrival_times_ p) with
    | Some _ => Ok p
    | None =>
        let p := set_packet_arrival_times_
                   (assign seq arrival_time (packet_arrival_times_ p)) p in
        (* Limit the range of sequence numbers to send feedback for. *)
        match last_key (packet_arrival_times_ p) with
        | None => Err Undefined
        | Some newest =>
            let first_arrival_time_to_keep :=
              lower_bound (newest - kMaxNumberOfPackets)
                (packet_arrival_times_ p) in
            let p :=
              if iter_eqb first_arrival_time_to_keep
                   (begin_ (packet_arrival_times_ p))
              then p
              else
                let p := set_packet_arrival_times_
                           (erase_until first_arrival_time_to_keep
                              (packet_arrival_times_ p)) p in
                if send_periodic_feedback_ p
                then set_periodic_window_start_seq_
                       (first_key (packet_arrival_times_ p)) p
                else p in
            match request with
            | Some r => SendFeedbackOnRequest p seq r
            | None => Ok p
            end
        end
    end.

(** *** Scheduling *)

(** [now] is the reading of [clock_->TimeInMilliseconds()]. *)
Definition TimeUntilNextProcess (now : Z) (p : RemoteEstimatorProxy) : Z :=
  if negb (send_periodic_feedback_ p) then
    (* Wait a day until next process. *)
    24 * 60 * 60 * 1000
  else if negb (last_process_time_ms_ p =? -1)
          && (now - last_process_time_ms_ p <? send_interval_ms_ p)
  then last_process_time_ms_ p + send_interval_ms_ p - now
  else 0.

Definition Process (now : Z) (p : RemoteEstimatorProxy)
  : outcome RemoteEstimatorProxy :=
  if negb (send_periodic_feedback_ p) then Ok p
  else SendPeriodicFeedbacks (set_last_process_time_ms_ now p).

Definition SetSendPeriodicFeedback (send_periodic_feedback : bool)
  (p : RemoteEstimatorProxy) : RemoteEstimatorProxy :=
  set_send_periodic_feedback_ send_periodic_feedback p.

(** [rtc::SafeClamp] on doubles. *)
Definition SafeClamp (x lo hi : Q) : Q :=
  if Qlt_le_dec x lo then lo
  else if Qlt_le_dec hi x then hi
  else x.

(** [static_cast<int>] of a double: truncation toward zero. *)
Definition trunc (x : Q) : Z :=
  if Qlt_le_dec x 0 then Qceiling x else Qfloor x.

(** The body of [OnBitrateChanged] before the assignment.  Every operation
    on doubles is the exact operation followed by [fl]; the conversions of the
    integers and the constant [kTwccReportSize * 8.0 * 1000.0] are exact. *)
Definition twcc_interval_ms (config : TransportWideFeedbackConfig)
  (bitrate_bps : Z) : Z :=
  let report_bits : Q := inject_Z (kTwccReportSize * 8 * 1000) in
  let kMinTwccRate := fl (report_bits / inject_Z (max_interval config)) in
  let kMaxTwccRate := fl (report_bits / inject_Z (min_interval config)) in
  trunc
    (fl ((1 # 2) +
         fl (report_bits /
             SafeClamp (fl (bandwidth_fraction config * inject_Z bitrate_bps))
               kMinTwccRate kMaxTwccRate)))%Q.

Definition OnBitrateChanged (bitrate_bps : Z) (p : RemoteEstimatorProxy)
  : RemoteEstimatorProxy :=
  set_send_interval_ms_ (twcc_interval_ms (send_config_ p) bitrate_bps) p.

(** *** Send-time unwrapping *)

(** [static_cast<int32_t>] of a [uint32_t]. *)
Definition to_int32 (x : Z) : Z :=
  if x <? 2 ^ 31 then x else x - 2 ^ 32.

(** [std::round]: to the nearest integer, halves away from zero. *)
Definition round_half_away (x : Q) : Z :=
  if Qlt_le_dec x 0 then - Qfloor (- x + (1 # 2)) else Qfloor (x + (1 # 2)).

(** The wrap detection of [GetTtimeFromAbsSendtime]: the new values of
    [cycles_] and [max_abs_send_time_]. *)
Definition abs_send_time_step (cycles max_abs_send_time absoluteSendTime : Z)
  : Z * Z :=
  let '(cycles, max_abs_send_time) :=
    if cycles =? -1 then (0, absoluteSendTime)
    else (cycles, max_abs_send_time) in
  if 0 <=? to_int32 ((Z.shiftl absoluteSendTime 8 mod 2 ^ 32
                      - Z.shiftl max_abs_send_time 8 mod 2 ^ 32) mod 2 ^ 32)
  then
    ((if absoluteSendTime <? max_abs_send_time then cycles + 1 else cycles),
     absoluteSendTime)
  else (cycles, max_abs_send_time).

(** The conversion to milliseconds. *)
Definition send_time_ms_of (absoluteSendTime cycles : Z) : Z :=
  let send_time_seconds : Q :=
    fl (fl (inject_Z absoluteSendTime / inject_Z 262144)
        + fl (inject_Z 64 * inject_Z cycles))%Q in
  round_half_away (fl (send_time_seconds * inject_Z 1000)%Q) mod 2 ^ 32.

Definition GetTtimeFromAbsSendtime (p : RemoteEstimatorProxy)
  (absoluteSendTime : Z) : Z * RemoteEstimatorProxy :=
  let '(cycles, max_abs_send_time) :=
    abs_send_time_step (cycles_ p) (max_abs_send_time_ p) absoluteSendTime in
  (send_time_ms_of absoluteSendTime cycles,
   set_send_time_state cycles max_abs_send_time p).

(** *** Bandwidth estimate and statistics *)

Definition TimeToSendBweMessage (now : Z) (p : RemoteEstimatorProxy)
  : bool * RemoteEstimatorProxy :=
  if last_bwe_sendback_ms_ p <? now - bwe_sendback_interval_ms_ p
  then (true, set_last_bwe_sendback_ms_ now p)
  else (false, p).

Definition SendbackBweEstimation (bwe : BweMessage) (p : RemoteEstimatorProxy)
  : RemoteEstimatorProxy :=
  set_feedback_sender_ (feedback_sender_ p ++ [SendApplicationPacket bwe]) p.

Definition TimeToSaveIntoRedis (now : Z) (p : RemoteEstimatorProxy)
  : bool * RemoteEstimatorProxy :=
  if last_redis_save_ms_ p <? now - redis_save_interval_ms_ p
  then (true, set_last_redis_save_ms_ now p)
  else (false, p).

(** [SaveIntoRedis] talks to the remote store only; no member of the proxy
    modelled here changes. *)
Definition SaveIntoRedis (p : RemoteEstimatorProxy) : RemoteEstimatorProxy := p.

(** *** [IncomingPacket] *)

(** [now] holds the readings of the clock taken during the call; each of
    them is used where the source takes it. *)
Definition IncomingPacket (now : ClockReadings) (p : RemoteEstimatorProxy)
  (arrival_time_ms payload_size : Z) (header : RTPHeader)
  : outcome RemoteEstimatorProxy :=
  if negb (hasTransportSequenceNumber header) then Ok p
  else
    let p := set_media_ssrc_ (ssrc header) p in
    p <- OnPacketArrival p (transportSequenceNumber header) arrival_time_ms
           (feedback_request header) ;;
    let '(send_time_ms, p) :=
      GetTtimeFromAbsSendtime p (absoluteSendTime header) in
    let received (pacing padding : Q) : PacketInfo :=
      {| pi_pacing_rate := pacing; pi_padding_rate := padding;
         pi_payload_type := payloadType header;
         pi_sequence_number := sequenceNumber header;
         pi_send_time_ms := send_time_ms; pi_ssrc := ssrc header;
         pi_padding_length := paddingLength header;
         pi_header_length := headerLength header;
         pi_arrival_time_ms := arrival_time_ms;
         pi_payload_size := payload_size |} in
    let p := set_onnx_infer_ (onnx_infer_ p ++ [received 0%Q 0%Q]) p in
    let '(time_to_send_bew_message, p) :=
      TimeToSendBweMessage (bwe_time_now now) p in
    let estimation :=
      if time_to_send_bew_message then GetBweEstimate (onnx_infer_ p)
      else 0%Q in
    let p :=
      if time_to_send_bew_message then
        SendbackBweEstimation
          {| pacing_rate := estimation; padding_rate := estimation;
             target_rate := estimation; timestamp_ms := bwe_timestamp now |} p
      else p in
    let pacing :=
      if time_to_send_bew_message then estimation
      else SC_PACER_PACING_RATE_EMPTY in
    let padding :=
      if time_to_send_bew_message then estimation
      else SC_PACER_PADDING_RATE_EMPTY in
    let p := set_stats_collect_ (stats_collect_ p ++ [received pacing padding]) p in
    let '(save, p) := TimeToSaveIntoRedis (redis_time_now now) p in
    Ok (if save then SaveIntoRedis p else p).

(** *** States the proxy can be in

    The states reached from a freshly constructed proxy through its public
    member functions. *)
Inductive reachable (config : TransportWideFeedbackConfig)
  (alphacc : AlphaCCConfig) : RemoteEstimatorProxy -> Prop :=
| reach_new bwe_now redis_now :
    reachable config alphacc
      (RemoteEstimatorProxy_new config alphacc bwe_now redis_now)
| reach_IncomingPacket p now arrival_time_ms payload_size header p' :
    reachable config alphacc p ->
    IncomingPacket now p arrival_time_ms payload_size header = Ok p' ->
    reachable config alphacc p'
| reach_Process p now p' :
    reachable config alphacc p ->
    Process now p = Ok p' ->
    reachable config alphacc p'
| reach_OnBitrateChanged p bitrate_bps :
    reachable config alphacc p ->
    reachable config alphacc (OnBitrateChanged bitrate_bps p)
| reach_SetSendPeriodicFeedback p b :
    reachable config alphacc p ->
    reachable config alphacc (SetSendPeriodicFeedback b p).

End Proxy.

(** ** Vocabulary of the statements *)

(** A stored arrival as it goes on the wire: the sequence number truncated to
    16 bits and the arrival time in microseconds. *)
Definition wire (e : entry) : Z * Z := (Z.land (fst e) 65535, snd e * 1000).

(** One past the last sequence number of [chunk], or [base] when [chunk] is
    empty. *)
Definition next_after (base : Z) (chunk : list entry) : Z :=
  match last_key chunk with
  | Some k => k + 1
  | None => base
  end.

(** [m] after the records of [chunk] were appended to it. *)
Definition with_records (m : TransportFeedback) (chunk : list entry)
  : TransportFeedback :=
  {| include_timestamps_ := include_timestamps_ m;
     tf_media_ssrc := tf_media_ssrc m;
     tf_base_seq := tf_base_seq m; tf_base_time_us := tf_base_time_us m;
     tf_feedback_seq := tf_feedback_seq m;
     tf_packets := tf_packets m ++ map wire chunk |}.

(** The builder's contract on the wire format: an empty message has room for
    one record. *)
Definition first_record_fits `{FeedbackCapacity} : Prop :=
  forall m s t, tf_packets m = [] -> has_room m s t = true.

(** Reference time of a message built from the iterator [b]. *)
Definition base_time_of (b : iterator) : Z :=
  match b with
  | [] => 0
  | (_, second) :: _ => second * 1000
  end.

(** The message that covers exactly [chunk], with base [base]. *)
Definition feedback_message (with_timestamps : bool) (count media_ssrc base : Z)
  (chunk : list entry) : TransportFeedback :=
  {| include_timestamps_ := with_timestamps;
     tf_media_ssrc := media_ssrc;
     tf_base_seq := Z.land base 65535;
     tf_base_time_us := base_time_of chunk;
     tf_feedback_seq := count;
     tf_packets := map wire chunk |}.

(** The messages of one periodic drain that cuts the run into [chunks]: every
    message starts where the previous one stopped. *)
Fixpoint periodic_messages (count media_ssrc base : Z)
  (chunks : list (list entry)) : list RtcpPacket :=
  match chunks with
  | [] => []
  | chunk :: chunks' =>
      SendTransportFeedback (feedback_message true count media_ssrc base chunk)
      :: periodic_messages (next_feedback_packet_count count) media_ssrc
           (next_after base chunk) chunks'
  end.

(** The ranges of sequence numbers [[base, next)] of the messages of a drain. *)
Fixpoint covered_ranges (base : Z) (chunks : list (list entry))
  : list (Z * Z) :=
  match chunks with
  | [] => []
  | chunk :: chunks' =>
      (base, next_after base chunk) :: covered_ranges (next_after base chunk) chunks'
  end.

(** Consecutive ranges: non-empty, and each begins where the previous ends. *)
Fixpoint contiguous_from (start : Z) (ranges : list (Z * Z)) : Prop :=
  match ranges with
  | [] => True
  | (lo, hi) :: ranges' => lo = start /\ lo < hi /\ contiguous_from hi ranges'
  end.

(** Every arrival of a chunk has its sequence number in the range of the
    chunk's message. *)
Definition within_ranges (chunks : list (list entry)) (ranges : list (Z * Z))
  : Prop :=
  Forall2 (fun chunk range =>
             Forall (fun e => fst range <= fst e < snd range) chunk)
    chunks ranges.

(** The value of the feedback counter after [n] more messages. *)
Definition advance_count (n : nat) (count : Z) : Z :=
  Nat.iter n next_feedback_packet_count count.

(** The proxy after a periodic drain that sent [messages] and left the cursor
    at [next]: nothing else differs. *)
Definition after_drain `{SeqNumUnwrapper} (p : RemoteEstimatorProxy)
  (messages : list RtcpPacket) (next : Z) : RemoteEstimatorProxy :=
  set_feedback_sender_ (feedback_sender_ p ++ messages)
    (set_periodic_window_start_seq_ (Some next)
       (set_feedback_packet_count_
          (advance_count (length messages) (feedback_packet_count_ p)) p)).

(** The proxy after an on-demand request that starts at [first] was answered
    with [message]: the counter moved on, the arrivals below [first] are gone,
    the message was sent, nothing else differs. *)
Definition after_request `{SeqNumUnwrapper} (p : RemoteEstimatorProxy)
  (message : TransportFeedback) (first : Z) : RemoteEstimatorProxy :=
  set_feedback_sender_
    (feedback_sender_ p ++ [SendTransportFeedback message])
    (set_packet_arrival_times_
       (lower_bound first (packet_arrival_times_ p))
       (set_feedback_packet_count_
          (next_feedback_packet_count (feedback_packet_count_ p)) p)).

(** *** The phases of [OnPacketArrival]

    The state of the proxy when the duplicate check is reached, and its state
    once the new arrival is stored and the window is pruned. *)

(** The map after the optional culling of old packets. *)
Definition window_on_arrival `{SeqNumUnwrapper} (p : RemoteEstimatorProxy)
  (seq arrival_time : Z) : StdMap.t :=
  if send_periodic_feedback_ p then
    match periodic_window_start_seq_ p with
    | Some start =>
        if iter_eqb (lower_bound start (packet_arrival_times_ p)) []
        then cull_old_packets seq arrival_time (back_window (send_config_ p))
               (packet_arrival_times_ p)
        else packet_arrival_times_ p
    | None => packet_arrival_times_ p
    end
  else packet_arrival_times_ p.

(** The cursor after the arrival was noted. *)
Definition cursor_on_arrival `{SeqNumUnwrapper} (p : RemoteEstimatorProxy)
  (seq : Z) : option Z :=
  if send_periodic_feedback_ p then
    match periodic_window_start_seq_ p with
    | None => Some seq
    | Some start => if seq <? start then Some seq else Some start
    end
  else periodic_window_start_seq_ p.

Definition on_arrival `{SeqNumUnwrapper} (p : RemoteEstimatorProxy)
  (seq : Z) (u : unwrapper) (arrival_time : Z) : RemoteEstimatorProxy :=
  set_periodic_window_start_seq_ (cursor_on_arrival p seq)
    (set_packet_arrival_times_ (window_on_arrival p seq arrival_time)
       (set_unwrapper_ u p)).

(** The largest key once [seq] is stored. *)
Definition newest_key (seq arrival_time : Z) (m : StdMap.t) : Z :=
  match last_key (assign seq arrival_time m) with
  | Some newest => newest
  | None => seq
  end.

(** The map once [seq] is stored and the entries more than
    [kMaxNumberOfPackets] behind the largest key are erased. *)
Definition window_after_insert (seq arrival_time : Z) (m : StdMap.t) : StdMap.t :=
  let stored := assign seq arrival_time m in
  let first_arrival_time_to_keep :=
    lower_bound (newest_key seq arrival_time m - kMaxNumberOfPackets) stored in
  if iter_eqb first_arrival_time_to_keep (begin_ stored) then stored
  else erase_until first_arrival_time_to_keep stored.

(** The cursor after the pruning: moved to the first key when something was
    erased and periodic feedback is enabled. *)
Definition cursor_after_insert (periodic : bool) (cursor : option Z)
  (seq arrival_time : Z) (m : StdMap.t) : option Z :=
  let stored := assign seq arrival_time m in
  let first_arrival_time_to_keep :=
    lower_bound (newest_key seq arrival_time m - kMaxNumberOfPackets) stored in
  if iter_eqb first_arrival_time_to_keep (begin_ stored) then cursor
  else if periodic then first_key first_arrival_time_to_keep
       else cursor.

Definition stored_and_pruned `{SeqNumUnwrapper} (p : RemoteEstimatorProxy)
  (seq arrival_time : Z) : RemoteEstimatorProxy :=
  set_periodic_window_start_seq_
    (cursor_after_insert (send_periodic_feedback_ p)
       (periodic_window_start_seq_ p) seq arrival_time
       (packet_arrival_times_ p))
    (set_packet_arrival_times_
       (window_after_insert seq arrival_time (packet_arrival_times_ p)) p).

(** A packet handed to the feedback sender that is not transport feedback. *)
Definition is_application_packet (x : RtcpPacket) : Prop :=
  match x with
  | SendApplicationPacket _ => True
  | SendTransportFeedback _ => False
  end.

(** *** What the theorems assume of [double] arithmetic

    Three properties of IEEE-754 binary64 rounding to nearest: it is monotone;
    a dyadic rational with a numerator of at most 53 bits and a moderate
    exponent is represented exactly; away from overflow and underflow the
    relative error is at most 2^-53. *)

Definition binary64_monotone `{Binary64} : Prop :=
  forall x y : Q, (x <= y)%Q -> (fl x <= fl y)%Q.

Definition binary64_exact `{Binary64} : Prop :=
  forall n k : Z,
    Z.abs n <= 2 ^ 53 -> 0 <= k <= 1000 ->
    (fl (inject_Z n / inject_Z (2 ^ k)) == inject_Z n / inject_Z (2 ^ k))%Q.

Definition binary64_error `{Binary64} : Prop :=
  forall x : Q,
    (1 # 2 ^ 20 <= x)%Q -> (x <= inject_Z (2 ^ 20))%Q ->
    (x * (1 - (1 # 2 ^ 53)) <= fl x)%Q /\ (fl x <= x * (1 + (1 # 2 ^ 53)))%Q.

(** [kTwccReportSize * 8.0 * 1000.0]: the bits of one report, times 1000. *)
Definition twcc_report_bits : Q := inject_Z (kTwccReportSize * 8 * 1000).

(** *** Streams of absolute send times *)

(** Feeding a stream of 24-bit absolute send times to
    [GetTtimeFromAbsSendtime], one after the other: the outputs. *)
Fixpoint unwrap_send_times `{SeqNumUnwrapper} `{Binary64}
  (p : RemoteEstimatorProxy) (stream : list Z) : list Z :=
  match stream with
  | [] => []
  | absoluteSendTime :: stream' =>
      let '(send_time_ms, p') := GetTtimeFromAbsSendtime p absoluteSendTime in
      send_time_ms :: unwrap_send_times p' stream'
  end.

(** The 24-bit stream of a sequence of send times counted in units of 2^-18
    seconds. *)
Definition abs_send_times (times : list Z) : list Z :=
  map (fun t => t mod 2 ^ 24) times.

(** [round_to_nearest_ms(input / 2^18 + 64.0 * cycles)] for the send time
    [t], whose input is [t mod 2^24] and whose cycle is [t / 2^24]. *)
Definition unwrapped_ms (t : Z) : Z :=
  round_half_away
    ((inject_Z (t mod 2 ^ 24) / inject_Z 262144
      + inject_Z 64 * inject_Z (t / 2 ^ 24)) * inject_Z 1000)%Q.

Fixpoint increasing (l : list Z) : Prop :=
  match l with
  | x :: (y :: _) as l' => x < y /\ increasing l'
  | _ => True
  end.

Fixpoint nondecreasing (l : list Z) : Prop :=
  match l with
  | x :: (y :: _) as l' => x <= y /\ nondecreasing l'
  | _ => True
  end.

(** Every element is ahead of its predecessor by less than [bound]. *)
Fixpoint steps_below (bound : Z) (l : list Z) : Prop :=
  match l with
  | x :: (y :: _) as l' => 0 <= y - x < bound /\ steps_below bound l'
  | _ => True
  end.

(** The stored arrivals with a key in [[lo, hi]]. *)
Definition entries_between (lo hi : Z) (m : StdMap.t) : list entry :=
  filter (fun e => (lo <=? fst e) && (fst e <=? hi)) m.

(** The part of the proxy that the feedback protocol rests on. *)
Definition same_window `{SeqNumUnwrapper}
  (p q : RemoteEstimatorProxy) : Prop :=
  packet_arrival_times_ p = packet_arrival_times_ q /\
  periodic_window_start_seq_ p = periodic_window_start_seq_ q.

(** ** Instances used to run the model on concrete inputs *)

(** Modelled from the spec: among the integers congruent to the raw value
    modulo 65536, the one nearest to the previously returned value; the first
    call returns the raw value.  At the distance of exactly half the range this
    instance steps backwards. *)
Definition closest_distance_unwrapper : SeqNumUnwrapper := {|
  unwrapper := option Z;
  unwrapper_new := None;
  Unwrap := fun last value =>
    match last with
    | None => (value, Some value)
    | Some l =>
        let forward := (value - l) mod 65536 in
        let unwrapped :=
          if forward <? 32768 then l + forward else l + forward - 65536 in
        (unwrapped, Some unwrapped)
    end
|}.

(** A message with room for [n] records. *)
Definition capacity_of (n : nat) : FeedbackCapacity := {|
  has_room := fun m _ _ => (length (tf_packets m) <? n)%nat
|}.

(** Arithmetic without rounding error. *)
Definition exact_arithmetic : Binary64 := {| fl := fun x => x |}.

(** An estimator that has nothing to say. *)
Definition silent_telemetry : Telemetry := {|
  GetBweEstimate := fun _ => 0%Q;
  SC_PACER_PACING_RATE_EMPTY := (-1)%Q;
  SC_PACER_PADDING_RATE_EMPTY := (-1)%Q
|}.

(** A configuration: reports every 50 to 250 ms, 100 ms to begin with, a back
    window of 500 ms, 5% of the bandwidth for feedback. *)
Definition example_config : TransportWideFeedbackConfig := {|
  back_window := 500;
  min_interval := 50;
  max_interval := 250;
  default_interval := 100;
  bandwidth_fraction := 5 # 100
|}.

Definition example_alphacc : AlphaCCConfig := {|
  bwe_feedback_duration_ms := 200;
  redis_update_duration_ms := 1000
|}.

(** A packet header with a transport sequence number. *)
Definition example_header (media_ssrc transport_seq abs_send_time : Z)
  (request : option FeedbackRequest) : RTPHeader := {|
  payloadType := 96;
  sequenceNumber := transport_seq;
  ssrc := media_ssrc;
  paddingLength := 0;
  headerLength := 12;
  hasTransportSequenceNumber := true;
  transportSequenceNumber := transport_seq;
  absoluteSendTime := abs_send_time;
  feedback_request := request
|}.

(** A message with room for two records. *)
Definition two_records : FeedbackCapacity := capacity_of 2.

(** The model run with these instances. *)
Definition ExampleProxy : Type :=
  @RemoteEstimatorProxy closest_distance_unwrapper.

(** A freshly constructed proxy. *)
Definition fresh_proxy : ExampleProxy :=
  @RemoteEstimatorProxy_new closest_distance_unwrapper example_config
    example_alphacc 0 0.

(** [IncomingPacket] for a packet of SSRC 42 without a feedback request. *)
Definition deliver (transport_seq arrival_time_ms : Z) (p : ExampleProxy)
  : outcome ExampleProxy :=
  @IncomingPacket closest_distance_unwrapper two_records exact_arithmetic
    silent_telemetry (steady arrival_time_ms) p arrival_time_ms 1200
    (example_header 42 transport_seq 0 None).

(** The proxy of an outcome, or the fresh proxy when the call failed. *)
Definition proxy_of (o : outcome ExampleProxy) : ExampleProxy :=
  match o with
  | Ok p => p
  | Err _ => fresh_proxy
  end.

(** A sequence of such packets, given by sequence number and arrival time. *)
Fixpoint deliver_all (packets : list (Z * Z)) (p : ExampleProxy)
  : outcome ExampleProxy :=
  match packets with
  | [] => Ok p
  | (transport_seq, arrival_time_ms) :: packets' =>
      p' <- deliver transport_seq arrival_time_ms p ;; deliver_all packets' p'
  end.

(** Arrivals 1 to 5 at 100, 101, 105, 106 and 110 ms. *)
Definition five_arrivals : list (Z * Z) :=
  [(1, 100); (2, 101); (3, 105); (4, 106); (5, 110)].

Definition after_five_arrivals : ExampleProxy :=
  Eval vm_compute in proxy_of (deliver_all five_arrivals fresh_proxy).

(** The same, followed by a periodic drain at 150 ms. *)
Definition after_periodic_drain : ExampleProxy :=
  Eval vm_compute in
    proxy_of (@Process closest_distance_unwrapper two_records 150
                after_five_arrivals).

(** Then sequence number 2 is delivered a second time, at 10000 ms. *)
Definition after_duplicate : ExampleProxy :=
  Eval vm_compute in
    proxy_of (@OnPacketArrival closest_distance_unwrapper two_records
                after_periodic_drain 2 10000 None).

(** Arrivals 60000 and 30000, both at 0 ms. *)
Definition two_distant_arrivals : list (Z * Z) := [(60000, 0); (30000, 0)].

Definition after_two_distant_arrivals : ExampleProxy :=
  Eval vm_compute in proxy_of (deliver_all two_distant_arrivals fresh_proxy).

(** A packet with sequence number 0 that requests feedback for itself. *)
Definition request_for_one : FeedbackRequest :=
  {| include_timestamps := true; sequence_count := 1 |}.

(** A request for the three sequence numbers up to the one it comes with. *)
Definition request_for_three : FeedbackRequest :=
  {| include_timestamps := true; sequence_count := 3 |}.

(** A packet of SSRC 7 that arrives at -1 ms. *)
Definition after_out_of_bounds : ExampleProxy :=
  Eval vm_compute in
    proxy_of (@IncomingPacket closest_distance_unwrapper two_records
                exact_arithmetic silent_telemetry (steady 0) fresh_proxy (-1)
                1200
                (example_header 7 1 0 None)).

(** Send times 32 seconds apart, over three wrap cycles. *)
Definition half_period_times : list Z :=
  [0; 2 ^ 23; 2 * 2 ^ 23; 3 * 2 ^ 23; 4 * 2 ^ 23; 5 * 2 ^ 23; 6 * 2 ^ 23].

(** Send times 16 seconds apart, over three wrap cycles, after the first
    one at 0. *)
Definition quarter_period_times : list Z :=
  Eval vm_compute in
    map (fun i => i * 2 ^ 22) [1; 2; 3; 4; 5; 6; 7; 8; 9; 10; 11; 12].

(** After the periodic drain, sequence number 6 arrives at 120 ms. *)
Definition after_sixth_arrival : ExampleProxy :=
  Eval vm_compute in
    proxy_of (@OnPacketArrival closest_distance_unwrapper two_records
                after_periodic_drain 6 120 None).

(** With periodic feedback disabled after the drain, sequence number 7
    arrives at 10000 ms. *)
Definition after_arrival_while_disabled : ExampleProxy :=
  Eval vm_compute in
    proxy_of (@OnPacketArrival closest_distance_unwrapper two_records
                (SetSendPeriodicFeedback false after_periodic_drain) 7 10000
                None).

(** A clock that advances by a millisecond between its readings. *)
Definition advancing_from (t : Z) : ClockReadings :=
  {| bwe_time_now := t; bwe_timestamp := t + 1; redis_time_now := t + 2 |}.

(** After the five arrivals, sequence number 6 is delivered at 300 ms, more
    than the send-back interval after the construction, while the clock
    advances. *)
Definition after_estimate : ExampleProxy :=
  Eval vm_compute in
    proxy_of (@IncomingPacket closest_distance_unwrapper two_records
                exact_arithmetic silent_telemetry (advancing_from 300)
                after_five_arrivals 300 1200 (example_header 42 6 0 None)).

(** ** Further vocabulary *)

(** The shape of the arrival window: strictly ascending keys that span at
    most [kMaxNumberOfPackets]. *)
Definition window_ok (m : StdMap.t) : Prop :=
  sorted m /\ span m <= 32768.

(** A wire format whose messages have room for [n] records at least. *)
Definition room_for `{FeedbackCapacity} (n : nat) : Prop :=
  forall m s t, (length (tf_packets m) < n)%nat -> has_room m s t = true.

(** The message as [BuildFeedbackPacket] has set it up when it appends the
    first record: SSRC, base and feedback sequence number are in place. *)
Definition initialised_message (with_timestamps : bool)
  (count media_ssrc base begin_second : Z) : TransportFeedback :=
  SetFeedbackSequenceNumber
    (SetBase (SetMediaSsrc (TransportFeedback_new with_timestamps) media_ssrc)
       (Z.land base 65535) (begin_second * 1000))
    count.

(** The application packets among the packets handed to the sender. *)
Fixpoint application_packets (l : list RtcpPacket) : list BweMessage :=
  match l with
  | [] => []
  | SendApplicationPacket b :: l' => b :: application_packets l'
  | SendTransportFeedback _ :: l' => application_packets l'
  end.

(** The transport feedback messages among them. *)
Fixpoint transport_feedbacks (l : list RtcpPacket) : list TransportFeedback :=
  match l with
  | [] => []
  | SendTransportFeedback m :: l' => m :: transport_feedbacks l'
  | SendApplicationPacket _ :: l' => transport_feedbacks l'
  end.

(** *** [SaveIntoRedis] and the statistics collector

    The results of [StatCollect] that [SaveIntoRedis] tells apart, and the
    calls it makes on [stats_collect_].  What the remote store answers is not
    for the proxy to decide: [results n] is the result of the [n]-th call of
    [DBSave]. *)
Inductive SCResult : Type :=
| SC_SUCCESS
| SC_CONNECT_ERROR
| SC_SESSION_ERROR
| SC_COLLECT_TYPE_ERROR
| SC_OTHER_ERROR.

Inductive StatCollectCall : Type :=
| DBSave
| DBConnect
| SetStatsConfig.

Definition is_success (res : SCResult) : bool :=
  match res with SC_SUCCESS => true | _ => false end.

(** The repairs attempted after a failed [DBSave]. *)
Definition repair_calls (res : SCResult) : list StatCollectCall :=
  (match res with SC_CONNECT_ERROR => [DBConnect] | _ => [] end)
  ++ (match res with
      | SC_SESSION_ERROR | SC_COLLECT_TYPE_ERROR => [SetStatsConfig]
      | _ => []
      end).

(** The recursion of [SaveIntoRedis(retry_times)], bounded by [fuel] calls;
    [saves] counts the calls of [DBSave] made before.  [retry_times] is an
    [int]: decrementing the least one is undefined. *)
Fixpoint SaveIntoRedis_loop (fuel : nat) (results : nat -> SCResult)
  (saves : nat) (retry_times : Z) : outcome (list StatCollectCall) :=
  match fuel with
  | O => Err OutOfFuel
  | S fuel' =>
      let res := results saves in
      if is_success res then Ok [DBSave]
      else if retry_times =? - 2 ^ 31 then Err Undefined
      else
        let retry_times := retry_times - 1 in
        if retry_times <? 0 then Ok [DBSave]  (* Do not try to save any more *)
        else
          rest <- SaveIntoRedis_loop fuel' results (S saves) retry_times ;;
          Ok (DBSave :: repair_calls res ++ rest)
  end.

(** Every call of the recursion lowers [retry_times], which stops it below
    zero. *)
Definition SaveIntoRedis_calls (results : nat -> SCResult) (retry_times : Z)
  : outcome (list StatCollectCall) :=
  SaveIntoRedis_loop (S (Z.to_nat retry_times)) results 0 retry_times.

(** The calls made when the [DBSave] calls numbered [first] to
    [first + retries - 1] fail and are retried: each of them is followed by
    its repairs, and one more [DBSave] ends the run. *)
Definition calls_with_retries (results : nat -> SCResult)
  (first retries : nat) : list StatCollectCall :=
  flat_map (fun k => DBSave :: repair_calls (results k)) (seq first retries)
  ++ [DBSave].

(** *** The on-demand path without [RTC_DCHECK]

    [RTC_DCHECK] is compiled out of release builds.  [BuildFeedbackPacket]
    as it is then, without its first line, and [SendFeedbackOnRequest] on top
    of it. *)
Definition BuildFeedbackPacket_unchecked `{FeedbackCapacity}
  (feedback_packet_count media_ssrc base_sequence_number : Z)
  (begin_iterator end_iterator : iterator)
  (feedback_packet : TransportFeedback) : outcome (TransportFeedback * Z) :=
  match begin_iterator with
  | [] => Err Undefined
  | (_, begin_second) :: _ =>
      let feedback_packet := SetMediaSsrc feedback_packet media_ssrc in
      let feedback_packet :=
        SetBase feedback_packet (Z.land base_sequence_number 65535)
          (begin_second * 1000) in
      let feedback_packet :=
        SetFeedbackSequenceNumber feedback_packet feedback_packet_count in
      add_received_packets begin_iterator end_iterator begin_iterator
        feedback_packet base_sequence_number
  end.

Definition SendFeedbackOnRequest_unchecked `{SeqNumUnwrapper}
  `{FeedbackCapacity} (p : RemoteEstimatorProxy) (sequence_number : Z)
  (request : FeedbackRequest) : outcome RemoteEstimatorProxy :=
  if sequence_count request =? 0 then Ok p
  else
    let feedback_packet := TransportFeedback_new (include_timestamps request) in
    let first_sequence_number :=
      sequence_number - sequence_count request + 1 in
    let begin_iterator :=
      lower_bound first_sequence_number (packet_arrival_times_ p) in
    let end_iterator := upper_bound sequence_number (packet_arrival_times_ p) in
    let count := feedback_packet_count_ p in
    let p := set_feedback_packet_count_ (next_feedback_packet_count count) p in
    '(feedback_packet, _) <-
       BuildFeedbackPacket_unchecked count (media_ssrc_ p)
         first_sequence_number begin_iterator end_iterator feedback_packet ;;
    let p := set_packet_arrival_times_
               (erase_until begin_iterator (packet_arrival_times_ p)) p in
    Ok (set_feedback_sender_
          (feedback_sender_ p ++ [SendTransportFeedback feedback_packet]) p).

(** After arrivals 60000 and 30000, the packet of SSRC 42 with sequence
    number 0 arrives at 0 ms: the proxy within [OnPacketArrival] once the
    arrival is stored and pruned at once, where a feedback request is
    answered. *)
Definition before_request_for_one : ExampleProxy :=
  Eval vm_compute in
    @stored_and_pruned closest_distance_unwrapper
      (@on_arrival closest_distance_unwrapper
         (set_media_ssrc_ 42 after_two_distant_arrivals) 0 (Some 0) 0)
      0 0.

(** The answer to the request of that packet for itself, in a build without
    [RTC_DCHECK]. *)
Definition after_unchecked_request : ExampleProxy :=
  Eval vm_compute in
    proxy_of (@SendFeedbackOnRequest_unchecked closest_distance_unwrapper
                two_records before_request_for_one 0 request_for_one).

(** *** The bookkeeping of [IncomingPacket]

    The record of one packet, as [IncomingPacket] hands it to the estimator
    and to the statistics collector. *)
Definition received_packet (header : RTPHeader)
  (arrival_time_ms payload_size send_time_ms : Z) (pacing padding : Q)
  : PacketInfo :=
  {| pi_pacing_rate := pacing; pi_padding_rate := padding;
     pi_payload_type := payloadType header;
     pi_sequence_number := sequenceNumber header;
     pi_send_time_ms := send_time_ms; pi_ssrc := ssrc header;
     pi_padding_length := paddingLength header;
     pi_header_length := headerLength header;
     pi_arrival_time_ms := arrival_time_ms;
     pi_payload_size := payload_size |}.

(** The message that carries one estimate back to the sender. *)
Definition bwe_message (estimation : Q) (timestamp : Z) : BweMessage :=
  {| pacing_rate := estimation; padding_rate := estimation;
     target_rate := estimation; timestamp_ms := timestamp |}.

(** The distance from [b] forward to [a] on the circle of 24-bit send
    times. *)
Definition forward_distance (a b : Z) : Z := (a - b) mod 2 ^ 24.

(** A store that cannot be reached. *)
Definition unreachable_store : nat -> SCResult := fun _ => SC_CONNECT_ERROR.

(** The members that the arrival window and the feedback paths have no
    business with are the same in [p] and [q]. *)
Definition other_members_kept `{SeqNumUnwrapper} (p q : RemoteEstimatorProxy)
  : Prop :=
  send_config_ p = send_config_ q /\
  last_process_time_ms_ p = last_process_time_ms_ q /\
  media_ssrc_ p = media_ssrc_ q /\
  send_interval_ms_ p = send_interval_ms_ q /\
  send_periodic_feedback_ p = send_periodic_feedback_ q /\
  bwe_sendback_interval_ms_ p = bwe_sendback_interval_ms_ q /\
  last_bwe_sendback_ms_ p = last_bwe_sendback_ms_ q /\
  stats_collect_ p = stats_collect_ q /\
  redis_save_interval_ms_ p = redis_save_interval_ms_ q /\
  last_redis_save_ms_ p = last_redis_save_ms_ q /\
  onnx_infer_ p = onnx_infer_ q /\
  cycles_ p = cycles_ q /\
  max_abs_send_time_ p = max_abs_send_time_ q.

(** The members that the feedback protocol rests on are the same in [p] and
    [q], and the same transport feedback was sent. *)
Definition feedback_members_kept `{SeqNumUnwrapper}
  (p q : RemoteEstimatorProxy) : Prop :=
  packet_arrival_times_ p = packet_arrival_times_ q /\
  periodic_window_start_seq_ p = periodic_window_start_seq_ q /\
  feedback_packet_count_ p = feedback_packet_count_ q /\
  unwrapper_ p = unwrapper_ q /\
  transport_feedbacks (feedback_sender_ p)
  = transport_feedbacks (feedback_sender_ q).

(** ** Tactics *)

(** Reading a member of an updated proxy. *)
Ltac read_members :=
  cbn [feedback_sender_ send_config_ last_process_time_ms_ unwrapper_
       periodic_window_start_seq_ packet_arrival_times_ media_ssrc_
       feedback_packet_count_ send_interval_ms_ send_periodic_feedback_
       bwe_sendback_interval_ms_ last_bwe_sendback_ms_ stats_collect_
       redis_save_interval_ms_ last_redis_save_ms_ onnx_infer_ cycles_
       max_abs_send_time_
       set_feedback_sender_ set_last_process_time_ms_ set_unwrapper_
       set_periodic_window_start_seq_ set_packet_arrival_times_
       set_media_ssrc_ set_feedback_packet_count_ set_send_interval_ms_
       set_send_periodic_feedback_ set_last_bwe_sendback_ms_
       set_stats_collect_ set_last_redis_save_ms_ set_onnx_infer_
       set_send_time_state] in *.

(** Closing a goal on concrete data by evaluation. *)
Ltac by_computation := vm_compute; try discriminate; try reflexivity.

(** * Properties *)

(** ** The ordered map *)

Module StdMapFacts.

Lemma sortedb_sorted m : sortedb m = true <-> sorted m.
Proof.
  induction m as [|[k v] m IH]; simpl.
  - split; [constructor | reflexivity].
  - rewrite andb_true_iff, forallb_forall, IH. split.
    + intros [Hall Hs]. constructor; [|assumption].
      apply Forall_forall. intros e He. apply Z.ltb_lt. now apply Hall.
    + intros Hs. inversion Hs; subst. split; [|assumption].
      intros e He. apply Z.ltb_lt.
      now apply (proj1 (Forall_forall _ _) H1).
Qed.

Lemma sorted_tail e m : sorted (e :: m) -> sorted m.
Proof. now inversion 1. Qed.

Lemma sorted_app a b :
  sorted (a ++ b) <->
  sorted a /\ sorted b /\ (forall x y, In x a -> In y b -> fst x < fst y).
Proof.
  induction a as [|[k v] a IH]; simpl.
  - split.
    + intros H. repeat split; [constructor | assumption | contradiction].
    + now intros (_ & H & _).
  - split.
    + intros H. inversion H as [|? ? ? Hall Hs]; subst.
      apply IH in Hs. destruct Hs as (Ha & Hb & Hab).
      apply Forall_app in Hall. destruct Hall as [Hka Hkb].
      repeat split.
      * now constructor.
      * assumption.
      * intros x y [<-|Hx] Hy.
        -- now apply (proj1 (Forall_forall _ _) Hkb).
        -- now apply Hab.
    + intros (Ha & Hb & Hab). inversion Ha as [|? ? ? Hall Hs]; subst.
      constructor.
      * apply Forall_app. split; [assumption|].
        apply Forall_forall. intros y Hy. apply (Hab (k, v) y); auto.
      * apply IH. repeat split; auto.
Qed.

(** [lower_bound] cuts the map in two: smaller keys before, the iterator
    after. *)
Lemma lower_bound_split k m :
  exists pre, m = pre ++ lower_bound k m /\ Forall (fun e => fst e < k) pre.
Proof.
  induction m as [|[k' v'] m (pre & Hm & Hpre)]; simpl.
  - now exists [].
  - destruct (Z.ltb_spec k' k).
    + exists ((k', v') :: pre). split; [simpl; congruence|].
      now constructor.
    + now exists [].
Qed.

Lemma upper_bound_split k m :
  exists pre, m = pre ++ upper_bound k m /\ Forall (fun e => fst e <= k) pre.
Proof.
  induction m as [|[k' v'] m (pre & Hm & Hpre)]; simpl.
  - now exists [].
  - destruct (Z.leb_spec k' k).
    + exists ((k', v') :: pre). split; [simpl; congruence|].
      now constructor.
    + now exists [].
Qed.

Lemma lower_bound_In k m e : In e (lower_bound k m) -> In e m.
Proof.
  destruct (lower_bound_split k m) as (pre & Hm & _).
  intros H. rewrite Hm. apply in_or_app. now right.
Qed.

Lemma lower_bound_length k m : (length (lower_bound k m) <= length m)%nat.
Proof.
  destruct (lower_bound_split k m) as (pre & Hm & _).
  rewrite Hm at 2. rewrite length_app. lia.
Qed.

Lemma lower_bound_sorted k m : sorted m -> sorted (lower_bound k m).
Proof.
  destruct (lower_bound_split k m) as (pre & Hm & _).
  intros H. rewrite Hm in H. now apply sorted_app in H.
Qed.

(** In a sorted map every key from the iterator on is at least [k]. *)
Lemma lower_bound_ge k m :
  sorted m -> Forall (fun e => k <= fst e) (lower_bound k m).
Proof.
  induction m as [|[k' v'] m IH]; simpl; intros Hs.
  - constructor.
  - destruct (Z.ltb_spec k' k).
    + apply IH. now apply sorted_tail in Hs.
    + inversion Hs; subst. constructor; [assumption|].
      eapply Forall_impl; [|eassumption]. simpl. intros. lia.
Qed.

Lemma upper_bound_gt k m :
  sorted m -> Forall (fun e => k < fst e) (upper_bound k m).
Proof.
  induction m as [|[k' v'] m IH]; simpl; intros Hs.
  - constructor.
  - destruct (Z.leb_spec k' k).
    + apply IH. now apply sorted_tail in Hs.
    + inversion Hs; subst. constructor; [assumption|].
      eapply Forall_impl; [|eassumption]. simpl. intros. lia.
Qed.

(** The iterator found past a prefix of smaller keys. *)
Lemma lower_bound_app k a b :
  Forall (fun e => fst e < k) a ->
  lower_bound k (a ++ b) = lower_bound k b.
Proof.
  induction 1 as [|[k' v'] a Hk _ IH]; simpl; [reflexivity|].
  simpl in Hk. destruct (Z.ltb_spec k' k); [assumption | lia].
Qed.

Lemma lower_bound_id k m :
  Forall (fun e => k <= fst e) m -> lower_bound k m = m.
Proof.
  destruct 1 as [|[k' v'] m Hk _]; simpl; [reflexivity|].
  simpl in Hk. destruct (Z.ltb_spec k' k); [lia | reflexivity].
Qed.

Lemma lower_bound_nonempty k m e :
  In e m -> k <= fst e -> lower_bound k m <> [].
Proof.
  induction m as [|[k' v'] m IH]; simpl; [contradiction|].
  intros [<-|He] Hk.
  - simpl in Hk. destruct (Z.ltb_spec k' k); [lia | discriminate].
  - destruct (Z.ltb_spec k' k); [now apply IH | discriminate].
Qed.

Lemma iter_eqb_nil it : iter_eqb it [] = true <-> it = [].
Proof.
  unfold iter_eqb. rewrite Nat.eqb_eq. simpl. apply length_zero_iff_nil.
Qed.

Lemma iter_eqb_nil_false it : it <> [] -> iter_eqb it [] = false.
Proof.
  intros H. destruct (iter_eqb it []) eqn:E; [|reflexivity].
  now apply iter_eqb_nil in E.
Qed.

Lemma find_In k v m : find k m = Some v -> In (k, v) m.
Proof.
  induction m as [|[k' v'] m IH]; simpl; [discriminate|].
  destruct (Z.eqb_spec k' k).
  - intros [= <-]. left. congruence.
  - intros H. right. now apply IH.
Qed.

Lemma find_None k m : find k m = None <-> ~ In k (keys m).
Proof.
  induction m as [|[k' v'] m IH]; simpl.
  - tauto.
  - destruct (Z.eqb_spec k' k).
    + split; [discriminate | intros H; exfalso; apply H; now left].
    + rewrite IH. tauto.
Qed.

Lemma last_key_app_cons a k v : last_key (a ++ [(k, v)]) = Some k.
Proof. unfold last_key. now rewrite rev_app_distr. Qed.

Lemma last_key_cons e e' m : last_key (e :: e' :: m) = last_key (e' :: m).
Proof.
  unfold last_key. simpl.
  destruct (rev m ++ [e']) as [|[k v] l] eqn:E.
  - now apply app_eq_nil in E.
  - reflexivity.
Qed.

Lemma last_key_In m k : last_key m = Some k -> In k (keys m).
Proof.
  unfold last_key, keys. destruct (rev m) as [|[k' v'] l] eqn:E; [discriminate|].
  intros [= <-]. apply in_map_iff. exists (k', v'). split; [reflexivity|].
  apply (proj2 (in_rev m (k', v'))). rewrite E. now left.
Qed.

Lemma last_key_app a b : b <> [] -> last_key (a ++ b) = last_key b.
Proof.
  intros Hb. unfold last_key. rewrite rev_app_distr.
  destruct (rev b) as [|e l] eqn:E; [|reflexivity].
  apply (f_equal (@rev _)) in E. rewrite rev_involutive in E. now subst.
Qed.

Lemma last_key_nonempty m : m <> [] -> exists k, last_key m = Some k.
Proof.
  intros H. unfold last_key. destruct (rev m) as [|[k v] l] eqn:E.
  - apply (f_equal (@rev _)) in E. rewrite rev_involutive in E. now subst.
  - now exists k.
Qed.

(** In a sorted map the last key is the largest. *)
Lemma last_key_max m hi :
  sorted m -> last_key m = Some hi -> Forall (fun e => fst e <= hi) m.
Proof.
  induction m as [|[k v] m IH]; intros Hs Hl; [constructor|].
  destruct m as [|e m'].
  - unfold last_key in Hl. simpl in Hl. injection Hl as <-.
    constructor; [simpl; lia | constructor].
  - rewrite last_key_cons in Hl.
    inversion Hs as [|? ? ? Hall Hs']; subst.
    specialize (IH Hs' Hl). constructor; [|assumption].
    apply Forall_inv in Hall. apply Forall_inv in IH. simpl in *. lia.
Qed.

(** A map whose keys all lie in [[lo, hi]] spans at most [hi - lo]. *)
Lemma span_bounded m lo hi :
  lo <= hi -> Forall (fun e => lo <= fst e <= hi) m -> span m <= hi - lo.
Proof.
  intros Hle Hall. unfold span.
  destruct (first_key m) as [a|] eqn:Ea; [|lia].
  destruct (last_key m) as [b|] eqn:Eb; [|lia].
  assert (Ha : lo <= a <= hi).
  { destruct m as [|[k v] m]; [discriminate|]. injection Ea as <-.
    inversion Hall; subst. assumption. }
  assert (Hb : lo <= b <= hi).
  { apply last_key_In in Eb. apply in_map_iff in Eb.
    destruct Eb as (e & <- & He).
    now apply (proj1 (Forall_forall _ _) Hall). }
  lia.
Qed.

Lemma assign_In k v m e :
  In e (assign k v m) -> e = (k, v) \/ In e m.
Proof.
  induction m as [|[k' v'] m IH]; simpl.
  - intros [<-|[]]. now left.
  - destruct (Z.ltb_spec k k').
    + intros [<-|H']; [now left | now right].
    + destruct (Z.eqb_spec k k').
      * intros [<-|H']; [now left | right; now right].
      * intros [<-|H']; [right; now left|].
        destruct (IH H') as [->|]; [now left | right; now right].
Qed.

Lemma assign_sorted k v m : sorted m -> sorted (assign k v m).
Proof.
  induction m as [|[k' v'] m IH]; simpl; intros Hs.
  - constructor; constructor.
  - inversion Hs as [|? ? ? Hall Hs']; subst.
    destruct (Z.ltb_spec k k').
    + constructor; [|assumption]. constructor; [simpl; lia|].
      eapply Forall_impl; [|eassumption]. simpl. intros. lia.
    + destruct (Z.eqb_spec k k').
      * subst. now constructor.
      * constructor; [|now apply IH].
        apply Forall_forall. intros e He.
        apply assign_In in He. destruct He as [->|He]; [simpl; lia|].
        now apply (proj1 (Forall_forall _ _) Hall).
Qed.

Lemma assign_nonempty k v m : assign k v m <> [].
Proof.
  destruct m as [|[k' v'] m]; simpl; [discriminate|].
  destruct (k <? k'); [discriminate|]. destruct (k =? k'); discriminate.
Qed.

End StdMapFacts.

Import StdMapFacts.

(** ** Building one feedback message *)

Section Builder.

Context {unwrapper_impl : SeqNumUnwrapper} {capacity : FeedbackCapacity}.

Lemma next_after_cons base k v chunk :
  next_after base ((k, v) :: chunk) = next_after (k + 1) chunk.
Proof.
  unfold next_after. destruct chunk as [|e chunk].
  - reflexivity.
  - rewrite last_key_cons.
    destruct (last_key_nonempty (e :: chunk)) as [k' Hk']; [discriminate|].
    now rewrite Hk'.
Qed.

Lemma next_after_app base a b :
  b <> [] -> next_after base (a ++ b) = next_after (next_after base a) b.
Proof.
  intros Hb. unfold next_after. rewrite last_key_app by assumption.
  destruct (last_key_nonempty b Hb) as [k ->]. reflexivity.
Qed.

Lemma with_records_nil m : with_records m [] = m.
Proof. destruct m. unfold with_records. simpl. now rewrite app_nil_r. Qed.

Lemma with_records_cons m k v chunk x :
  AddReceivedPacket m (Z.land k 65535) (v * 1000) = Some x ->
  with_records x chunk = with_records m ((k, v) :: chunk).
Proof.
  unfold AddReceivedPacket.
  destruct (has_room m (Z.land k 65535) (v * 1000)); [|discriminate].
  intros [= <-]. unfold with_records. simpl. now rewrite <- app_assoc.
Qed.

Lemma iter_eqb_false (a b : iterator) :
  length a <> length b -> iter_eqb a b = false.
Proof. intros H. unfold iter_eqb. now apply Nat.eqb_neq. Qed.

Lemma iter_eqb_refl (a : iterator) : iter_eqb a a = true.
Proof. unfold iter_eqb. apply Nat.eqb_refl. Qed.

(** One iteration of the loop in front of an element that is not the end. *)
Lemma add_received_packets_step k v it e begin_iterator m next :
  add_received_packets (((k, v) :: it) ++ e) e begin_iterator m next =
  match AddReceivedPacket m (Z.land k 65535) (v * 1000) with
  | None =>
      if iter_eqb begin_iterator (((k, v) :: it) ++ e) then Err CheckFailed
      else Ok (m, next)
  | Some m' => add_received_packets (it ++ e) e begin_iterator m' (k + 1)
  end.
Proof.
  cbn [add_received_packets app].
  rewrite (iter_eqb_false ((k, v) :: it ++ e) e); [reflexivity|].
  cbn [length]. rewrite length_app. lia.
Qed.

Lemma add_received_packets_end e begin_iterator m next :
  add_received_packets e e begin_iterator m next = Ok (m, next).
Proof. destruct e as [|[k v] e]; cbn [add_received_packets]; now rewrite iter_eqb_refl. Qed.

(** Past its first iteration the loop appends a prefix of the range and
    returns one past the last sequence number it appended. *)
Lemma add_received_packets_prefix r e begin_iterator m next :
  (length (r ++ e) < length begin_iterator)%nat ->
  exists chunk rest,
    r = chunk ++ rest /\
    add_received_packets (r ++ e) e begin_iterator m next
    = Ok (with_records m chunk, next_after next chunk).
Proof.
  revert m next. induction r as [|[k v] r IH]; intros m next Hlen.
  - exists [], []. split; [reflexivity|]. rewrite with_records_nil.
    apply add_received_packets_end.
  - rewrite add_received_packets_step.
    destruct (AddReceivedPacket m (Z.land k 65535) (v * 1000)) as [x|] eqn:Ex.
    + destruct (IH x (k + 1)) as (chunk & rest & -> & Hrun).
      { simpl in Hlen. lia. }
      exists ((k, v) :: chunk), rest. split; [reflexivity|].
      rewrite Hrun, next_after_cons.
      now rewrite (with_records_cons m k v chunk x).
    + rewrite iter_eqb_false by (cbn [app length] in *; lia).
      exists [], ((k, v) :: r). split; [reflexivity|].
      now rewrite with_records_nil.
Qed.

(** [BuildFeedbackPacket] in front of a non-empty range. *)
Lemma BuildFeedbackPacket_unfold count media_ssrc base k v r e m :
  BuildFeedbackPacket count media_ssrc base (((k, v) :: r) ++ e) e m =
  add_received_packets (((k, v) :: r) ++ e) e (((k, v) :: r) ++ e)
    (SetFeedbackSequenceNumber
       (SetBase (SetMediaSsrc m media_ssrc) (Z.land base 65535) (v * 1000))
       count)
    base.
Proof.
  unfold BuildFeedbackPacket.
  rewrite (iter_eqb_false (((k, v) :: r) ++ e) e); [reflexivity|].
  cbn [length app]. rewrite length_app. lia.
Qed.

(** What [BuildFeedbackPacket] returns on a non-empty range [r] that ends at
    the iterator [e]: it aborts when the first record does not fit, and
    otherwise covers a non-empty prefix of the range. *)
Lemma BuildFeedbackPacket_range count media_ssrc base r e m :
  r <> [] -> tf_packets m = [] ->
  BuildFeedbackPacket count media_ssrc base (r ++ e) e m = Err CheckFailed
  \/ exists chunk rest,
       r = chunk ++ rest /\ chunk <> [] /\
       BuildFeedbackPacket count media_ssrc base (r ++ e) e m
       = Ok (feedback_message (include_timestamps_ m) count media_ssrc base chunk,
             next_after base chunk).
Proof.
  intros Hr Hm. destruct r as [|[k v] r]; [contradiction|].
  rewrite BuildFeedbackPacket_unfold, add_received_packets_step.
  match goal with
  | |- context [AddReceivedPacket ?m0 _ _] => set (m1 := m0)
  end.
  destruct (AddReceivedPacket m1 (Z.land k 65535) (v * 1000)) as [x|] eqn:Ex.
  - right.
    destruct (add_received_packets_prefix r e (((k, v) :: r) ++ e) x (k + 1))
      as (chunk & rest & -> & Hrun); [simpl; lia|].
    exists ((k, v) :: chunk), rest.
    split; [reflexivity|]. split; [discriminate|].
    rewrite Hrun, next_after_cons.
    rewrite (with_records_cons m1 k v chunk x Ex).
    unfold with_records, feedback_message, m1. simpl. now rewrite Hm.
  - left. now rewrite iter_eqb_refl.
Qed.

Lemma BuildFeedbackPacket_fits count media_ssrc base r e m :
  first_record_fits ->
  r <> [] -> tf_packets m = [] ->
  exists chunk rest,
    r = chunk ++ rest /\ chunk <> [] /\
    BuildFeedbackPacket count media_ssrc base (r ++ e) e m
    = Ok (feedback_message (include_timestamps_ m) count media_ssrc base chunk,
          next_after base chunk).
Proof.
  intros Hfits Hr Hm.
  destruct (BuildFeedbackPacket_range count media_ssrc base r e m Hr Hm)
    as [Habort|Hok]; [|assumption].
  exfalso. destruct r as [|[k v] r]; [contradiction|].
  rewrite BuildFeedbackPacket_unfold, add_received_packets_step in Habort.
  unfold AddReceivedPacket in Habort. rewrite Hfits in Habort by exact Hm.
  match type of Habort with
  | add_received_packets _ _ ?c ?d ?n = _ =>
      destruct (add_received_packets_prefix r e c d n)
        as (chunk & rest & _ & Hrun); [simpl; lia|]
  end.
  rewrite Hrun in Habort. discriminate.
Qed.

(** An empty range violates the precondition of the builder. *)
Lemma BuildFeedbackPacket_empty count media_ssrc base e m :
  BuildFeedbackPacket count media_ssrc base e e m = Err DcheckFailed.
Proof. unfold BuildFeedbackPacket. now rewrite iter_eqb_refl. Qed.

End Builder.

(** ** The periodic drain *)

Section Periodic.

Context {unwrapper_impl : SeqNumUnwrapper} {capacity : FeedbackCapacity}.

(** Where the next message starts: right behind the chunk just sent. *)
Lemma lower_bound_after_chunk m start chunk rest :
  sorted m -> lower_bound start m = chunk ++ rest -> chunk <> [] ->
  lower_bound (next_after start chunk) m = rest.
Proof.
  intros Hs Hrun Hne.
  destruct (lower_bound_split start m) as (pre & Hm & Hpre).
  pose proof (lower_bound_ge start m Hs) as Hge.
  rewrite Hrun in Hm, Hge. rewrite Hm in Hs.
  apply sorted_app in Hs. destruct Hs as (_ & Hcr & Hcross).
  apply sorted_app in Hcr. destruct Hcr as (Hc & Hr & Hlt).
  destruct (last_key_nonempty chunk Hne) as [hi Hhi].
  unfold next_after. rewrite Hhi.
  pose proof (last_key_max chunk hi Hc Hhi) as Hmax.
  rewrite Hm, app_assoc, lower_bound_app.
  - apply lower_bound_id. apply Forall_forall. intros y Hy.
    apply last_key_In in Hhi. apply in_map_iff in Hhi.
    destruct Hhi as (x & Hx & Hin). specialize (Hlt x y Hin Hy). lia.
  - apply Forall_app. split.
    + apply Forall_forall. intros x Hx.
      apply (proj1 (Forall_forall _ _) Hpre) in Hx.
      destruct chunk as [|c chunk]; [contradiction|].
      apply Forall_inv in Hge. apply Forall_inv in Hmax. lia.
    + eapply Forall_impl; [|exact Hmax]. simpl. intros. lia.
Qed.

Lemma after_drain_nil p start :
  periodic_window_start_seq_ p = Some start -> after_drain p [] start = p.
Proof.
  intros H. destruct p. simpl in H. subst.
  unfold after_drain, set_feedback_sender_, set_periodic_window_start_seq_,
    set_feedback_packet_count_, advance_count. simpl. now rewrite app_nil_r.
Qed.

(** A drain that goes on after a first message. *)
Lemma after_drain_step p message messages next1 next2 :
  after_drain
    (set_feedback_sender_ (feedback_sender_ p ++ [message])
       (set_periodic_window_start_seq_ (Some next1)
          (set_feedback_packet_count_
             (next_feedback_packet_count (feedback_packet_count_ p)) p)))
    messages next2
  = after_drain p (message :: messages) next2.
Proof.
  destruct p as [fs sc lp u cur m ss cnt si sp bi lb st ri lr ox cy ma].
  change (Build_RemoteEstimatorProxy ((fs ++ [message]) ++ messages) sc lp u
            (Some next2) m ss
            (advance_count (length messages) (next_feedback_packet_count cnt))
            si sp bi lb st ri lr ox cy ma
          = Build_RemoteEstimatorProxy (fs ++ message :: messages) sc lp u
              (Some next2) m ss (advance_count (S (length messages)) cnt)
              si sp bi lb st ri lr ox cy ma).
  rewrite <- app_assoc. unfold advance_count. rewrite Nat.iter_succ_r.
  reflexivity.
Qed.

Lemma advance_count_S n count :
  advance_count n (next_feedback_packet_count count)
  = advance_count (S n) count.
Proof. unfold advance_count. now rewrite Nat.iter_succ_r. Qed.

Lemma periodic_messages_length count media_ssrc base chunks :
  length (periodic_messages count media_ssrc base chunks) = length chunks.
Proof.
  revert count base. induction chunks as [|c cs IH]; intros; simpl;
    [reflexivity | now rewrite IH].
Qed.

(** The loop, once the cursor is set: it cuts the run that starts at the
    cursor into non-empty chunks, sends one message per chunk, and leaves the
    cursor one past the run. *)
Lemma SendPeriodicFeedbacks_loop_spec fuel :
  first_record_fits ->
  forall p start,
    sorted (packet_arrival_times_ p) ->
    periodic_window_start_seq_ p = Some start ->
    (length (lower_bound start (packet_arrival_times_ p)) <= fuel)%nat ->
    exists chunks,
      concat chunks = lower_bound start (packet_arrival_times_ p) /\
      Forall (fun chunk => chunk <> []) chunks /\
      SendPeriodicFeedbacks_loop fuel p
      = Ok (after_drain p
              (periodic_messages (feedback_packet_count_ p) (media_ssrc_ p)
                 start chunks)
              (next_after start (lower_bound start (packet_arrival_times_ p)))).
Proof.
  intros Hfits. induction fuel as [|fuel IH]; intros p start Hs Hc Hlen.
  - exists []. split; [|split; [constructor|]].
    + simpl. symmetry. apply length_zero_iff_nil. lia.
    + assert (Hrun : lower_bound start (packet_arrival_times_ p) = [])
        by (apply length_zero_iff_nil; lia).
      simpl. rewrite Hc, Hrun. simpl. unfold next_after. simpl.
      now rewrite after_drain_nil.
  - destruct (lower_bound start (packet_arrival_times_ p)) as [|e run] eqn:Hrun.
    + exists []. split; [reflexivity|]. split; [constructor|].
      simpl. rewrite Hc, Hrun. simpl. unfold next_after. simpl.
      now rewrite after_drain_nil.
    + destruct (BuildFeedbackPacket_fits (feedback_packet_count_ p)
                  (media_ssrc_ p) start (e :: run) [] (TransportFeedback_new true)
                  Hfits) as (chunk & rest & Hsplit & Hne & Hbuild);
        [discriminate | reflexivity |].
      rewrite app_nil_r in Hbuild.
      set (p1 := set_feedback_sender_
                   (feedback_sender_ p ++
                      [SendTransportFeedback
                         (feedback_message true (feedback_packet_count_ p)
                            (media_ssrc_ p) start chunk)])
                   (set_periodic_window_start_seq_
                      (Some (next_after start chunk))
                      (set_feedback_packet_count_
                         (next_feedback_packet_count (feedback_packet_count_ p))
                         p))).
      assert (Hnext : lower_bound (next_after start chunk)
                        (packet_arrival_times_ p) = rest).
      { apply lower_bound_after_chunk; [assumption | congruence | assumption]. }
      destruct (IH p1 (next_after start chunk)) as (chunks & Hcat & Hall & Hloop).
      { exact Hs. }
      { reflexivity. }
      { change (packet_arrival_times_ p1) with (packet_arrival_times_ p).
        rewrite Hnext. rewrite Hsplit in Hlen. simpl in Hlen.
        rewrite length_app in Hlen.
        destruct chunk; [contradiction | simpl in Hlen; lia]. }
      exists (chunk :: chunks). split; [|split].
      * simpl. change (packet_arrival_times_ p1) with (packet_arrival_times_ p) in Hcat.
        rewrite Hcat, Hnext. now symmetry.
      * now constructor.
      * cbn [SendPeriodicFeedbacks_loop]. rewrite Hc, Hrun.
        rewrite iter_eqb_false by (simpl; lia).
        change (media_ssrc_ (set_feedback_packet_count_
                               (next_feedback_packet_count (feedback_packet_count_ p)) p))
          with (media_ssrc_ p).
        rewrite Hbuild.
        transitivity (SendPeriodicFeedbacks_loop fuel p1); [reflexivity|].
        rewrite Hloop.
        f_equal.
        change (packet_arrival_times_ p1) with (packet_arrival_times_ p).
        rewrite Hnext.
        assert (Hlast : next_after (next_after start chunk) rest
                        = next_after start (e :: run)).
        { rewrite Hsplit. destruct rest as [|r rest].
          - now rewrite app_nil_r.
          - rewrite next_after_app by discriminate. reflexivity. }
        rewrite Hlast.
        cbn [periodic_messages]. unfold p1. apply after_drain_step.
Qed.

(** The chunks of a sorted run tile the sequence numbers from the cursor on:
    the ranges follow one another, and every chunk lies in its own range. *)
Lemma chunks_tile_run chunks :
  forall start,
    sorted (concat chunks) ->
    Forall (fun e => start <= fst e) (concat chunks) ->
    Forall (fun chunk => chunk <> []) chunks ->
    contiguous_from start (covered_ranges start chunks) /\
    within_ranges chunks (covered_ranges start chunks).
Proof.
  induction chunks as [|chunk chunks IH]; intros start Hs Hge Hne.
  - split; [exact I | constructor].
  - simpl in Hs, Hge. apply sorted_app in Hs. destruct Hs as (Hc & Hcs & Hlt).
    apply Forall_app in Hge. destruct Hge as [Hgec Hgecs].
    inversion Hne as [|? ? Hchunk Hrest]; subst.
    destruct (last_key_nonempty chunk Hchunk) as [hi Hhi].
    pose proof (last_key_max chunk hi Hc Hhi) as Hmax.
    assert (Hnext : next_after start chunk = hi + 1)
      by (unfold next_after; now rewrite Hhi).
    destruct (IH (hi + 1)) as [Hcont Hwithin]; [assumption | | assumption |].
    { apply Forall_forall. intros y Hy.
      apply last_key_In in Hhi. apply in_map_iff in Hhi.
      destruct Hhi as (x & Hx & Hin). specialize (Hlt x y Hin Hy). lia. }
    cbn [covered_ranges contiguous_from]. rewrite Hnext.
    split; [split; [reflexivity|split; [|assumption]] |].
    + destruct chunk as [|c chunk]; [contradiction|].
      apply Forall_inv in Hgec. apply Forall_inv in Hmax. lia.
    + constructor; [|assumption]. simpl.
      apply Forall_forall. intros x Hx.
      apply (proj1 (Forall_forall _ _) Hgec) in Hx as H1.
      apply (proj1 (Forall_forall _ _) Hmax) in Hx as H2. lia.
Qed.

(** Whatever the loop sends, it returns with the arrivals it started with. *)
Lemma SendPeriodicFeedbacks_loop_keeps fuel :
  forall p p',
    SendPeriodicFeedbacks_loop fuel p = Ok p' ->
    packet_arrival_times_ p' = packet_arrival_times_ p.
Proof.
  induction fuel as [|fuel IH]; intros p p'; cbn [SendPeriodicFeedbacks_loop];
    destruct (periodic_window_start_seq_ p) as [start|]; try discriminate;
    destruct (iter_eqb (lower_bound start (packet_arrival_times_ p)) []);
    try discriminate; try (now intros [= <-]).
  destruct (BuildFeedbackPacket _ _ _ _ _ _) as [[m next]|f];
    cbn [bind]; [|discriminate].
  intros H. apply IH in H. exact H.
Qed.

(** [Process] returns when the cursor is set. *)
Lemma Process_returns now p start :
  first_record_fits ->
  sorted (packet_arrival_times_ p) ->
  send_periodic_feedback_ p = true ->
  periodic_window_start_seq_ p = Some start ->
  exists p', Process now p = Ok p'.
Proof.
  intros Hfits Hs Hon Hc.
  destruct (SendPeriodicFeedbacks_loop_spec
              (length (packet_arrival_times_ p)) Hfits
              (set_last_process_time_ms_ now p) start Hs Hc)
    as (chunks & _ & _ & Hloop).
  { apply lower_bound_length. }
  eexists. unfold Process, SendPeriodicFeedbacks. rewrite Hon. cbn [negb].
  change (periodic_window_start_seq_ (set_last_process_time_ms_ now p))
    with (periodic_window_start_seq_ p).
  rewrite Hc. exact Hloop.
Qed.

(** C3: one periodic drain cuts the run of arrivals stored from the cursor on
    into consecutive non-empty chunks and sends one message per chunk.  The
    ranges of the messages follow one another without gap or overlap from the
    cursor on, every chunk lies in the range of its message, the chunks put
    together are exactly the run, each message starts one past the last
    record appended to the previous one, and the cursor ends one past the
    last sequence number of the run.  The wire format is assumed to accept
    the first record of a fresh message, as the builder demands. *)
Theorem periodic_drain_covers_run now p start :
  first_record_fits ->
  sorted (packet_arrival_times_ p) ->
  send_periodic_feedback_ p = true ->
  periodic_window_start_seq_ p = Some start ->
  exists chunks,
    Process now p
    = Ok (after_drain (set_last_process_time_ms_ now p)
            (periodic_messages (feedback_packet_count_ p) (media_ssrc_ p)
               start chunks)
            (next_after start
               (lower_bound start (packet_arrival_times_ p)))) /\
    concat chunks = lower_bound start (packet_arrival_times_ p) /\
    Forall (fun chunk => chunk <> []) chunks /\
    contiguous_from start (covered_ranges start chunks) /\
    within_ranges chunks (covered_ranges start chunks).
Proof.
  intros Hfits Hs Hon Hc.
  destruct (SendPeriodicFeedbacks_loop_spec
              (length (packet_arrival_times_ p)) Hfits
              (set_last_process_time_ms_ now p) start Hs Hc)
    as (chunks & Hcat & Hne & Hloop).
  { apply lower_bound_length. }
  exists chunks. split; [|split; [exact Hcat | split; [exact Hne|]]].
  - unfold Process, SendPeriodicFeedbacks. rewrite Hon. cbn [negb].
    change (periodic_window_start_seq_ (set_last_process_time_ms_ now p))
      with (periodic_window_start_seq_ p).
    rewrite Hc. exact Hloop.
  - apply chunks_tile_run; [| |exact Hne].
    + change (packet_arrival_times_ (set_last_process_time_ms_ now p))
        with (packet_arrival_times_ p) in Hcat.
      rewrite Hcat. now apply lower_bound_sorted.
    + change (packet_arrival_times_ (set_last_process_time_ms_ now p))
        with (packet_arrival_times_ p) in Hcat.
      rewrite Hcat. now apply lower_bound_ge.
Qed.

(** C9: a periodic drain removes nothing from the arrival window.  Whenever
    [Process] returns, [packet_arrival_times_] is what it was before the call,
    however many messages were sent; and it does return on every sorted window
    when a fresh message accepts its first record. *)
Theorem periodic_drain_keeps_arrivals now p :
  (forall p', Process now p = Ok p' ->
              packet_arrival_times_ p' = packet_arrival_times_ p) /\
  (first_record_fits -> sorted (packet_arrival_times_ p) ->
   exists p', Process now p = Ok p').
Proof.
  split.
  - intros p'. unfold Process, SendPeriodicFeedbacks.
    destruct (send_periodic_feedback_ p); cbn [negb]; [|now intros [= <-]].
    change (periodic_window_start_seq_ (set_last_process_time_ms_ now p))
      with (periodic_window_start_seq_ p).
    destruct (periodic_window_start_seq_ p); [|now intros [= <-]].
    intros H. apply SendPeriodicFeedbacks_loop_keeps in H. exact H.
  - intros Hfits Hs.
    destruct (send_periodic_feedback_ p) eqn:Hon.
    + destruct (periodic_window_start_seq_ p) as [start|] eqn:Hc.
      * destruct (Process_returns now p start Hfits Hs Hon Hc)
          as (p' & H). now exists p'.
      * exists (set_last_process_time_ms_ now p).
        unfold Process, SendPeriodicFeedbacks. rewrite Hon. cbn [negb].
        change (periodic_window_start_seq_ (set_last_process_time_ms_ now p))
          with (periodic_window_start_seq_ p).
        now rewrite Hc.
    + exists p. unfold Process. now rewrite Hon.
Qed.

End Periodic.

(** ** Feedback on request *)

Section OnDemand.

Context {unwrapper_impl : SeqNumUnwrapper} {capacity : FeedbackCapacity}.

Lemma entries_between_In lo hi m e :
  In e (entries_between lo hi m) <-> In e m /\ lo <= fst e <= hi.
Proof.
  unfold entries_between. rewrite filter_In, andb_true_iff, !Z.leb_le. tauto.
Qed.

Lemma entries_between_nonempty lo hi m :
  entries_between lo hi m <> [] <-> exists e, In e m /\ lo <= fst e <= hi.
Proof.
  split.
  - destruct (entries_between lo hi m) as [|e l] eqn:E; [contradiction|].
    intros _. exists e. apply entries_between_In. rewrite E. now left.
  - intros (e & He) Hnil. apply entries_between_In in He.
    rewrite Hnil in He. contradiction.
Qed.

Lemma entries_between_none lo hi m :
  Forall (fun e => fst e < lo) m -> entries_between lo hi m = [].
Proof.
  induction 1 as [|[k v] m Hk _ IH]; [reflexivity|].
  unfold entries_between in *. simpl in *.
  destruct (Z.leb_spec lo k); [lia|]. exact IH.
Qed.

Lemma entries_between_app lo hi a b :
  entries_between lo hi (a ++ b)
  = entries_between lo hi a ++ entries_between lo hi b.
Proof. apply filter_app. Qed.

Lemma upper_bound_app k a b :
  Forall (fun e => fst e <= k) a ->
  upper_bound k (a ++ b) = upper_bound k b.
Proof.
  induction 1 as [|[k' v'] a Hk _ IH]; simpl; [reflexivity|].
  simpl in Hk. destruct (Z.leb_spec k' k); [assumption | lia].
Qed.

(** From the first requested sequence number on, the map is the requested
    range followed by what lies behind the last requested number. *)
Lemma range_then_rest lo hi m :
  sorted m -> Forall (fun e => lo <= fst e) m ->
  m = entries_between lo hi m ++ upper_bound hi m.
Proof.
  induction m as [|[k v] m IH]; intros Hs Hge; [reflexivity|].
  inversion Hs as [|? ? ? Hall Hs']; subst.
  inversion Hge as [|? ? Hk Hge']; subst. cbn [fst] in Hk.
  unfold entries_between. cbn [filter upper_bound fst].
  destruct (Z.leb_spec lo k); [|lia].
  destruct (Z.leb_spec k hi); cbn [andb app].
  - f_equal. now apply IH.
  - fold (entries_between lo hi m).
    assert (Hnone : entries_between lo hi m = []).
    { destruct (entries_between lo hi m) as [|e l] eqn:E; [reflexivity|].
      assert (He : In e (entries_between lo hi m)) by (rewrite E; now left).
      apply entries_between_In in He. destruct He as [He Hr].
      apply (proj1 (Forall_forall _ _) Hall) in He. lia. }
    now rewrite Hnone.
Qed.

(** The two iterators of [SendFeedbackOnRequest]: the requested range lies
    between them. *)
Lemma requested_range lo hi m :
  sorted m -> lo <= hi + 1 ->
  lower_bound lo m = entries_between lo hi m ++ upper_bound hi m.
Proof.
  intros Hs Hle.
  destruct (lower_bound_split lo m) as (pre & Hm & Hpre).
  pose proof (lower_bound_sorted lo m Hs) as Hsb.
  pose proof (lower_bound_ge lo m Hs) as Hge.
  rewrite (range_then_rest lo hi (lower_bound lo m) Hsb Hge) at 1.
  f_equal.
  - rewrite Hm at 2. rewrite entries_between_app.
    now rewrite (entries_between_none lo hi pre Hpre).
  - rewrite Hm at 2. rewrite upper_bound_app; [reflexivity|].
    eapply Forall_impl; [|exact Hpre]. cbn beta. intros. lia.
Qed.

Lemma sorted_filter f m : sorted m -> sorted (filter f m).
Proof.
  induction 1 as [|k v m Hall Hs IH]; cbn [filter]; [constructor|].
  destruct (f (k, v)); [|assumption].
  constructor; [|assumption].
  apply Forall_forall. intros e He. apply filter_In in He.
  now apply (proj1 (Forall_forall _ _) Hall).
Qed.

(** A sorted map with keys in [[lo, hi]] has at most [hi - lo + 1] entries. *)
Lemma sorted_length_bound m :
  forall lo hi,
    sorted m -> Forall (fun e => lo <= fst e <= hi) m -> m <> [] ->
    Z.of_nat (length m) <= hi - lo + 1.
Proof.
  induction m as [|[k v] m IH]; intros lo hi Hs Hin Hne; [contradiction|].
  inversion Hs as [|? ? ? Hall Hs']; subst.
  inversion Hin as [|? ? Hk Hin']; subst. cbn [fst] in Hk.
  destruct m as [|e m].
  - cbn. lia.
  - assert (H : Z.of_nat (length (e :: m)) <= hi - (k + 1) + 1).
    { apply IH; [assumption | | discriminate].
      apply Forall_forall. intros x Hx.
      apply (proj1 (Forall_forall _ _) Hall) in Hx as H1.
      apply (proj1 (Forall_forall _ _) Hin') in Hx as H2. lia. }
    change (length ((k, v) :: e :: m)) with (S (length (e :: m))). lia.
Qed.

(** The proxy after an on-demand message covering [chunk] was sent for the
    request that starts at [first]. *)
Lemma SendFeedbackOnRequest_nonzero p seq request :
  sequence_count request <> 0 ->
  SendFeedbackOnRequest p seq request =
  '(feedback_packet, _) <-
     BuildFeedbackPacket (feedback_packet_count_ p) (media_ssrc_ p)
       (seq - sequence_count request + 1)
       (lower_bound (seq - sequence_count request + 1)
          (packet_arrival_times_ p))
       (upper_bound seq (packet_arrival_times_ p))
       (TransportFeedback_new (include_timestamps request)) ;;
  Ok (after_request p feedback_packet (seq - sequence_count request + 1)).
Proof.
  intros Hk. unfold SendFeedbackOnRequest.
  destruct (Z.eqb_spec (sequence_count request) 0); [contradiction|].
  reflexivity.
Qed.

(** The on-demand path meets the builder's precondition exactly when one of
    the requested sequence numbers is stored. *)
Lemma SendFeedbackOnRequest_precondition p seq request :
  sorted (packet_arrival_times_ p) ->
  0 < sequence_count request ->
  SendFeedbackOnRequest p seq request = Err DcheckFailed <->
  entries_between (seq - sequence_count request + 1) seq
    (packet_arrival_times_ p) = [].
Proof.
  intros Hs HK.
  rewrite SendFeedbackOnRequest_nonzero by lia.
  rewrite (requested_range (seq - sequence_count request + 1) seq
             (packet_arrival_times_ p) Hs) by lia.
  destruct (entries_between (seq - sequence_count request + 1) seq
              (packet_arrival_times_ p)) as [|e r] eqn:Hr.
  - cbn [app]. rewrite BuildFeedbackPacket_empty. cbn [bind]. tauto.
  - split; [|discriminate].
    destruct (BuildFeedbackPacket_range (feedback_packet_count_ p)
                (media_ssrc_ p) (seq - sequence_count request + 1) (e :: r)
                (upper_bound seq (packet_arrival_times_ p))
                (TransportFeedback_new (include_timestamps request)))
      as [Habort|(chunk & rest & _ & _ & Hok)];
      [discriminate | reflexivity | rewrite Habort | rewrite Hok];
      cbn [bind]; discriminate.
Qed.

(** X20: a request with count 0 sends nothing and changes nothing.
    A request with count K > 0 for which at least one sequence number of
    [[seq-K+1, seq]] is stored sends exactly one message: its base is
    seq-K+1, its records are a non-empty prefix, of at most K entries, of the
    stored arrivals with a sequence number in [[seq-K+1, seq]], nothing is sent
    besides it, and afterwards the window holds no key below seq-K+1.  The
    wire format is assumed to accept the first record of a fresh message. *)
Theorem on_demand_feedback p seq request :
  first_record_fits ->
  sorted (packet_arrival_times_ p) ->
  (sequence_count request = 0 ->
   SendFeedbackOnRequest p seq request = Ok p) /\
  (0 < sequence_count request ->
   (exists e, In e (packet_arrival_times_ p) /\
              seq - sequence_count request + 1 <= fst e <= seq) ->
   exists chunk rest p',
     entries_between (seq - sequence_count request + 1) seq
       (packet_arrival_times_ p) = chunk ++ rest /\
     chunk <> [] /\
     Z.of_nat (length chunk) <= sequence_count request /\
     SendFeedbackOnRequest p seq request = Ok p' /\
     p' = after_request p
            (feedback_message (include_timestamps request)
               (feedback_packet_count_ p) (media_ssrc_ p)
               (seq - sequence_count request + 1) chunk)
            (seq - sequence_count request + 1) /\
     feedback_sender_ p'
     = feedback_sender_ p ++
       [SendTransportFeedback
          (feedback_message (include_timestamps request)
             (feedback_packet_count_ p) (media_ssrc_ p)
             (seq - sequence_count request + 1) chunk)] /\
     Forall (fun e => seq - sequence_count request + 1 <= fst e)
       (packet_arrival_times_ p')).
Proof.
  intros Hfits Hs. split.
  - intros HK. unfold SendFeedbackOnRequest. now rewrite HK.
  - intros HK Hpresent.
    set (first := seq - sequence_count request + 1) in *.
    apply entries_between_nonempty in Hpresent.
    destruct (BuildFeedbackPacket_fits (feedback_packet_count_ p)
                (media_ssrc_ p) first
                (entries_between first seq (packet_arrival_times_ p))
                (upper_bound seq (packet_arrival_times_ p))
                (TransportFeedback_new (include_timestamps request))
                Hfits Hpresent eq_refl)
      as (chunk & rest & Hsplit & Hne & Hbuild).
    exists chunk, rest. eexists.
    split; [exact Hsplit|]. split; [exact Hne|]. split; [|split; [|split; [reflexivity|split]]].
    + assert (Hsorted : sorted (entries_between first seq (packet_arrival_times_ p)))
        by (now apply sorted_filter).
      rewrite Hsplit in Hsorted. apply sorted_app in Hsorted.
      destruct Hsorted as (Hc & _ & _).
      assert (Hin : Forall (fun e => first <= fst e <= seq) chunk).
      { apply Forall_forall. intros e He.
        assert (He' : In e (entries_between first seq (packet_arrival_times_ p)))
          by (rewrite Hsplit; apply in_or_app; now left).
        now apply entries_between_In in He'. }
      pose proof (sorted_length_bound chunk first seq Hc Hin Hne). lia.
    + rewrite SendFeedbackOnRequest_nonzero by lia. fold first.
      rewrite (requested_range first seq (packet_arrival_times_ p) Hs)
        by (unfold first; lia).
      rewrite Hbuild. reflexivity.
    + reflexivity.
    + change (Forall (fun e => first <= fst e)
                (lower_bound first (packet_arrival_times_ p))).
      now apply lower_bound_ge.
Qed.

End OnDemand.


(** ** Packet arrival *)

Section Arrival.

Context {unwrapper_impl : SeqNumUnwrapper} {capacity : FeedbackCapacity}.

Lemma arrival_time_in_bounds t :
  0 <= t <= kMaxTimeMs -> (t <? 0) || (kMaxTimeMs <? t) = false.
Proof.
  intros [H0 H1]. apply orb_false_iff. split; apply Z.ltb_ge; assumption.
Qed.

Lemma arrival_time_out_of_bounds t :
  t < 0 \/ kMaxTimeMs < t -> (t <? 0) || (kMaxTimeMs <? t) = true.
Proof.
  intros [H|H]; apply orb_true_iff; [left | right]; now apply Z.ltb_lt.
Qed.

(** Culling keeps a suffix of the map. *)
Lemma cull_old_packets_suffix seq t w m :
  exists pre, m = pre ++ cull_old_packets seq t w m /\
              Forall (fun e => fst e < seq) pre.
Proof.
  induction m as [|[k v] m (pre & Hm & Hpre)]; cbn [cull_old_packets].
  - now exists [].
  - destruct ((k <? seq) && (w <=? t - v)) eqn:E.
    + exists ((k, v) :: pre). split; [cbn [app]; congruence|].
      constructor; [|assumption]. apply andb_true_iff in E.
      cbn [fst]. now apply Z.ltb_lt.
    + now exists [].
Qed.

Lemma cull_old_packets_In seq t w m e :
  In e (cull_old_packets seq t w m) -> In e m.
Proof.
  destruct (cull_old_packets_suffix seq t w m) as (pre & Hm & _).
  intros H. rewrite Hm. apply in_or_app. now right.
Qed.

Lemma cull_old_packets_sorted seq t w m :
  sorted m -> sorted (cull_old_packets seq t w m).
Proof.
  destruct (cull_old_packets_suffix seq t w m) as (pre & Hm & _).
  intros H. rewrite Hm in H. now apply sorted_app in H.
Qed.

Lemma find_app_skip k a b :
  Forall (fun e => fst e < k) a -> find k (a ++ b) = find k b.
Proof.
  induction 1 as [|[k' v'] a Hk _ IH]; cbn [app find]; [reflexivity|].
  cbn [fst] in Hk. destruct (Z.eqb_spec k' k); [lia | exact IH].
Qed.

(** Culling never touches the arriving sequence number. *)
Lemma cull_old_packets_find seq t w m :
  find seq (cull_old_packets seq t w m) = find seq m.
Proof.
  destruct (cull_old_packets_suffix seq t w m) as (pre & Hm & Hpre).
  rewrite Hm at 2. now rewrite find_app_skip.
Qed.

(** [OnPacketArrival] by phases, for an arrival time within bounds. *)
Lemma OnPacketArrival_phases p sequence_number arrival_time request :
  0 <= arrival_time <= kMaxTimeMs ->
  OnPacketArrival p sequence_number arrival_time request =
  let seq := fst (Unwrap (unwrapper_ p) sequence_number) in
  let p1 := on_arrival p seq (snd (Unwrap (unwrapper_ p) sequence_number))
              arrival_time in
  match find seq (packet_arrival_times_ p1) with
  | Some _ => Ok p1
  | None =>
      match request with
      | Some r => SendFeedbackOnRequest (stored_and_pruned p1 seq arrival_time) seq r
      | None => Ok (stored_and_pruned p1 seq arrival_time)
      end
  end.
Proof.
  intros Ht. unfold OnPacketArrival.
  rewrite (arrival_time_in_bounds _ Ht).
  destruct (Unwrap (unwrapper_ p) sequence_number) as [seq u].
  cbn [fst snd]. cbv zeta.
  unfold on_arrival, stored_and_pruned, window_on_arrival, cursor_on_arrival,
    window_after_insert, cursor_after_insert, newest_key.
  destruct p as [fs sc lp uw cur m ss cnt si sp bi lb st ri lr ox cy ma].
  read_members.
  destruct sp; [destruct cur as [start|]|]; read_members;
    try (destruct (iter_eqb (lower_bound start m) []); read_members;
         destruct (seq <? start); read_members);
    match goal with
    | |- context [find seq ?w] => destruct (find seq w); [reflexivity|]
    end;
    match goal with
    | |- context [last_key (assign seq arrival_time ?w)] =>
        destruct (last_key_nonempty (assign seq arrival_time w)
                    (assign_nonempty seq arrival_time w)) as [newest Hn];
        rewrite Hn;
        destruct (iter_eqb
                    (lower_bound (newest - kMaxNumberOfPackets)
                       (assign seq arrival_time w))
                    (begin_ (assign seq arrival_time w)))
    end;
    destruct request; reflexivity.
Qed.

Lemma window_on_arrival_find p seq t :
  find seq (window_on_arrival p seq t) = find seq (packet_arrival_times_ p).
Proof.
  unfold window_on_arrival.
  destruct (send_periodic_feedback_ p); [|reflexivity].
  destruct (periodic_window_start_seq_ p) as [start|]; [|reflexivity].
  destruct (iter_eqb _ _); [|reflexivity].
  apply cull_old_packets_find.
Qed.

Lemma window_on_arrival_In p seq t e :
  In e (window_on_arrival p seq t) -> In e (packet_arrival_times_ p).
Proof.
  unfold window_on_arrival.
  destruct (send_periodic_feedback_ p); [|tauto].
  destruct (periodic_window_start_seq_ p) as [start|]; [|tauto].
  destruct (iter_eqb _ _); [|tauto].
  apply cull_old_packets_In.
Qed.

Lemma window_on_arrival_sorted p seq t :
  sorted (packet_arrival_times_ p) -> sorted (window_on_arrival p seq t).
Proof.
  unfold window_on_arrival.
  destruct (send_periodic_feedback_ p); [|tauto].
  destruct (periodic_window_start_seq_ p) as [start|]; [|tauto].
  destruct (iter_eqb _ _); [|tauto].
  apply cull_old_packets_sorted.
Qed.

(** C1, as amended: delivering a packet whose unwrapped sequence number is
    already stored adds no entry, keeps the arrival time stored for that
    sequence number, and sends nothing.  When periodic feedback is disabled,
    or when the cursor is set and not above that sequence number, the map and
    the cursor are left exactly as they were. *)
Theorem duplicate_arrival_keeps_first p sequence_number arrival_time request v :
  0 <= arrival_time <= kMaxTimeMs ->
  find (fst (Unwrap (unwrapper_ p) sequence_number))
    (packet_arrival_times_ p) = Some v ->
  exists p',
    OnPacketArrival p sequence_number arrival_time request = Ok p' /\
    find (fst (Unwrap (unwrapper_ p) sequence_number))
      (packet_arrival_times_ p') = Some v /\
    (forall e, In e (packet_arrival_times_ p') ->
               In e (packet_arrival_times_ p)) /\
    feedback_sender_ p' = feedback_sender_ p /\
    feedback_packet_count_ p' = feedback_packet_count_ p /\
    (send_periodic_feedback_ p = false \/
     (exists start, periodic_window_start_seq_ p = Some start /\
                    start <= fst (Unwrap (unwrapper_ p) sequence_number)) ->
     same_window p' p).
Proof.
  intros Ht Hfind. rewrite (OnPacketArrival_phases _ _ _ _ Ht). cbv zeta.
  set (seq := fst (Unwrap (unwrapper_ p) sequence_number)) in *.
  set (u := snd (Unwrap (unwrapper_ p) sequence_number)).
  change (packet_arrival_times_ (on_arrival p seq u arrival_time))
    with (window_on_arrival p seq arrival_time).
  rewrite window_on_arrival_find, Hfind.
  eexists. split; [reflexivity|].
  change (packet_arrival_times_ (on_arrival p seq u arrival_time))
    with (window_on_arrival p seq arrival_time).
  split; [now rewrite window_on_arrival_find|].
  split; [intros e; apply window_on_arrival_In|].
  split; [reflexivity|]. split; [reflexivity|].
  intros Hcase. unfold same_window.
  change (packet_arrival_times_ (on_arrival p seq u arrival_time))
    with (window_on_arrival p seq arrival_time).
  change (periodic_window_start_seq_ (on_arrival p seq u arrival_time))
    with (cursor_on_arrival p seq).
  unfold window_on_arrival, cursor_on_arrival.
  destruct Hcase as [Hoff|(start & Hc & Hle)].
  - now rewrite Hoff.
  - rewrite Hc. destruct (send_periodic_feedback_ p); [|split; reflexivity].
    rewrite iter_eqb_nil_false.
    + destruct (Z.ltb_spec seq start); [lia | split; reflexivity].
    + apply find_In in Hfind.
      now apply (lower_bound_nonempty start _ _ Hfind).
Qed.

Lemma window_after_insert_eq seq t m :
  window_after_insert seq t m
  = lower_bound (newest_key seq t m - kMaxNumberOfPackets) (assign seq t m).
Proof.
  unfold window_after_insert, begin_, erase_until. cbv zeta.
  destruct (iter_eqb _ _) eqn:E; [|reflexivity].
  destruct (lower_bound_split (newest_key seq t m - kMaxNumberOfPackets)
              (assign seq t m)) as (pre & Hm & _).
  unfold iter_eqb in E. apply Nat.eqb_eq in E.
  rewrite Hm in E at 2. rewrite length_app in E.
  assert (pre = []) by (apply length_zero_iff_nil; lia). subst pre.
  exact Hm.
Qed.

(** After the pruning every key lies within [kMaxNumberOfPackets] of the
    largest one. *)
Lemma window_after_insert_keys seq t m :
  sorted m ->
  Forall (fun e => newest_key seq t m - kMaxNumberOfPackets <= fst e
                   <= newest_key seq t m)
    (window_after_insert seq t m).
Proof.
  intros Hs. rewrite window_after_insert_eq.
  pose proof (assign_sorted seq t m Hs) as Hs'.
  pose proof (lower_bound_ge (newest_key seq t m - kMaxNumberOfPackets)
                (assign seq t m) Hs') as Hge.
  apply Forall_forall. intros e He. split.
  - now apply (proj1 (Forall_forall _ _) Hge).
  - apply lower_bound_In in He. unfold newest_key.
    destruct (last_key_nonempty (assign seq t m) (assign_nonempty seq t m))
      as [newest Hn].
    rewrite Hn.
    now apply (proj1 (Forall_forall _ _) (last_key_max _ _ Hs' Hn)).
Qed.

Lemma window_after_insert_sorted seq t m :
  sorted m -> sorted (window_after_insert seq t m).
Proof.
  intros Hs. rewrite window_after_insert_eq.
  apply lower_bound_sorted. now apply assign_sorted.
Qed.

(** Feedback on request leaves a suffix of the map. *)
Lemma SendFeedbackOnRequest_window p seq request p' :
  SendFeedbackOnRequest p seq request = Ok p' ->
  exists first,
    packet_arrival_times_ p' = lower_bound first (packet_arrival_times_ p)
    \/ packet_arrival_times_ p' = packet_arrival_times_ p.
Proof.
  destruct (Z.eq_dec (sequence_count request) 0) as [HK|HK].
  - unfold SendFeedbackOnRequest. rewrite HK. cbn. intros [= <-].
    exists 0. now right.
  - rewrite SendFeedbackOnRequest_nonzero by assumption.
    destruct (BuildFeedbackPacket _ _ _ _ _ _) as [[m next]|f]; cbn [bind];
      [|discriminate].
    intros [= <-]. exists (seq - sequence_count request + 1). now left.
Qed.

(** C2: after every successful insertion of an arrival the span of the window
    is at most 32768.  Whenever [OnPacketArrival] stores a sequence number that
    was not stored and returns, the largest and the smallest key of
    [packet_arrival_times_] differ by at most 32768; and without a feedback
    request it does return, with exactly the entries that lie at most 32768
    behind the largest key after the insertion. *)
Theorem window_span_bounded p sequence_number arrival_time request :
  sorted (packet_arrival_times_ p) ->
  0 <= arrival_time <= kMaxTimeMs ->
  find (fst (Unwrap (unwrapper_ p) sequence_number))
    (packet_arrival_times_ p) = None ->
  (forall p',
     OnPacketArrival p sequence_number arrival_time request = Ok p' ->
     span (packet_arrival_times_ p') <= 32768 /\
     sorted (packet_arrival_times_ p')) /\
  (exists p',
     OnPacketArrival p sequence_number arrival_time None = Ok p' /\
     let seq := fst (Unwrap (unwrapper_ p) sequence_number) in
     let stored :=
       assign seq arrival_time (window_on_arrival p seq arrival_time) in
     forall newest,
       last_key stored = Some newest ->
       packet_arrival_times_ p' = lower_bound (newest - 32768) stored /\
       Forall (fun e => newest - 32768 <= fst e <= newest)
         (packet_arrival_times_ p')).
Proof.
  intros Hs Ht Hfind.
  rewrite !(OnPacketArrival_phases _ _ _ _ Ht). cbv zeta.
  set (seq := fst (Unwrap (unwrapper_ p) sequence_number)) in *.
  set (u := snd (Unwrap (unwrapper_ p) sequence_number)).
  change (packet_arrival_times_ (on_arrival p seq u arrival_time))
    with (window_on_arrival p seq arrival_time).
  rewrite window_on_arrival_find, Hfind.
  set (w := window_on_arrival p seq arrival_time).
  assert (Hw : sorted w) by (now apply window_on_arrival_sorted).
  assert (Hmap : packet_arrival_times_
                   (stored_and_pruned (on_arrival p seq u arrival_time) seq
                      arrival_time)
                 = window_after_insert seq arrival_time w) by reflexivity.
  pose proof (window_after_insert_keys seq arrival_time w Hw) as Hkeys.
  pose proof (window_after_insert_sorted seq arrival_time w Hw) as Hsorted.
  change kMaxNumberOfPackets with 32768 in Hkeys.
  split.
  - intros p' Hp'.
    assert (Hsub : (forall e, In e (packet_arrival_times_ p') ->
                              In e (window_after_insert seq arrival_time w))
                   /\ sorted (packet_arrival_times_ p')).
    { destruct request as [r|].
      - apply SendFeedbackOnRequest_window in Hp'.
        destruct Hp' as (first & [Hlb|Hsame]).
        + rewrite Hlb, Hmap. split.
          * intros e. apply lower_bound_In.
          * now apply lower_bound_sorted.
        + rewrite Hsame, Hmap. split; [tauto | assumption].
      - injection Hp' as <-. rewrite Hmap. split; [tauto | assumption]. }
    destruct Hsub as [Hsub Hsorted']. split; [|assumption].
    replace 32768 with
      (newest_key seq arrival_time w
       - (newest_key seq arrival_time w - 32768)) by lia.
    apply span_bounded; [lia|].
    apply Forall_forall. intros e He.
    apply (proj1 (Forall_forall _ _) Hkeys). now apply Hsub.
  - eexists. split; [reflexivity|]. intros newest Hn.
    rewrite Hmap.
    assert (Hnewest : newest_key seq arrival_time w = newest)
      by (unfold newest_key; now rewrite Hn).
    rewrite Hnewest in Hkeys. split; [|exact Hkeys].
    rewrite window_after_insert_eq, Hnewest. reflexivity.
Qed.

End Arrival.

(** ** Packets with an arrival time out of bounds *)

Section Incoming.

Context {unwrapper_impl : SeqNumUnwrapper} {capacity : FeedbackCapacity}
        {binary64 : Binary64} {telemetry : Telemetry}.

Lemma OnPacketArrival_out_of_bounds p sequence_number arrival_time request :
  arrival_time < 0 \/ kMaxTimeMs < arrival_time ->
  OnPacketArrival p sequence_number arrival_time request = Ok p.
Proof.
  intros Ht. unfold OnPacketArrival.
  now rewrite (arrival_time_out_of_bounds _ Ht).
Qed.

(** C5, as amended: a packet whose arrival time is negative or above
    [kMaxTimeMs] is dropped by [OnPacketArrival], which changes no member at
    all.  [IncomingPacket] as a whole leaves the arrival window, the periodic
    cursor, the feedback counter, the sequence unwrapper and the scheduling
    members as they were and sends no transport feedback. *)
Theorem out_of_bounds_arrival_dropped now p arrival_time_ms payload_size header :
  arrival_time_ms < 0 \/ kMaxTimeMs < arrival_time_ms ->
  (forall sequence_number request,
     OnPacketArrival p sequence_number arrival_time_ms request = Ok p) /\
  exists p',
    IncomingPacket now p arrival_time_ms payload_size header = Ok p' /\
    packet_arrival_times_ p' = packet_arrival_times_ p /\
    periodic_window_start_seq_ p' = periodic_window_start_seq_ p /\
    feedback_packet_count_ p' = feedback_packet_count_ p /\
    unwrapper_ p' = unwrapper_ p /\
    last_process_time_ms_ p' = last_process_time_ms_ p /\
    send_interval_ms_ p' = send_interval_ms_ p /\
    send_periodic_feedback_ p' = send_periodic_feedback_ p /\
    send_config_ p' = send_config_ p /\
    exists sent,
      feedback_sender_ p' = feedback_sender_ p ++ sent /\
      Forall is_application_packet sent.
Proof.
  intros Ht. split.
  - intros sequence_number request. now apply OnPacketArrival_out_of_bounds.
  - unfold IncomingPacket.
    destruct (hasTransportSequenceNumber header); cbn [negb].
    + rewrite (OnPacketArrival_out_of_bounds _ _ _ _ Ht). cbn [bind].
      unfold GetTtimeFromAbsSendtime.
      destruct (abs_send_time_step _ _ _) as [cycles max_abs_send_time].
      unfold TimeToSendBweMessage. read_members.
      destruct (last_bwe_sendback_ms_ p
                <? bwe_time_now now - bwe_sendback_interval_ms_ p);
        unfold TimeToSaveIntoRedis, SendbackBweEstimation, SaveIntoRedis;
        read_members;
        destruct (last_redis_save_ms_ p
                  <? redis_time_now now - redis_save_interval_ms_ p);
        (eexists; split; [reflexivity|]); read_members;
        repeat (split; [reflexivity|]).
      * eexists. split; [reflexivity|]. repeat constructor.
      * eexists. split; [reflexivity|]. repeat constructor.
      * exists []. split; [now rewrite app_nil_r | constructor].
      * exists []. split; [now rewrite app_nil_r | constructor].
    + exists p. repeat (split; [reflexivity|]).
      exists []. split; [now rewrite app_nil_r | constructor].
Qed.

End Incoming.

(** ** Scheduling *)

Section Scheduling.

Context {unwrapper_impl : SeqNumUnwrapper}.

(** C8: [TimeUntilNextProcess] returns one day in milliseconds whenever
    periodic feedback is disabled; with periodic feedback enabled it returns 0
    if no tick has occurred yet or the time elapsed since the last tick is at
    least the send interval, and otherwise the positive remainder
    [last_process_time_ms_ + send_interval_ms_ - now]. *)
Theorem TimeUntilNextProcess_cases now p :
  (send_periodic_feedback_ p = false ->
   TimeUntilNextProcess now p = 86400000) /\
  (send_periodic_feedback_ p = true ->
   last_process_time_ms_ p = -1 \/
   send_interval_ms_ p <= now - last_process_time_ms_ p ->
   TimeUntilNextProcess now p = 0) /\
  (send_periodic_feedback_ p = true ->
   last_process_time_ms_ p <> -1 ->
   now - last_process_time_ms_ p < send_interval_ms_ p ->
   TimeUntilNextProcess now p
   = last_process_time_ms_ p + send_interval_ms_ p - now /\
   0 < TimeUntilNextProcess now p).
Proof.
  unfold TimeUntilNextProcess. split; [|split].
  - intros ->. reflexivity.
  - intros -> [Hnone|Hdue]; cbn [negb].
    + rewrite Hnone. reflexivity.
    + destruct (Z.eqb_spec (last_process_time_ms_ p) (-1)); cbn [negb andb];
        [reflexivity|].
      destruct (Z.ltb_spec (now - last_process_time_ms_ p) (send_interval_ms_ p));
        [lia | reflexivity].
  - intros -> Hticked Hearly. cbn [negb].
    destruct (Z.eqb_spec (last_process_time_ms_ p) (-1)); [contradiction|].
    destruct (Z.ltb_spec (now - last_process_time_ms_ p) (send_interval_ms_ p));
      cbn [negb andb]; lia.
Qed.

End Scheduling.

(** ** The send interval *)

Section Interval.

Context {unwrapper_impl : SeqNumUnwrapper} {binary64 : Binary64}.

Local Open Scope Q_scope.

Lemma SafeClamp_bounds x lo hi :
  lo <= hi -> lo <= SafeClamp x lo hi /\ SafeClamp x lo hi <= hi.
Proof.
  intros Hle. unfold SafeClamp.
  destruct (Qlt_le_dec x lo); [split; [apply Qle_refl | assumption]|].
  destruct (Qlt_le_dec hi x); [split; [assumption | apply Qle_refl]|].
  split; assumption.
Qed.

Lemma SafeClamp_monotone x y lo hi :
  lo <= hi -> x <= y -> SafeClamp x lo hi <= SafeClamp y lo hi.
Proof.
  intros Hle Hxy. unfold SafeClamp.
  destruct (Qlt_le_dec x lo), (Qlt_le_dec y lo); try lra;
    destruct (Qlt_le_dec hi x), (Qlt_le_dec hi y); lra.
Qed.

Lemma trunc_monotone x y : x <= y -> (trunc x <= trunc y)%Z.
Proof.
  intros Hxy. unfold trunc.
  destruct (Qlt_le_dec x 0), (Qlt_le_dec y 0).
  - now apply Qceiling_resp_le.
  - transitivity 0%Z.
    + change 0%Z with (Qceiling 0). apply Qceiling_resp_le. lra.
    + change 0%Z with (Qfloor 0). now apply Qfloor_resp_le.
  - lra.
  - now apply Qfloor_resp_le.
Qed.

Lemma Qmult_le_l_nonneg x y z : 0 <= z -> x <= y -> z * x <= z * y.
Proof.
  intros Hz Hxy. rewrite !(Qmult_comm z). now apply Qmult_le_compat_r.
Qed.

(** Dividing by more gives less. *)
Lemma Qdiv_antitone r a b : 0 <= r -> 0 < a -> a <= b -> r / b <= r / a.
Proof.
  intros Hr Ha Hab.
  apply Qle_shift_div_r; [lra|].
  setoid_replace (r / a * b) with (r * b / a) by (field; lra).
  apply Qle_shift_div_l; [assumption|].
  rewrite !(Qmult_comm r). now apply Qmult_le_compat_r.
Qed.

(** The rate that corresponds to an admissible interval is rounded with a
    small relative error. *)
Lemma twcc_rate_error interval :
  binary64_error -> (0 < interval <= 2 ^ 31 - 1)%Z ->
  twcc_report_bits / inject_Z interval * (1 - (1 # 9007199254740992))
  <= fl (twcc_report_bits / inject_Z interval) /\
  fl (twcc_report_bits / inject_Z interval)
  <= twcc_report_bits / inject_Z interval * (1 + (1 # 9007199254740992)).
Proof.
  intros Herr Hi. change (1 # 9007199254740992) with (1 # 2 ^ 53). apply Herr.
  - apply Qle_shift_div_l.
    + change 0 with (inject_Z 0). rewrite <- Zlt_Qlt. lia.
    + assert (H : inject_Z interval <= inject_Z (2 ^ 31 - 1))
        by (rewrite <- Zle_Qle; lia).
      unfold twcc_report_bits. change (inject_Z (kTwccReportSize * 8 * 1000)) with (544000 # 1).
      change (inject_Z (2 ^ 31 - 1)) with (2147483647 # 1) in H.
      change (1 # 2 ^ 20) with (1 # 1048576). lra.
  - apply Qle_shift_div_r.
    + change 0 with (inject_Z 0). rewrite <- Zlt_Qlt. lia.
    + assert (H : inject_Z 1 <= inject_Z interval)
        by (rewrite <- Zle_Qle; lia).
      unfold twcc_report_bits. change (inject_Z (kTwccReportSize * 8 * 1000)) with (544000 # 1).
      change (inject_Z (2 ^ 20)) with (1048576 # 1).
      change (inject_Z 1) with 1 in H. lra.
Qed.

Lemma fl_proper x y : binary64_monotone -> x == y -> fl x == fl y.
Proof.
  intros Hmono Hxy. apply Qle_antisym; apply Hmono; rewrite Hxy; apply Qle_refl.
Qed.

(** Quarters of moderate integers are doubles. *)
Lemma fl_quarters n :
  binary64_monotone -> binary64_exact -> (Z.abs n <= 2 ^ 53)%Z ->
  fl (inject_Z n / 4) == inject_Z n / 4.
Proof.
  intros Hmono Hexact Hn. apply (Hexact n 2%Z); [assumption | lia].
Qed.

Lemma trunc_le_upper s n :
  (0 <= n)%Z -> s <= inject_Z n + (3 # 4) -> (trunc s <= n)%Z.
Proof.
  intros Hn Hs. unfold trunc. destruct (Qlt_le_dec s 0).
  - transitivity 0%Z; [|assumption].
    change 0%Z with (Qceiling 0). apply Qceiling_resp_le. lra.
  - pose proof (Qfloor_le s) as Hfloor.
    assert (H : inject_Z (Qfloor s) < inject_Z (n + 1)).
    { rewrite inject_Z_plus. change (inject_Z 1) with 1. lra. }
    rewrite <- Zlt_Qlt in H. lia.
Qed.

Lemma trunc_ge_lower s n :
  (0 <= n)%Z -> inject_Z n + (1 # 4) <= s -> (n <= trunc s)%Z.
Proof.
  intros Hn Hs. unfold trunc.
  assert (H0 : 0 <= inject_Z n)
    by (change 0 with (inject_Z 0); rewrite <- Zle_Qle; assumption).
  destruct (Qlt_le_dec s 0); [lra|].
  rewrite <- (Qfloor_Z n). apply Qfloor_resp_le. lra.
Qed.

Section Rates.

Variable config : TransportWideFeedbackConfig.
Hypothesis monotone : binary64_monotone.
Hypothesis exact : binary64_exact.
Hypothesis error : binary64_error.
Hypothesis intervals :
  (0 < min_interval config <= max_interval config
   /\ max_interval config <= 2 ^ 31 - 1)%Z.

Lemma interval_as_Q interval :
  (0 < interval <= 2 ^ 31 - 1)%Z ->
  1 <= inject_Z interval /\ inject_Z interval <= 2147483647.
Proof.
  intros H. split.
  - change 1 with (inject_Z 1). rewrite <- Zle_Qle. lia.
  - change 2147483647 with (inject_Z (2 ^ 31 - 1)). rewrite <- Zle_Qle. lia.
Qed.

Lemma twcc_rate_of_interval interval :
  (0 < interval <= 2 ^ 31 - 1)%Z ->
  twcc_report_bits / inject_Z interval * inject_Z interval == 544000 /\
  (544000 # 2147483647) <= twcc_report_bits / inject_Z interval.
Proof.
  intros H. destruct (interval_as_Q interval H) as [H1 H2].
  unfold twcc_report_bits.
  change (inject_Z (kTwccReportSize * 8 * 1000)) with 544000. split.
  - field. lra.
  - setoid_replace (544000 # 2147483647) with (544000 / 2147483647)
      by reflexivity.
    apply Qdiv_antitone; lra.
Qed.

Lemma kMinTwccRate_pos :
  0 < fl (twcc_report_bits / inject_Z (max_interval config)).
Proof.
  destruct (twcc_rate_error (max_interval config) error) as [Hlo _]; [lia|].
  destruct (twcc_rate_of_interval (max_interval config)) as [_ Hx]; [lia|].
  lra.
Qed.

Lemma twcc_rates_ordered :
  fl (twcc_report_bits / inject_Z (max_interval config))
  <= fl (twcc_report_bits / inject_Z (min_interval config)).
Proof.
  apply monotone.
  destruct (interval_as_Q (min_interval config)) as [H1 _]; [lia|].
  apply Qdiv_antitone.
  - unfold twcc_report_bits. now change (0 <= 544000).
  - lra.
  - rewrite <- Zle_Qle. lia.
Qed.

(** A rate at or above the smallest rate gives an interval that does not
    exceed the largest interval by more than a quarter. *)
Lemma interval_upper c :
  fl (twcc_report_bits / inject_Z (max_interval config)) <= c ->
  fl (twcc_report_bits / c) <= inject_Z (max_interval config) + (1 # 4).
Proof.
  intros Hc. pose proof kMinTwccRate_pos as Hpos.
  destruct (twcc_rate_error (max_interval config) error) as [Hlo _]; [lia|].
  destruct (twcc_rate_of_interval (max_interval config)) as [Hprod Hx]; [lia|].
  destruct (interval_as_Q (max_interval config)) as [H1 H2]; [lia|].
  set (kMin := fl (twcc_report_bits / inject_Z (max_interval config))) in *.
  set (x := twcc_report_bits / inject_Z (max_interval config)) in *.
  set (M := inject_Z (max_interval config)) in *.
  assert (Hq : twcc_report_bits / c <= M + (1 # 4)).
  { apply Qle_trans with (y := twcc_report_bits / kMin).
    - apply Qdiv_antitone; [now change (0 <= 544000) | assumption | assumption].
    - apply Qle_shift_div_r; [assumption|].
      apply Qle_trans with (y := (M + (1 # 4)) * (x * (1 - (1 # 9007199254740992)))).
      + setoid_replace ((M + (1 # 4)) * (x * (1 - (1 # 9007199254740992))))
          with ((x * M + x * (1 # 4)) * (1 - (1 # 9007199254740992))) by ring.
        rewrite Hprod.
        unfold twcc_report_bits.
        change (inject_Z (kTwccReportSize * 8 * 1000)) with 544000.
        lra.
      + apply Qmult_le_l; [lra | assumption]. }
  apply monotone in Hq.
  apply Qle_trans with (y := fl (M + (1 # 4))); [exact Hq|].
  assert (Heq : M + (1 # 4) == inject_Z (4 * max_interval config + 1) / 4)
    by (rewrite inject_Z_plus, inject_Z_mult; unfold M; field).
  rewrite (fl_proper _ _ monotone Heq), (fl_quarters _ monotone exact), <- Heq;
    [apply Qle_refl | lia].
Qed.

(** A rate at or below the largest rate gives an interval that does not fall
    short of the smallest interval by more than a quarter. *)
Lemma interval_lower c :
  0 < c ->
  c <= fl (twcc_report_bits / inject_Z (min_interval config)) ->
  inject_Z (min_interval config) - (1 # 4) <= fl (twcc_report_bits / c).
Proof.
  intros Hpos Hc.
  destruct (twcc_rate_error (min_interval config) error) as [_ Hhi]; [lia|].
  destruct (twcc_rate_of_interval (min_interval config)) as [Hprod Hx]; [lia|].
  destruct (interval_as_Q (min_interval config)) as [H1 H2]; [lia|].
  set (kMax := fl (twcc_report_bits / inject_Z (min_interval config))) in *.
  set (y := twcc_report_bits / inject_Z (min_interval config)) in *.
  set (m := inject_Z (min_interval config)) in *.
  assert (HkMax : 0 < kMax) by lra.
  assert (Hq : m - (1 # 4) <= twcc_report_bits / c).
  { apply Qle_trans with (y := twcc_report_bits / kMax).
    - apply Qle_shift_div_l; [assumption|].
      apply Qle_trans with (y := (m - (1 # 4)) * (y * (1 + (1 # 9007199254740992)))).
      + apply Qmult_le_l; [lra | assumption].
      + setoid_replace ((m - (1 # 4)) * (y * (1 + (1 # 9007199254740992))))
          with ((y * m - y * (1 # 4)) * (1 + (1 # 9007199254740992))) by ring.
        rewrite Hprod.
        unfold twcc_report_bits.
        change (inject_Z (kTwccReportSize * 8 * 1000)) with 544000.
        lra.
    - apply Qdiv_antitone; [now change (0 <= 544000) | assumption | assumption]. }
  apply monotone in Hq.
  apply Qle_trans with (y := fl (m - (1 # 4))); [|exact Hq].
  assert (Heq : m - (1 # 4) == inject_Z (4 * min_interval config - 1) / 4)
    by (unfold Z.sub; rewrite inject_Z_plus, inject_Z_mult, inject_Z_opp;
        unfold m; change (inject_Z 1) with 1; change (inject_Z 4) with 4;
        field).
  rewrite (fl_proper _ _ monotone Heq), (fl_quarters _ monotone exact), <- Heq;
    [apply Qle_refl | lia].
Qed.

(** The interval computed from any rate between the two rates. *)
Lemma interval_of_clamped_rate c :
  fl (twcc_report_bits / inject_Z (max_interval config)) <= c ->
  c <= fl (twcc_report_bits / inject_Z (min_interval config)) ->
  (min_interval config <= trunc (fl ((1 # 2) + fl (twcc_report_bits / c)))
   <= max_interval config)%Z.
Proof.
  intros Hlo Hhi. pose proof kMinTwccRate_pos as Hpos.
  pose proof (interval_upper c Hlo) as Hup.
  assert (Hc : 0 < c) by lra.
  pose proof (interval_lower c Hc Hhi) as Hdown.
  set (q := fl (twcc_report_bits / c)) in *.
  split.
  - apply trunc_ge_lower; [lia|].
    assert (Heq : inject_Z (min_interval config) + (1 # 4)
                  == inject_Z (4 * min_interval config + 1) / 4)
      by (rewrite inject_Z_plus, inject_Z_mult; field).
    rewrite Heq, <- (fl_quarters _ monotone exact) by lia.
    apply monotone. rewrite <- Heq. lra.
  - apply trunc_le_upper; [lia|].
    assert (Heq : inject_Z (max_interval config) + (3 # 4)
                  == inject_Z (4 * max_interval config + 3) / 4)
      by (rewrite inject_Z_plus, inject_Z_mult; field).
    rewrite Heq, <- (fl_quarters _ monotone exact) by lia.
    apply monotone. rewrite <- Heq. lra.
Qed.

End Rates.

(** C7: for target bitrates b1 <= b2 the send interval recomputed for b2 is
    not greater than the one recomputed for b1, and for every bitrate the
    recomputed interval lies within [[min_interval, max_interval]].  The
    arithmetic on doubles is assumed monotone, exact on small dyadic numbers
    and of relative error at most 2^-53; the configured intervals are positive
    32-bit numbers of milliseconds with min_interval <= max_interval, and the
    bandwidth fraction is not negative. *)
Theorem send_interval_monotone_and_bounded p b1 b2 :
  binary64_monotone -> binary64_exact -> binary64_error ->
  (0 < min_interval (send_config_ p) <= max_interval (send_config_ p)
   /\ max_interval (send_config_ p) <= 2 ^ 31 - 1)%Z ->
  0 <= bandwidth_fraction (send_config_ p) ->
  (b1 <= b2)%Z ->
  (send_interval_ms_ (OnBitrateChanged b2 p)
   <= send_interval_ms_ (OnBitrateChanged b1 p))%Z /\
  (forall b,
     (min_interval (send_config_ p)
      <= send_interval_ms_ (OnBitrateChanged b p)
      <= max_interval (send_config_ p))%Z).
Proof.
  intros Hmono Hexact Herror Hconfig Hfraction Hb.
  pose proof (twcc_rates_ordered (send_config_ p) Hmono Hconfig) as Hrates.
  pose proof (kMinTwccRate_pos (send_config_ p) Herror Hconfig) as Hpos.
  split.
  - change (twcc_interval_ms (send_config_ p) b2
            <= twcc_interval_ms (send_config_ p) b1)%Z.
    unfold twcc_interval_ms. cbv zeta. fold twcc_report_bits.
    apply trunc_monotone, Hmono, Qplus_le_r, Hmono.
    apply Qdiv_antitone.
    + now change (0 <= 544000).
    + pose proof (SafeClamp_bounds
                    (fl (bandwidth_fraction (send_config_ p) * inject_Z b1))
                    _ _ Hrates) as [Hlo _].
      lra.
    + apply SafeClamp_monotone; [exact Hrates|].
      apply Hmono. apply Qmult_le_l_nonneg; [assumption|].
      rewrite <- Zle_Qle. exact Hb.
  - intros b.
    change (min_interval (send_config_ p)
            <= twcc_interval_ms (send_config_ p) b
            <= max_interval (send_config_ p))%Z.
    unfold twcc_interval_ms. cbv zeta. fold twcc_report_bits.
    pose proof (SafeClamp_bounds
                  (fl (bandwidth_fraction (send_config_ p) * inject_Z b))
                  _ _ Hrates) as [Hlo Hhi].
    now apply interval_of_clamped_rate.
Qed.

End Interval.

(** ** Send-time unwrapping *)

Section SendTime.

Context {unwrapper_impl : SeqNumUnwrapper} {binary64 : Binary64}.

(** The wrap detection follows a stream whose steps are shorter than half
    the wrap period: after the send time [t] the members hold its cycle and
    its 24-bit value. *)
Lemma abs_send_time_step_follows t t' :
  0 <= t -> 0 <= t' - t < 2 ^ 23 ->
  abs_send_time_step (t / 2 ^ 24) (t mod 2 ^ 24) (t' mod 2 ^ 24)
  = (t' / 2 ^ 24, t' mod 2 ^ 24).
Proof.
  intros Ht Hstep. unfold abs_send_time_step.
  destruct (Z.eqb_spec (t / 2 ^ 24) (-1)) as [Hneg|_].
  { exfalso. pose proof (Z.div_pos t (2 ^ 24) Ht). lia. }
  rewrite !Z.shiftl_mul_pow2 by lia.
  change (2 ^ 8) with 256. change (2 ^ 24) with 16777216.
  change (2 ^ 32) with 4294967296. change (2 ^ 23) with 8388608 in Hstep.
  unfold to_int32. change (2 ^ 31) with 2147483648.
  change (2 ^ 32) with 4294967296.
  pose proof (Z.div_mod t 16777216 ltac:(lia)) as Hd.
  pose proof (Z.mod_pos_bound t 16777216 ltac:(lia)) as Hm.
  pose proof (Z.div_mod t' 16777216 ltac:(lia)) as Hd'.
  pose proof (Z.mod_pos_bound t' 16777216 ltac:(lia)) as Hm'.
  set (q := t / 16777216) in *. set (r := t mod 16777216) in *.
  set (q' := t' / 16777216) in *. set (r' := t' mod 16777216) in *.
  rewrite (Z.mod_small (r' * 256)) by lia.
  rewrite (Z.mod_small (r * 256)) by lia.
  assert (Hcases : (q' = q /\ r <= r') \/ (q' = q + 1 /\ r' < r)) by nia.
  assert (Hdiff : (r' * 256 - r * 256) mod 4294967296 = (t' - t) * 256).
  { destruct Hcases as [[-> Hr]|[-> Hr]].
    - replace ((t' - t) * 256) with (r' * 256 - r * 256) by lia.
      apply Z.mod_small. lia.
    - symmetry. apply Z.mod_unique with (q := -1); lia. }
  rewrite Hdiff.
  destruct (Z.ltb_spec ((t' - t) * 256) 2147483648); [|lia].
  destruct (Z.leb_spec 0 ((t' - t) * 256)); [|lia].
  destruct (Z.ltb_spec r' r); f_equal; lia.
Qed.

(** The first call initialises the members from its input. *)
Lemma abs_send_time_step_first max_abs_send_time t :
  0 <= t < 2 ^ 24 ->
  abs_send_time_step (-1) max_abs_send_time (t mod 2 ^ 24)
  = (t / 2 ^ 24, t mod 2 ^ 24).
Proof.
  intros Ht. rewrite Z.mod_small, Z.div_small by assumption.
  unfold abs_send_time_step. cbn [Z.eqb Z.opp Pos.eqb].
  rewrite Z.sub_diag, Z.ltb_irrefl. reflexivity.
Qed.

Local Open Scope Q_scope.

Lemma round_half_away_proper x y :
  x == y -> round_half_away x = round_half_away y.
Proof.
  intros Hxy. unfold round_half_away.
  destruct (Qlt_le_dec x 0), (Qlt_le_dec y 0); try lra.
  - f_equal. apply Qfloor_comp. now rewrite Hxy.
  - apply Qfloor_comp. now rewrite Hxy.
Qed.

Lemma round_half_away_monotone x y :
  0 <= x -> x <= y -> (round_half_away x <= round_half_away y)%Z.
Proof.
  intros Hx Hxy. unfold round_half_away.
  destruct (Qlt_le_dec x 0), (Qlt_le_dec y 0); try lra.
  apply Qfloor_resp_le. lra.
Qed.

(** The send time [t], in units of 2^-18 seconds, as milliseconds. *)
Lemma unwrapped_ms_eq t :
  unwrapped_ms t = round_half_away (inject_Z (t * 1000) / inject_Z (2 ^ 18)).
Proof.
  unfold unwrapped_ms. apply round_half_away_proper.
  rewrite (Z.div_mod t (2 ^ 24)) at 3 by lia.
  rewrite inject_Z_mult, inject_Z_plus, inject_Z_mult.
  change (inject_Z (2 ^ 24)) with 16777216.
  change (inject_Z 262144) with 262144. change (inject_Z (2 ^ 18)) with 262144.
  change (inject_Z 64) with 64. change (inject_Z 1000) with 1000.
  field.
Qed.

Lemma unwrapped_ms_monotone t t' :
  (0 <= t <= t')%Z -> (unwrapped_ms t <= unwrapped_ms t')%Z.
Proof.
  intros Ht. rewrite !unwrapped_ms_eq.
  change (inject_Z (2 ^ 18)) with 262144.
  assert (H0 : inject_Z 0 <= inject_Z (t * 1000)) by (rewrite <- Zle_Qle; lia).
  assert (H1 : inject_Z (t * 1000) <= inject_Z (t' * 1000))
    by (rewrite <- Zle_Qle; lia).
  change (inject_Z 0) with 0 in H0.
  apply round_half_away_monotone.
  - apply Qle_shift_div_l; lra.
  - apply Qmult_le_compat_r; [assumption|]. now change (0 <= 1 # 262144).
Qed.

Lemma unwrapped_ms_range t :
  (0 <= t < 67108 * 2 ^ 24)%Z -> (0 <= unwrapped_ms t < 2 ^ 32)%Z.
Proof.
  intros Ht. rewrite unwrapped_ms_eq.
  change (inject_Z (2 ^ 18)) with 262144.
  assert (H0 : inject_Z 0 <= inject_Z (t * 1000)) by (rewrite <- Zle_Qle; lia).
  assert (H1 : inject_Z (t * 1000) <= inject_Z (67108 * 2 ^ 24 * 1000))
    by (rewrite <- Zle_Qle; lia).
  change (inject_Z 0) with 0 in H0.
  change (inject_Z (67108 * 2 ^ 24 * 1000)) with 1125885411328000 in H1.
  set (x := inject_Z (t * 1000) / 262144).
  assert (Hx0 : 0 <= x) by (apply Qle_shift_div_l; lra).
  assert (Hx1 : x <= 4294912000) by (apply Qle_shift_div_r; lra).
  unfold round_half_away. destruct (Qlt_le_dec x 0); [lra|].
  split.
  - change 0%Z with (Qfloor 0). apply Qfloor_resp_le. lra.
  - apply Z.le_lt_trans with (m := Qfloor (4294912000 + (1 # 2))).
    + apply Qfloor_resp_le. lra.
    + reflexivity.
Qed.

Lemma fl_dyadic x n k :
  binary64_monotone -> binary64_exact ->
  x == inject_Z n / inject_Z (2 ^ k) ->
  (Z.abs n <= 2 ^ 53)%Z -> (0 <= k <= 1000)%Z ->
  fl x == x.
Proof.
  intros Hmono Hexact Hx Hn Hk.
  apply Qeq_trans with (y := fl (inject_Z n / inject_Z (2 ^ k)));
    [now apply fl_proper|].
  apply Qeq_trans with (y := inject_Z n / inject_Z (2 ^ k));
    [now apply Hexact | now symmetry].
Qed.

(** On the inputs of interest the conversion to milliseconds is exact: the
    doubles involved are dyadic numbers of fewer than 53 bits. *)
Lemma send_time_ms_of_exact t :
  binary64_monotone -> binary64_exact ->
  (0 <= t < 67108 * 2 ^ 24)%Z ->
  send_time_ms_of (t mod 2 ^ 24) (t / 2 ^ 24) = unwrapped_ms t.
Proof.
  intros Hmono Hexact Ht. unfold send_time_ms_of. cbv zeta.
  pose proof (Z.mod_pos_bound t (2 ^ 24) ltac:(lia)) as Hm.
  pose proof (Z.div_mod t (2 ^ 24) ltac:(lia)) as Hd.
  assert (Hq : (0 <= t / 2 ^ 24 < 67108)%Z).
  { split; [apply Z.div_pos; lia | apply Z.div_lt_upper_bound; lia]. }
  set (a := (t mod 2 ^ 24)%Z) in *. set (c := (t / 2 ^ 24)%Z) in *.
  assert (H1 : fl (inject_Z a / inject_Z 262144) == inject_Z a / inject_Z 262144).
  { apply (fl_dyadic _ a 18 Hmono Hexact); [reflexivity | lia | lia]. }
  assert (H2 : fl (inject_Z 64 * inject_Z c) == inject_Z 64 * inject_Z c).
  { apply (fl_dyadic _ (64 * c) 0 Hmono Hexact); [|lia|lia].
    rewrite inject_Z_mult. change (inject_Z (2 ^ 0)) with 1. field. }
  assert (H3 : fl (fl (inject_Z a / inject_Z 262144)
                   + fl (inject_Z 64 * inject_Z c))
               == inject_Z a / inject_Z 262144 + inject_Z 64 * inject_Z c).
  { apply Qeq_trans
      with (y := fl (inject_Z a / inject_Z 262144)
                 + fl (inject_Z 64 * inject_Z c)); [|now rewrite H1, H2].
    apply (fl_dyadic _ t 18 Hmono Hexact); [|lia|lia].
    rewrite H1, H2, Hd. fold a c.
    rewrite inject_Z_plus, inject_Z_mult.
    change (inject_Z (2 ^ 24)) with 16777216.
    change (inject_Z 262144) with 262144. change (inject_Z (2 ^ 18)) with 262144.
    change (inject_Z 64) with 64. field. }
  assert (H4 : fl (fl (fl (inject_Z a / inject_Z 262144)
                       + fl (inject_Z 64 * inject_Z c)) * inject_Z 1000)
               == (inject_Z a / inject_Z 262144 + inject_Z 64 * inject_Z c)
                  * inject_Z 1000).
  { apply Qeq_trans
      with (y := fl (fl (inject_Z a / inject_Z 262144)
                     + fl (inject_Z 64 * inject_Z c)) * inject_Z 1000);
      [|now rewrite H3].
    apply (fl_dyadic _ (t * 1000) 18 Hmono Hexact); [|lia|lia].
    rewrite H3, Hd. fold a c.
    rewrite inject_Z_mult, inject_Z_plus, inject_Z_mult.
    change (inject_Z (2 ^ 24)) with 16777216.
    change (inject_Z 262144) with 262144. change (inject_Z (2 ^ 18)) with 262144.
    change (inject_Z 64) with 64. change (inject_Z 1000) with 1000. field. }
  rewrite (round_half_away_proper _ _ H4).
  change (round_half_away
            ((inject_Z a / inject_Z 262144 + inject_Z 64 * inject_Z c)
             * inject_Z 1000)) with (unwrapped_ms t).
  apply Z.mod_small. now apply unwrapped_ms_range.
Qed.

Local Close Scope Q_scope.

Lemma GetTtimeFromAbsSendtime_follows p t t' :
  binary64_monotone -> binary64_exact ->
  cycles_ p = t / 2 ^ 24 -> max_abs_send_time_ p = t mod 2 ^ 24 ->
  0 <= t -> 0 <= t' - t < 2 ^ 23 -> t' < 67108 * 2 ^ 24 ->
  GetTtimeFromAbsSendtime p (t' mod 2 ^ 24)
  = (unwrapped_ms t',
     set_send_time_state (t' / 2 ^ 24) (t' mod 2 ^ 24) p).
Proof.
  intros Hmono Hexact Hc Hm Ht Hstep Hbound. unfold GetTtimeFromAbsSendtime.
  rewrite Hc, Hm, abs_send_time_step_follows by assumption.
  rewrite send_time_ms_of_exact by (assumption || lia). reflexivity.
Qed.

Lemma unwrap_send_times_follows times :
  binary64_monotone -> binary64_exact ->
  forall p t,
    cycles_ p = t / 2 ^ 24 -> max_abs_send_time_ p = t mod 2 ^ 24 ->
    0 <= t ->
    steps_below (2 ^ 23) (t :: times) ->
    Forall (fun t' => t' < 67108 * 2 ^ 24) times ->
    unwrap_send_times p (abs_send_times times) = map unwrapped_ms times.
Proof.
  intros Hmono Hexact.
  induction times as [|t' times IH]; intros p t Hc Hm Ht Hsteps Hbound;
    [reflexivity|].
  destruct Hsteps as [Hstep Hsteps].
  inversion Hbound as [|? ? Hb Hbound']; subst.
  cbn [abs_send_times map unwrap_send_times].
  rewrite (GetTtimeFromAbsSendtime_follows p t t') by assumption.
  f_equal. apply (IH _ t'); [reflexivity | reflexivity | lia | assumption | assumption].
Qed.

Lemma unwrapped_ms_nondecreasing times :
  forall t,
    0 <= t -> steps_below (2 ^ 23) (t :: times) ->
    nondecreasing (map unwrapped_ms (t :: times)).
Proof.
  induction times as [|t' times IH]; intros t Ht Hsteps; [exact I|].
  destruct Hsteps as [Hstep Hsteps].
  split.
  - apply unwrapped_ms_monotone. lia.
  - apply IH; [lia | assumption].
Qed.

(** C6, as amended: for every stream of 24-bit absolute send times in which
    each value is ahead of its predecessor by less than half the wrap period
    (2^23), however many wrap cycles it spans below 67108 (the outputs are
    32-bit numbers of milliseconds), the outputs of the send-time unwrapper
    are non-decreasing, and each output is round_to_nearest_ms(input / 2^18
    seconds + 64.0 * cycles seconds).  The stream is given by its send times
    [t0 :: times] in units of 2^-18 seconds: the inputs are these times
    modulo 2^24 and the cycles their quotients by 2^24.  The arithmetic on
    doubles is assumed monotone and exact on dyadic numbers of at most 53
    bits. *)
Theorem send_time_unwrapping_monotone p t0 times :
  binary64_monotone -> binary64_exact ->
  cycles_ p = -1 ->
  0 <= t0 < 2 ^ 24 ->
  steps_below (2 ^ 23) (t0 :: times) ->
  Forall (fun t => t < 67108 * 2 ^ 24) times ->
  unwrap_send_times p (abs_send_times (t0 :: times))
  = map unwrapped_ms (t0 :: times) /\
  nondecreasing (unwrap_send_times p (abs_send_times (t0 :: times))).
Proof.
  intros Hmono Hexact Hfresh Ht0 Hsteps Hbound.
  assert (Houtputs : unwrap_send_times p (abs_send_times (t0 :: times))
                     = map unwrapped_ms (t0 :: times)).
  { cbn [abs_send_times map unwrap_send_times].
    unfold GetTtimeFromAbsSendtime.
    rewrite Hfresh, abs_send_time_step_first by assumption.
    rewrite send_time_ms_of_exact by (assumption || lia).
    f_equal.
    apply (unwrap_send_times_follows times Hmono Hexact _ t0);
      [reflexivity | reflexivity | lia | assumption | assumption]. }
  split; [exact Houtputs|].
  rewrite Houtputs. apply unwrapped_ms_nondecreasing; [lia | assumption].
Qed.

End SendTime.

(** ** The model on concrete inputs *)

Section Examples.

Local Existing Instance closest_distance_unwrapper.
Local Existing Instance two_records.
Local Existing Instance exact_arithmetic.
Local Existing Instance silent_telemetry.

Lemma two_records_first_fits : first_record_fits.
Proof. intros m s t H. cbn. now rewrite H. Qed.

Lemma exact_arithmetic_monotone : binary64_monotone.
Proof. intros x y H. exact H. Qed.

Lemma exact_arithmetic_exact : binary64_exact.
Proof. intros n k _ _. apply Qeq_refl. Qed.

Lemma exact_arithmetic_error : binary64_error.
Proof.
  intros x Hlo Hhi. cbn [fl exact_arithmetic].
  change (1 # 2 ^ 20)%Q with (1 # 1048576)%Q in Hlo.
  change (1 # 2 ^ 53)%Q with (1 # 9007199254740992)%Q.
  split; lra.
Qed.

Lemma deliver_all_reachable packets :
  forall p p',
    reachable example_config example_alphacc p ->
    deliver_all packets p = Ok p' ->
    reachable example_config example_alphacc p'.
Proof.
  induction packets as [|[transport_seq arrival_time_ms] packets IH];
    intros p p' Hp; cbn [deliver_all].
  - now intros [= <-].
  - destruct (deliver transport_seq arrival_time_ms p) as [p1|f] eqn:E;
      cbn [bind]; [|discriminate].
    apply IH. eapply reach_IncomingPacket; [exact Hp | exact E].
Qed.

Lemma after_five_arrivals_eq :
  deliver_all five_arrivals fresh_proxy = Ok after_five_arrivals.
Proof. reflexivity. Qed.

Lemma after_periodic_drain_eq :
  Process 150 after_five_arrivals = Ok after_periodic_drain.
Proof. reflexivity. Qed.

Lemma after_two_distant_arrivals_eq :
  deliver_all two_distant_arrivals fresh_proxy = Ok after_two_distant_arrivals.
Proof. reflexivity. Qed.

Lemma after_five_arrivals_reachable :
  reachable example_config example_alphacc after_five_arrivals.
Proof.
  apply (deliver_all_reachable five_arrivals fresh_proxy).
  - apply reach_new.
  - exact after_five_arrivals_eq.
Qed.

Lemma after_periodic_drain_reachable :
  reachable example_config example_alphacc after_periodic_drain.
Proof.
  eapply reach_Process.
  - exact after_five_arrivals_reachable.
  - exact after_periodic_drain_eq.
Qed.

Lemma after_two_distant_arrivals_reachable :
  reachable example_config example_alphacc after_two_distant_arrivals.
Proof.
  apply (deliver_all_reachable two_distant_arrivals fresh_proxy).
  - apply reach_new.
  - exact after_two_distant_arrivals_eq.
Qed.

(** *** Inputs at which claims fail as they are stated *)

(** C1, as stated, fails: after arrivals 1 to 5 and a periodic drain the
    cursor is 6; sequence number 2, stored with arrival time 101, is then
    delivered again at 10000 ms.  The call drops the entry of sequence number
    1, which is older than the back window, and moves the cursor back to 2. *)
Lemma duplicate_arrival_changes_window :
  reachable example_config example_alphacc after_periodic_drain /\
  find (fst (Unwrap (unwrapper_ after_periodic_drain) 2))
    (packet_arrival_times_ after_periodic_drain) = Some 101 /\
  OnPacketArrival after_periodic_drain 2 10000 None = Ok after_duplicate /\
  packet_arrival_times_ after_periodic_drain
  = [(1, 100); (2, 101); (3, 105); (4, 106); (5, 110)] /\
  packet_arrival_times_ after_duplicate
  = [(2, 101); (3, 105); (4, 106); (5, 110)] /\
  periodic_window_start_seq_ after_periodic_drain = Some 6 /\
  periodic_window_start_seq_ after_duplicate = Some 2 /\
  ~ same_window after_duplicate after_periodic_drain.
Proof.
  split; [exact after_periodic_drain_reachable|].
  repeat (split; [reflexivity|]).
  intros [Hmap _]. vm_compute in Hmap. discriminate Hmap.
Qed.

(** C4: the code trips its own assertion.  After arrivals 60000 and 30000,
    the packet with sequence number 0 that asks for feedback about itself
    (count 1) is stored and pruned at once for lying more than 32768 behind
    60000.  [SendFeedbackOnRequest] is then called on the window
    {30000, 60000} with the range [[0, 0]]: both iterators of the range point
    at 30000, and [BuildFeedbackPacket] is called with
    [begin_iterator = end_iterator], which its first line,
    [RTC_DCHECK(begin_iterator != end_iterator)], excludes.  Where the
    assertion is checked the call does not return and no message is sent.
    Where it is compiled out, one message without records and with base 0 is
    sent and no key below 0 is left in the window, as the claim says. *)
Theorem on_demand_request_trips_assertion :
  reachable example_config example_alphacc after_two_distant_arrivals /\
  packet_arrival_times_ after_two_distant_arrivals
  = [(30000, 0); (60000, 0)] /\
  Unwrap (unwrapper_ after_two_distant_arrivals) 0 = (0, Some 0) /\
  stored_and_pruned
    (on_arrival (set_media_ssrc_ 42 after_two_distant_arrivals) 0 (Some 0) 0)
    0 0
  = before_request_for_one /\
  packet_arrival_times_ before_request_for_one = [(30000, 0); (60000, 0)] /\
  0 < sequence_count request_for_one /\
  lower_bound (0 - sequence_count request_for_one + 1)
    (packet_arrival_times_ before_request_for_one)
  = upper_bound 0 (packet_arrival_times_ before_request_for_one) /\
  SendFeedbackOnRequest before_request_for_one 0 request_for_one
  = Err DcheckFailed /\
  IncomingPacket (steady 0) after_two_distant_arrivals 0 1200
    (example_header 42 0 0 (Some request_for_one))
  = Err DcheckFailed /\
  SendFeedbackOnRequest_unchecked before_request_for_one 0 request_for_one
  = Ok after_unchecked_request /\
  feedback_sender_ after_unchecked_request
  = feedback_sender_ before_request_for_one
    ++ [SendTransportFeedback (initialised_message true 0 42 0 0)] /\
  tf_packets (initialised_message true 0 42 0 0) = [] /\
  packet_arrival_times_ after_unchecked_request = [(30000, 0); (60000, 0)].
Proof.
  split; [exact after_two_distant_arrivals_reachable|].
  repeat (split; [reflexivity|]). reflexivity.
Qed.

(** C5, as stated, fails: a packet that arrives at -1 ms is dropped by
    [OnPacketArrival], but [IncomingPacket] has stored its SSRC before and
    feeds its send time to the send-time unwrapper afterwards. *)
Lemma out_of_bounds_arrival_changes_members :
  -1 < 0 /\
  IncomingPacket (steady 0) fresh_proxy (-1) 1200 (example_header 7 1 0 None)
  = Ok after_out_of_bounds /\
  media_ssrc_ fresh_proxy = 0 /\
  media_ssrc_ after_out_of_bounds = 7 /\
  cycles_ fresh_proxy = -1 /\
  cycles_ after_out_of_bounds = 0 /\
  after_out_of_bounds <> fresh_proxy.
Proof.
  repeat (split; [reflexivity|]).
  intros H. apply (f_equal media_ssrc_) in H. vm_compute in H. discriminate H.
Qed.

(** C6, as stated, fails: send times 32 seconds apart increase, and their
    24-bit values increase modulo 2^24 over three wrap cycles, but a step of
    half the wrap period is taken for a step backwards: the outputs alternate
    between 0 and 32000. *)
Lemma half_period_steps_not_monotone :
  increasing half_period_times /\
  3 * 2 ^ 24 <= last half_period_times 0 - hd 0 half_period_times /\
  abs_send_times half_period_times
  = [0; 2 ^ 23; 0; 2 ^ 23; 0; 2 ^ 23; 0] /\
  unwrap_send_times fresh_proxy (abs_send_times half_period_times)
  = [0; 32000; 0; 32000; 0; 32000; 0] /\
  ~ nondecreasing
      (unwrap_send_times fresh_proxy (abs_send_times half_period_times)).
Proof.
  split; [vm_compute; repeat split|].
  split; [by_computation|]. split; [reflexivity|].
  assert (H : unwrap_send_times fresh_proxy (abs_send_times half_period_times)
              = [0; 32000; 0; 32000; 0; 32000; 0]) by (vm_compute; reflexivity).
  split; [exact H|]. rewrite H. cbn [nondecreasing]. lia.
Qed.

(** *** The empty range of the on-demand path *)

(** C10: some reachable state and some request with count K > 0 lead the
    on-demand path to the builder with an empty range.  After arrivals 60000
    and 30000, the packet with sequence number 0 that asks for feedback about
    itself is stored, pruned at once for lying more than 32768 behind 60000,
    and the builder is called on the empty range [[0, 0]]: its precondition
    fails.  For every sorted window and every K > 0 the precondition fails
    exactly when none of the sequence numbers of [[seq-K+1, seq]] is stored; so
    it holds whenever one of them is. *)
Theorem on_demand_empty_range :
  (exists p now arrival_time_ms payload_size header request,
     reachable example_config example_alphacc p /\
     feedback_request header = Some request /\
     0 < sequence_count request /\
     IncomingPacket now p arrival_time_ms payload_size header
     = Err DcheckFailed) /\
  (forall (U : SeqNumUnwrapper) (C : FeedbackCapacity)
          (p : @RemoteEstimatorProxy U) seq request,
     sorted (packet_arrival_times_ p) ->
     0 < sequence_count request ->
     @SendFeedbackOnRequest U C p seq request = Err DcheckFailed <->
     ~ exists e, In e (packet_arrival_times_ p) /\
                 seq - sequence_count request + 1 <= fst e <= seq).
Proof.
  split.
  - exists after_two_distant_arrivals, (steady 0), 0, 1200,
      (example_header 42 0 0 (Some request_for_one)), request_for_one.
    split; [exact after_two_distant_arrivals_reachable|].
    repeat split.
  - intros U C p seq request Hs HK.
    rewrite (@SendFeedbackOnRequest_precondition U C p seq request Hs HK).
    rewrite <- (@entries_between_nonempty
                  (seq - sequence_count request + 1) seq
                  (packet_arrival_times_ p)).
    destruct (entries_between (seq - sequence_count request + 1) seq
                (packet_arrival_times_ p)) as [|e l]; split.
    + intros _ Hne. now apply Hne.
    + reflexivity.
    + discriminate.
    + intros H. exfalso. apply H. discriminate.
Qed.

(** *** The theorems at concrete inputs *)

Lemma after_five_arrivals_sorted :
  sorted (packet_arrival_times_ after_five_arrivals).
Proof. apply sortedb_sorted. reflexivity. Defined.

Lemma duplicate_arrival_keeps_first_witness :
  0 <= 200 <= kMaxTimeMs /\
  find (fst (Unwrap (unwrapper_ after_five_arrivals) 2))
    (packet_arrival_times_ after_five_arrivals) = Some 101 /\
  exists p',
    OnPacketArrival after_five_arrivals 2 200 None = Ok p' /\
    same_window p' after_five_arrivals.
Proof.
  assert (Ht : 0 <= 200 <= kMaxTimeMs) by (split; by_computation).
  assert (Hfind : find (fst (Unwrap (unwrapper_ after_five_arrivals) 2))
                    (packet_arrival_times_ after_five_arrivals) = Some 101)
    by reflexivity.
  split; [exact Ht|]. split; [exact Hfind|].
  destruct (duplicate_arrival_keeps_first after_five_arrivals 2 200 None 101
              Ht Hfind) as (p' & Hok & _ & _ & _ & _ & Hsame).
  exists p'. split; [exact Hok|].
  apply Hsame. right. exists 1. split; [reflexivity | by_computation].
Defined.

Lemma window_span_bounded_witness :
  sorted (packet_arrival_times_ after_five_arrivals) /\
  0 <= 120 <= kMaxTimeMs /\
  find (fst (Unwrap (unwrapper_ after_five_arrivals) 6))
    (packet_arrival_times_ after_five_arrivals) = None /\
  exists p',
    OnPacketArrival after_five_arrivals 6 120 None = Ok p' /\
    span (packet_arrival_times_ p') <= 32768.
Proof.
  assert (Ht : 0 <= 120 <= kMaxTimeMs) by (split; by_computation).
  assert (Hfind : find (fst (Unwrap (unwrapper_ after_five_arrivals) 6))
                    (packet_arrival_times_ after_five_arrivals) = None)
    by reflexivity.
  split; [exact after_five_arrivals_sorted|]. split; [exact Ht|].
  split; [exact Hfind|].
  destruct (window_span_bounded after_five_arrivals 6 120 None
              after_five_arrivals_sorted Ht Hfind)
    as [Hall (p' & Hok & _)].
  exists p'. split; [exact Hok|]. exact (proj1 (Hall p' Hok)).
Defined.

Lemma periodic_drain_covers_run_witness :
  first_record_fits /\
  sorted (packet_arrival_times_ after_five_arrivals) /\
  send_periodic_feedback_ after_five_arrivals = true /\
  periodic_window_start_seq_ after_five_arrivals = Some 1 /\
  exists chunks,
    Process 150 after_five_arrivals
    = Ok (after_drain (set_last_process_time_ms_ 150 after_five_arrivals)
            (periodic_messages 0 42 1 chunks) 6) /\
    concat chunks = [(1, 100); (2, 101); (3, 105); (4, 106); (5, 110)] /\
    contiguous_from 1 (covered_ranges 1 chunks).
Proof.
  split; [exact two_records_first_fits|].
  split; [exact after_five_arrivals_sorted|].
  split; [reflexivity|]. split; [reflexivity|].
  destruct (periodic_drain_covers_run 150 after_five_arrivals 1
              two_records_first_fits after_five_arrivals_sorted
              eq_refl eq_refl)
    as (chunks & Hprocess & Hconcat & _ & Hcontiguous & _).
  exists chunks. split; [exact Hprocess|]. split; [exact Hconcat|].
  exact Hcontiguous.
Defined.

Lemma periodic_drain_keeps_arrivals_witness :
  first_record_fits /\
  sorted (packet_arrival_times_ after_five_arrivals) /\
  exists p',
    Process 150 after_five_arrivals = Ok p' /\
    packet_arrival_times_ p' = packet_arrival_times_ after_five_arrivals.
Proof.
  split; [exact two_records_first_fits|].
  split; [exact after_five_arrivals_sorted|].
  destruct (periodic_drain_keeps_arrivals 150 after_five_arrivals)
    as [Hkeeps Hreturns].
  destruct (Hreturns two_records_first_fits after_five_arrivals_sorted)
    as (p' & Hok).
  exists p'. split; [exact Hok|]. exact (Hkeeps p' Hok).
Defined.

Lemma on_demand_feedback_witness :
  first_record_fits /\
  sorted (packet_arrival_times_ after_five_arrivals) /\
  0 < sequence_count request_for_three /\
  (exists e, In e (packet_arrival_times_ after_five_arrivals) /\
             4 - sequence_count request_for_three + 1 <= fst e <= 4) /\
  exists p',
    SendFeedbackOnRequest after_five_arrivals 4 request_for_three = Ok p' /\
    Forall (fun e => 2 <= fst e) (packet_arrival_times_ p').
Proof.
  assert (HK : 0 < sequence_count request_for_three) by reflexivity.
  assert (Hpresent : exists e, In e (packet_arrival_times_ after_five_arrivals)
                               /\ 4 - sequence_count request_for_three + 1
                                  <= fst e <= 4).
  { exists (2, 101). split; [right; left; reflexivity | split; by_computation]. }
  split; [exact two_records_first_fits|].
  split; [exact after_five_arrivals_sorted|].
  split; [exact HK|]. split; [exact Hpresent|].
  destruct (on_demand_feedback after_five_arrivals 4 request_for_three
              two_records_first_fits after_five_arrivals_sorted)
    as [_ Hsome].
  destruct (Hsome HK Hpresent)
    as (chunk & rest & p' & _ & _ & _ & Hok & _ & _ & Hkeys).
  exists p'. split; [exact Hok | exact Hkeys].
Defined.

Lemma out_of_bounds_arrival_dropped_witness :
  (-1 < 0 \/ kMaxTimeMs < -1) /\
  exists p',
    IncomingPacket (steady 0) after_five_arrivals (-1) 1200
      (example_header 7 9 0 None)
    = Ok p' /\
    packet_arrival_times_ p' = packet_arrival_times_ after_five_arrivals /\
    periodic_window_start_seq_ p'
    = periodic_window_start_seq_ after_five_arrivals.
Proof.
  assert (Ht : -1 < 0 \/ kMaxTimeMs < -1) by (left; reflexivity).
  split; [exact Ht|].
  destruct (out_of_bounds_arrival_dropped (steady 0) after_five_arrivals (-1)
              1200
              (example_header 7 9 0 None) Ht)
    as [_ (p' & Hok & Hmap & Hcursor & _)].
  exists p'. split; [exact Hok|]. split; [exact Hmap | exact Hcursor].
Defined.

Lemma send_time_unwrapping_monotone_witness :
  binary64_monotone /\ binary64_exact /\
  cycles_ fresh_proxy = -1 /\
  0 <= 0 < 2 ^ 24 /\
  steps_below (2 ^ 23) (0 :: quarter_period_times) /\
  Forall (fun t => t < 67108 * 2 ^ 24) quarter_period_times /\
  nondecreasing
    (unwrap_send_times fresh_proxy (abs_send_times (0 :: quarter_period_times))).
Proof.
  assert (Ht0 : 0 <= 0 < 2 ^ 24) by (split; by_computation).
  assert (Hsteps : steps_below (2 ^ 23) (0 :: quarter_period_times))
    by (cbn [steps_below quarter_period_times]; repeat split; by_computation).
  assert (Hbound : Forall (fun t => t < 67108 * 2 ^ 24) quarter_period_times)
    by (repeat constructor).
  split; [exact exact_arithmetic_monotone|].
  split; [exact exact_arithmetic_exact|].
  split; [reflexivity|]. split; [exact Ht0|]. split; [exact Hsteps|].
  split; [exact Hbound|].
  exact (proj2 (send_time_unwrapping_monotone fresh_proxy 0
                  quarter_period_times exact_arithmetic_monotone
                  exact_arithmetic_exact eq_refl Ht0 Hsteps Hbound)).
Defined.

Lemma send_interval_monotone_and_bounded_witness :
  binary64_monotone /\ binary64_exact /\ binary64_error /\
  (0 < min_interval (send_config_ fresh_proxy)
   <= max_interval (send_config_ fresh_proxy)
   /\ max_interval (send_config_ fresh_proxy) <= 2 ^ 31 - 1) /\
  (0 <= bandwidth_fraction (send_config_ fresh_proxy))%Q /\
  100000 <= 1000000 /\
  send_interval_ms_ (OnBitrateChanged 1000000 fresh_proxy)
  <= send_interval_ms_ (OnBitrateChanged 100000 fresh_proxy) /\
  50 <= send_interval_ms_ (OnBitrateChanged 100000 fresh_proxy) <= 250.
Proof.
  assert (Hconfig : 0 < min_interval (send_config_ fresh_proxy)
                    <= max_interval (send_config_ fresh_proxy)
                    /\ max_interval (send_config_ fresh_proxy) <= 2 ^ 31 - 1)
    by (repeat split; by_computation).
  assert (Hfraction : (0 <= bandwidth_fraction (send_config_ fresh_proxy))%Q)
    by by_computation.
  assert (Hb : 100000 <= 1000000) by by_computation.
  split; [exact exact_arithmetic_monotone|].
  split; [exact exact_arithmetic_exact|].
  split; [exact exact_arithmetic_error|].
  split; [exact Hconfig|]. split; [exact Hfraction|]. split; [exact Hb|].
  destruct (send_interval_monotone_and_bounded fresh_proxy 100000 1000000
              exact_arithmetic_monotone exact_arithmetic_exact
              exact_arithmetic_error Hconfig Hfraction Hb)
    as [Hmono Hbounds].
  split; [exact Hmono | exact (Hbounds 100000)].
Defined.

Lemma TimeUntilNextProcess_cases_witness :
  TimeUntilNextProcess 1000 (SetSendPeriodicFeedback false after_periodic_drain)
  = 86400000 /\
  TimeUntilNextProcess 1000 after_five_arrivals = 0 /\
  TimeUntilNextProcess 300 after_periodic_drain = 0 /\
  TimeUntilNextProcess 200 after_periodic_drain = 50.
Proof.
  split; [|split; [|split]].
  - apply (proj1 (TimeUntilNextProcess_cases 1000
                    (SetSendPeriodicFeedback false after_periodic_drain))).
    reflexivity.
  - apply (proj1 (proj2 (TimeUntilNextProcess_cases 1000 after_five_arrivals)));
      [reflexivity | left; reflexivity].
  - apply (proj1 (proj2 (TimeUntilNextProcess_cases 300 after_periodic_drain)));
      [reflexivity | right; by_computation].
  - apply (proj1 (proj2 (proj2 (TimeUntilNextProcess_cases 200
                                  after_periodic_drain))
                    eq_refl ltac:(by_computation) ltac:(by_computation))).
Defined.

Lemma on_demand_empty_range_witness :
  sorted (packet_arrival_times_ after_five_arrivals) /\
  0 < sequence_count request_for_three /\
  SendFeedbackOnRequest after_five_arrivals 4 request_for_three
  <> Err DcheckFailed.
Proof.
  assert (HK : 0 < sequence_count request_for_three) by reflexivity.
  split; [exact after_five_arrivals_sorted|]. split; [exact HK|].
  intros Hfails.
  apply (proj1 (proj2 on_demand_empty_range closest_distance_unwrapper
                  two_records after_five_arrivals 4 request_for_three
                  after_five_arrivals_sorted HK)) in Hfails.
  apply Hfails. exists (2, 101).
  split; [right; left; reflexivity | split; by_computation].
Defined.

End Examples.

(** * Further properties of the code *)

(** ** What the arrival path leaves alone *)

Section Frame.

Context {unwrapper_impl : SeqNumUnwrapper} {capacity : FeedbackCapacity}.

Lemma other_members_kept_refl p : other_members_kept p p.
Proof. unfold other_members_kept. repeat split. Qed.

Lemma other_members_kept_trans p q r :
  other_members_kept p q -> other_members_kept q r -> other_members_kept p r.
Proof. unfold other_members_kept. intuition congruence. Qed.

Lemma SendFeedbackOnRequest_result p seq request p' :
  SendFeedbackOnRequest p seq request = Ok p' ->
  p' = p \/
  exists message,
    p' = after_request p message (seq - sequence_count request + 1).
Proof.
  destruct (Z.eq_dec (sequence_count request) 0) as [HK|HK].
  - unfold SendFeedbackOnRequest. rewrite HK. cbn. intros [= <-]. now left.
  - rewrite SendFeedbackOnRequest_nonzero by assumption.
    destruct (BuildFeedbackPacket _ _ _ _ _ _) as [[m next]|f]; cbn [bind];
      [|discriminate].
    intros [= <-]. right. now exists m.
Qed.

Lemma SendFeedbackOnRequest_frame p seq request p' :
  SendFeedbackOnRequest p seq request = Ok p' ->
  other_members_kept p' p /\
  periodic_window_start_seq_ p' = periodic_window_start_seq_ p /\
  unwrapper_ p' = unwrapper_ p.
Proof.
  intros H. apply SendFeedbackOnRequest_result in H.
  destruct H as [->|(message & ->)].
  - split; [apply other_members_kept_refl | split; reflexivity].
  - unfold other_members_kept. repeat split.
Qed.

(** Whatever [OnPacketArrival] hands to the feedback sender is one transport
    feedback message, and only when feedback was requested. *)
Lemma OnPacketArrival_sent p sequence_number arrival_time request p' :
  OnPacketArrival p sequence_number arrival_time request = Ok p' ->
  feedback_sender_ p' = feedback_sender_ p \/
  (request <> None /\
   exists message,
     feedback_sender_ p'
     = feedback_sender_ p ++ [SendTransportFeedback message]).
Proof.
  destruct ((arrival_time <? 0) || (kMaxTimeMs <? arrival_time)) eqn:Hbounds.
  - unfold OnPacketArrival. rewrite Hbounds. intros [= <-]. now left.
  - assert (Ht : 0 <= arrival_time <= kMaxTimeMs).
    { apply orb_false_iff in Hbounds. destruct Hbounds as [H0 H1].
      apply Z.ltb_ge in H0, H1. lia. }
    rewrite (OnPacketArrival_phases _ _ _ _ Ht). cbv zeta.
    set (seq := fst (Unwrap (unwrapper_ p) sequence_number)).
    set (u := snd (Unwrap (unwrapper_ p) sequence_number)).
    destruct (find seq (packet_arrival_times_ (on_arrival p seq u arrival_time))).
    + intros [= <-]. now left.
    + destruct request as [r|].
      * intros H. apply SendFeedbackOnRequest_result in H.
        destruct H as [->|(message & ->)]; [now left|].
        right. split; [discriminate|]. now exists message.
      * intros [= <-]. now left.
Qed.

Lemma OnPacketArrival_frame p sequence_number arrival_time request p' :
  OnPacketArrival p sequence_number arrival_time request = Ok p' ->
  other_members_kept p' p.
Proof.
  destruct ((arrival_time <? 0) || (kMaxTimeMs <? arrival_time)) eqn:Hbounds.
  - unfold OnPacketArrival. rewrite Hbounds. intros [= <-].
    apply other_members_kept_refl.
  - assert (Ht : 0 <= arrival_time <= kMaxTimeMs).
    { apply orb_false_iff in Hbounds. destruct Hbounds as [H0 H1].
      apply Z.ltb_ge in H0, H1. lia. }
    rewrite (OnPacketArrival_phases _ _ _ _ Ht). cbv zeta.
    set (seq := fst (Unwrap (unwrapper_ p) sequence_number)).
    set (u := snd (Unwrap (unwrapper_ p) sequence_number)).
    assert (H1 : other_members_kept (on_arrival p seq u arrival_time) p)
      by (unfold other_members_kept; repeat split).
    assert (H2 : other_members_kept
                   (stored_and_pruned (on_arrival p seq u arrival_time) seq
                      arrival_time) p)
      by (unfold other_members_kept; repeat split).
    destruct (find seq (packet_arrival_times_ (on_arrival p seq u arrival_time))).
    + now intros [= <-].
    + destruct request as [r|].
      * intros H. apply SendFeedbackOnRequest_frame in H.
        destruct H as [H _].
        exact (other_members_kept_trans _ _ _ H H2).
      * now intros [= <-].
Qed.

(** X1: [OnPacketArrival] changes nothing but the sequence unwrapper, the
    arrival window, the periodic cursor, the feedback counter and what was
    sent: the media SSRC, the configuration, the scheduling members, the
    send-time unwrap state and the estimator and statistics members are the
    same after every call that returns.  It hands at most one packet to the
    feedback sender, a transport feedback message, and none unless the packet
    carried a feedback request. *)
Theorem OnPacketArrival_keeps_other_members p sequence_number arrival_time
  request p' :
  OnPacketArrival p sequence_number arrival_time request = Ok p' ->
  other_members_kept p' p /\
  (feedback_sender_ p' = feedback_sender_ p \/
   (request <> None /\
    exists message,
      feedback_sender_ p'
      = feedback_sender_ p ++ [SendTransportFeedback message])).
Proof.
  intros H. split.
  - exact (OnPacketArrival_frame _ _ _ _ _ H).
  - exact (OnPacketArrival_sent _ _ _ _ _ H).
Qed.

End Frame.

(** ** The shape of the window in every state *)

Section Invariant.

Context {unwrapper_impl : SeqNumUnwrapper} {capacity : FeedbackCapacity}
        {binary64 : Binary64} {telemetry : Telemetry}.

Lemma transport_feedbacks_app a b :
  transport_feedbacks (a ++ b) = transport_feedbacks a ++ transport_feedbacks b.
Proof.
  induction a as [|[m|bwe] a IH]; cbn [app transport_feedbacks];
    [reflexivity | now rewrite IH | exact IH].
Qed.

Lemma application_packets_app a b :
  application_packets (a ++ b) = application_packets a ++ application_packets b.
Proof.
  induction a as [|[m|bwe] a IH]; cbn [app application_packets];
    [reflexivity | exact IH | now rewrite IH].
Qed.

(** [IncomingPacket] is [OnPacketArrival] on the proxy that has noted the SSRC,
    followed by bookkeeping that leaves the feedback members alone. *)
Lemma IncomingPacket_result now p arrival_time_ms payload_size header p' :
  IncomingPacket now p arrival_time_ms payload_size header = Ok p' ->
  (hasTransportSequenceNumber header = false /\ p' = p) \/
  (hasTransportSequenceNumber header = true /\
   exists p1,
     OnPacketArrival (set_media_ssrc_ (ssrc header) p)
       (transportSequenceNumber header) arrival_time_ms
       (feedback_request header) = Ok p1 /\
     feedback_members_kept p' p1 /\
     send_config_ p' = send_config_ p1 /\
     last_process_time_ms_ p' = last_process_time_ms_ p1 /\
     media_ssrc_ p' = media_ssrc_ p1 /\
     send_interval_ms_ p' = send_interval_ms_ p1 /\
     send_periodic_feedback_ p' = send_periodic_feedback_ p1).
Proof.
  unfold IncomingPacket.
  destruct (hasTransportSequenceNumber header); cbn [negb].
  - destruct (OnPacketArrival _ _ _ _) as [p1|f]; cbn [bind]; [|discriminate].
    intros H. right. split; [reflexivity|]. exists p1. split; [reflexivity|].
    revert H. unfold GetTtimeFromAbsSendtime.
    destruct (abs_send_time_step _ _ _) as [cycles max_abs_send_time].
    unfold TimeToSendBweMessage. read_members.
    destruct (last_bwe_sendback_ms_ p1
              <? bwe_time_now now - bwe_sendback_interval_ms_ p1);
      unfold TimeToSaveIntoRedis, SendbackBweEstimation, SaveIntoRedis;
      read_members;
      destruct (last_redis_save_ms_ p1
                <? redis_time_now now - redis_save_interval_ms_ p1);
      intros [= <-]; unfold feedback_members_kept; read_members;
      rewrite ?transport_feedbacks_app, ?app_nil_r; repeat split.
  - intros [= <-]. now left.
Qed.

Lemma sorted_keys_between m lo hi :
  sorted m -> first_key m = Some lo -> last_key m = Some hi ->
  Forall (fun e => lo <= fst e <= hi) m.
Proof.
  intros Hs Hlo Hhi. pose proof (last_key_max m hi Hs Hhi) as Hmax.
  destruct m as [|[k v] m]; [constructor|]. injection Hlo as ->.
  inversion Hs as [|? ? ? Hall _]; subst.
  inversion Hmax as [|? ? Hk Hmax']; subst. cbn [fst] in Hk.
  constructor; [cbn [fst]; lia|].
  apply Forall_forall. intros e He.
  apply (proj1 (Forall_forall _ _) Hall) in He as H1.
  apply (proj1 (Forall_forall _ _) Hmax') in He as H2. lia.
Qed.

(** Erasing from the front keeps the shape. *)
Lemma window_ok_suffix pre m : window_ok (pre ++ m) -> window_ok m.
Proof.
  intros [Hs Hspan]. pose proof Hs as Hs'.
  apply sorted_app in Hs'. destruct Hs' as (_ & Hm & _).
  split; [assumption|].
  destruct m as [|e m]; [cbn; lia|].
  destruct (pre ++ e :: m) as [|[k v] l] eqn:E;
    [now destruct pre; discriminate|].
  destruct (last_key_nonempty ((k, v) :: l)) as [hi Hhi]; [discriminate|].
  assert (Hkeys : Forall (fun x => k <= fst x <= hi) ((k, v) :: l))
    by (now apply sorted_keys_between).
  assert (Hspan' : span ((k, v) :: l) = hi - k)
    by (unfold span; cbn [first_key]; now rewrite Hhi).
  rewrite Hspan' in Hspan.
  assert (Hle : k <= hi) by (apply Forall_inv in Hkeys; cbn [fst] in Hkeys; lia).
  apply Z.le_trans with (m := hi - k); [|assumption].
  apply span_bounded; [assumption|].
  rewrite <- E in Hkeys. now apply Forall_app in Hkeys.
Qed.

Lemma window_ok_lower_bound k m : window_ok m -> window_ok (lower_bound k m).
Proof.
  destruct (lower_bound_split k m) as (pre & Hm & _).
  intros H. rewrite Hm in H. now apply window_ok_suffix in H.
Qed.

Lemma window_ok_on_arrival p seq t :
  window_ok (packet_arrival_times_ p) -> window_ok (window_on_arrival p seq t).
Proof.
  unfold window_on_arrival.
  destruct (send_periodic_feedback_ p); [|tauto].
  destruct (periodic_window_start_seq_ p) as [start|]; [|tauto].
  destruct (iter_eqb _ _); [|tauto].
  destruct (cull_old_packets_suffix seq t (back_window (send_config_ p))
              (packet_arrival_times_ p)) as (pre & Hm & _).
  intros H. rewrite Hm in H. now apply window_ok_suffix in H.
Qed.

Lemma window_ok_after_insert seq t m :
  sorted m -> window_ok (window_after_insert seq t m).
Proof.
  intros Hs. split; [now apply window_after_insert_sorted|].
  pose proof (window_after_insert_keys seq t m Hs) as Hkeys.
  change kMaxNumberOfPackets with 32768 in Hkeys.
  replace 32768 with (newest_key seq t m - (newest_key seq t m - 32768)) by lia.
  apply span_bounded; [lia | exact Hkeys].
Qed.

Lemma OnPacketArrival_window_ok p sequence_number arrival_time request p' :
  window_ok (packet_arrival_times_ p) ->
  OnPacketArrival p sequence_number arrival_time request = Ok p' ->
  window_ok (packet_arrival_times_ p').
Proof.
  intros Hok.
  destruct ((arrival_time <? 0) || (kMaxTimeMs <? arrival_time)) eqn:Hbounds.
  - unfold OnPacketArrival. rewrite Hbounds. now intros [= <-].
  - assert (Ht : 0 <= arrival_time <= kMaxTimeMs).
    { apply orb_false_iff in Hbounds. destruct Hbounds as [H0 H1].
      apply Z.ltb_ge in H0, H1. lia. }
    rewrite (OnPacketArrival_phases _ _ _ _ Ht). cbv zeta.
    set (seq := fst (Unwrap (unwrapper_ p) sequence_number)).
    set (u := snd (Unwrap (unwrapper_ p) sequence_number)).
    change (packet_arrival_times_ (on_arrival p seq u arrival_time))
      with (window_on_arrival p seq arrival_time).
    pose proof (window_ok_on_arrival p seq arrival_time Hok) as Hw.
    assert (Hins : window_ok
                     (packet_arrival_times_
                        (stored_and_pruned (on_arrival p seq u arrival_time)
                           seq arrival_time))).
    { change (window_ok (window_after_insert seq arrival_time
                           (window_on_arrival p seq arrival_time))).
      apply window_ok_after_insert. exact (proj1 Hw). }
    destruct (find seq (window_on_arrival p seq arrival_time)).
    + now intros [= <-].
    + destruct request as [r|]; [|now intros [= <-]].
      intros H. apply SendFeedbackOnRequest_window in H.
      destruct H as (first & [-> | ->]); [|assumption].
      now apply window_ok_lower_bound.
Qed.

Lemma next_feedback_packet_count_range n :
  0 <= next_feedback_packet_count n < 256.
Proof. unfold next_feedback_packet_count. apply Z.mod_pos_bound. lia. Qed.

Lemma SendFeedbackOnRequest_count p seq request p' :
  0 <= feedback_packet_count_ p < 256 ->
  SendFeedbackOnRequest p seq request = Ok p' ->
  0 <= feedback_packet_count_ p' < 256.
Proof.
  intros Hc H. apply SendFeedbackOnRequest_result in H.
  destruct H as [->|(message & ->)]; [assumption|].
  apply next_feedback_packet_count_range.
Qed.

Lemma OnPacketArrival_count p sequence_number arrival_time request p' :
  0 <= feedback_packet_count_ p < 256 ->
  OnPacketArrival p sequence_number arrival_time request = Ok p' ->
  0 <= feedback_packet_count_ p' < 256.
Proof.
  intros Hc.
  destruct ((arrival_time <? 0) || (kMaxTimeMs <? arrival_time)) eqn:Hbounds.
  - unfold OnPacketArrival. rewrite Hbounds. now intros [= <-].
  - assert (Ht : 0 <= arrival_time <= kMaxTimeMs).
    { apply orb_false_iff in Hbounds. destruct Hbounds as [H0 H1].
      apply Z.ltb_ge in H0, H1. lia. }
    rewrite (OnPacketArrival_phases _ _ _ _ Ht). cbv zeta.
    destruct (find _ _); [now intros [= <-]|].
    destruct request as [r|]; [|now intros [= <-]].
    apply SendFeedbackOnRequest_count. exact Hc.
Qed.

(** What the loop of the periodic drain leaves alone, and where it stops. *)
Lemma SendPeriodicFeedbacks_loop_frame fuel :
  forall p p',
    SendPeriodicFeedbacks_loop fuel p = Ok p' ->
    other_members_kept p' p /\
    unwrapper_ p' = unwrapper_ p /\
    (0 <= feedback_packet_count_ p < 256 ->
     0 <= feedback_packet_count_ p' < 256) /\
    exists stop,
      periodic_window_start_seq_ p' = Some stop /\
      lower_bound stop (packet_arrival_times_ p') = [].
Proof.
  induction fuel as [|fuel IH]; intros p p'; cbn [SendPeriodicFeedbacks_loop];
    destruct (periodic_window_start_seq_ p) as [start|] eqn:Hc;
    try discriminate;
    destruct (iter_eqb (lower_bound start (packet_arrival_times_ p)) [])
      eqn:Hdone; try discriminate;
    try (intros [= <-]; split; [apply other_members_kept_refl|];
         split; [reflexivity|]; split; [tauto|];
         exists start; split; [exact Hc | now apply iter_eqb_nil]).
  destruct (BuildFeedbackPacket _ _ _ _ _ _) as [[m next]|f];
    cbn [bind]; [|discriminate].
  intros H. apply IH in H. destruct H as (Hother & Hu & Hcount & Hstop).
  split; [|split; [exact Hu|split; [|exact Hstop]]].
  - eapply other_members_kept_trans; [exact Hother|].
    unfold other_members_kept. repeat split.
  - intros _. apply Hcount. apply next_feedback_packet_count_range.
Qed.

Lemma Process_window_and_count now p p' :
  Process now p = Ok p' ->
  packet_arrival_times_ p' = packet_arrival_times_ p /\
  (0 <= feedback_packet_count_ p < 256 ->
   0 <= feedback_packet_count_ p' < 256).
Proof.
  unfold Process, SendPeriodicFeedbacks.
  destruct (send_periodic_feedback_ p); cbn [negb];
    [|intros [= <-]; tauto].
  change (periodic_window_start_seq_ (set_last_process_time_ms_ now p))
    with (periodic_window_start_seq_ p).
  destruct (periodic_window_start_seq_ p); [|intros [= <-]; tauto].
  intros H. split.
  - now apply SendPeriodicFeedbacks_loop_keeps in H.
  - apply SendPeriodicFeedbacks_loop_frame in H. tauto.
Qed.

(** X2: in every state that the public member functions can reach from a
    freshly constructed proxy, the keys of the arrival window are strictly
    ascending, its largest and its smallest key differ by at most 32768, and
    the feedback counter is an 8-bit number. *)
Theorem reachable_window_shape config alphacc p :
  reachable config alphacc p ->
  window_ok (packet_arrival_times_ p) /\
  0 <= feedback_packet_count_ p < 256.
Proof.
  induction 1 as [bwe_now redis_now
                 | p now arrival_time_ms payload_size header p' _ IH Hin
                 | p now p' _ IH Hprocess
                 | p bitrate_bps _ IH
                 | p b _ IH].
  - split; [split; [constructor | cbn; lia] | cbn; lia].
  - destruct IH as [Hw Hc].
    apply IncomingPacket_result in Hin.
    destruct Hin as [[_ ->]|(_ & p1 & Harrival & Hkept & _)]; [tauto|].
    destruct Hkept as (Hmap & _ & Hcount & _). rewrite Hmap, Hcount. split.
    + exact (OnPacketArrival_window_ok (set_media_ssrc_ (ssrc header) p)
               _ _ _ _ Hw Harrival).
    + exact (OnPacketArrival_count (set_media_ssrc_ (ssrc header) p)
               _ _ _ _ Hc Harrival).
  - destruct IH as [Hw Hc].
    apply Process_window_and_count in Hprocess.
    destruct Hprocess as [-> Hcount]. tauto.
  - exact IH.
  - exact IH.
Qed.

End Invariant.

(** ** More on the periodic drain *)

Section Drain.

Context {unwrapper_impl : SeqNumUnwrapper} {capacity : FeedbackCapacity}.

(** With nothing stored from the cursor on, the loop stops at once. *)
Lemma SendPeriodicFeedbacks_loop_drained fuel p stop :
  periodic_window_start_seq_ p = Some stop ->
  lower_bound stop (packet_arrival_times_ p) = [] ->
  SendPeriodicFeedbacks_loop fuel p = Ok p.
Proof.
  intros Hc Hrun. destruct fuel; cbn [SendPeriodicFeedbacks_loop];
    rewrite Hc, Hrun; reflexivity.
Qed.

(** X3: a periodic drain that follows a periodic drain, with no arrival in
    between, sends nothing and changes nothing but the time of the last
    tick: every arrival from the cursor on was covered by the first one. *)
Theorem second_drain_sends_nothing now now' p p' :
  Process now p = Ok p' ->
  Process now' p'
  = Ok (if send_periodic_feedback_ p
        then set_last_process_time_ms_ now' p'
        else p').
Proof.
  unfold Process at 1. unfold SendPeriodicFeedbacks.
  destruct (send_periodic_feedback_ p) eqn:Hon; cbn [negb].
  - change (periodic_window_start_seq_ (set_last_process_time_ms_ now p))
      with (periodic_window_start_seq_ p).
    destruct (periodic_window_start_seq_ p) as [start|] eqn:Hc.
    + intros H. apply SendPeriodicFeedbacks_loop_frame in H.
      destruct H as (Hother & _ & _ & stop & Hstop & Hrun).
      assert (Hon' : send_periodic_feedback_ p' = true).
      { destruct Hother as (_ & _ & _ & _ & Hflag & _). now rewrite Hflag. }
      unfold Process, SendPeriodicFeedbacks. rewrite Hon'. cbn [negb].
      change (periodic_window_start_seq_ (set_last_process_time_ms_ now' p'))
        with (periodic_window_start_seq_ p').
      rewrite Hstop.
      now apply (SendPeriodicFeedbacks_loop_drained _ _ stop).
    + intros [= <-]. unfold Process, SendPeriodicFeedbacks.
      change (send_periodic_feedback_ (set_last_process_time_ms_ now p))
        with (send_periodic_feedback_ p).
      rewrite Hon. cbn [negb].
      change (periodic_window_start_seq_
                (set_last_process_time_ms_ now'
                   (set_last_process_time_ms_ now p)))
        with (periodic_window_start_seq_ p).
      now rewrite Hc.
  - intros [= <-]. unfold Process. now rewrite Hon.
Qed.

Lemma Process_schedule now p p' :
  Process now p = Ok p' ->
  send_periodic_feedback_ p = true ->
  send_periodic_feedback_ p' = true /\
  send_interval_ms_ p' = send_interval_ms_ p /\
  last_process_time_ms_ p' = now.
Proof.
  unfold Process, SendPeriodicFeedbacks. intros H Hon. rewrite Hon in H.
  cbn [negb] in H.
  change (periodic_window_start_seq_ (set_last_process_time_ms_ now p))
    with (periodic_window_start_seq_ p) in H.
  destruct (periodic_window_start_seq_ p).
  - apply SendPeriodicFeedbacks_loop_frame in H.
    destruct H as ((_ & Hlast & _ & Hinterval & Hflag & _) & _).
    rewrite Hflag, Hinterval, Hlast. repeat split. exact Hon.
  - injection H as <-. repeat split. exact Hon.
Qed.

(** X4: after a tick at [now] the time until the next one is what is left of
    the send interval, and zero once the interval has passed: at the time
    [later], [max 0 (now + send_interval_ms_ - later)].  The clock reading -1
    is excepted: [last_process_time_ms_ = -1] stands for no tick yet. *)
Theorem TimeUntilNextProcess_after_Process now later p p' :
  Process now p = Ok p' ->
  send_periodic_feedback_ p = true ->
  now <> -1 ->
  TimeUntilNextProcess later p' = Z.max 0 (now + send_interval_ms_ p - later).
Proof.
  intros H Hon Hnow.
  destruct (Process_schedule now p p' H Hon) as (Hon' & Hinterval & Hlast).
  unfold TimeUntilNextProcess. rewrite Hon', Hinterval, Hlast. cbn [negb].
  destruct (Z.eqb_spec now (-1)); [contradiction|]. cbn [negb andb].
  destruct (Z.ltb_spec (later - now) (send_interval_ms_ p)); lia.
Qed.

Lemma advance_count_eq n count :
  0 <= count < 256 ->
  advance_count n count = (count + Z.of_nat n) mod 256.
Proof.
  intros Hc. induction n as [|n IH].
  - cbn. rewrite Z.add_0_r. symmetry. now apply Z.mod_small.
  - change (advance_count (S n) count)
      with (next_feedback_packet_count (advance_count n count)).
    rewrite IH. unfold next_feedback_packet_count.
    rewrite Z.add_mod_idemp_l by lia. f_equal. lia.
Qed.

Lemma periodic_messages_nth media_ssrc chunks :
  forall count base k x,
    nth_error (periodic_messages count media_ssrc base chunks) k = Some x ->
    exists m,
      x = SendTransportFeedback m /\
      tf_feedback_seq m = advance_count k count /\
      tf_media_ssrc m = media_ssrc /\
      include_timestamps_ m = true.
Proof.
  induction chunks as [|chunk chunks IH]; intros count base k x;
    cbn [periodic_messages].
  - destruct k; discriminate.
  - destruct k as [|k]; cbn [nth_error].
    + intros [= <-]. eexists. repeat split.
    + intros H. apply IH in H. destruct H as (m & -> & Hseq & Hssrc & Hts).
      exists m. repeat split; try assumption.
      now rewrite Hseq, advance_count_S.
Qed.

(** X5: a periodic drain numbers its messages with the 8-bit feedback counter:
    the k-th message it sends carries [(count + k) mod 256], the SSRC of the
    latest packet and timestamps, and the counter ends at
    [(count + n) mod 256] after [n] messages; nothing but these messages is
    handed to the sender. *)
Theorem periodic_drain_numbers_messages now p :
  first_record_fits ->
  sorted (packet_arrival_times_ p) ->
  0 <= feedback_packet_count_ p < 256 ->
  exists p' messages,
    Process now p = Ok p' /\
    feedback_sender_ p' = feedback_sender_ p ++ messages /\
    feedback_packet_count_ p'
    = (feedback_packet_count_ p + Z.of_nat (length messages)) mod 256 /\
    forall k x,
      nth_error messages k = Some x ->
      exists m,
        x = SendTransportFeedback m /\
        tf_feedback_seq m = (feedback_packet_count_ p + Z.of_nat k) mod 256 /\
        tf_media_ssrc m = media_ssrc_ p /\
        include_timestamps_ m = true.
Proof.
  intros Hfits Hs Hcount.
  assert (Hnone : forall q,
             feedback_sender_ q = feedback_sender_ p ->
             feedback_packet_count_ q = feedback_packet_count_ p ->
             Process now p = Ok q ->
             exists p' messages,
               Process now p = Ok p' /\
               feedback_sender_ p' = feedback_sender_ p ++ messages /\
               feedback_packet_count_ p'
               = (feedback_packet_count_ p + Z.of_nat (length messages))
                 mod 256 /\
               forall k x,
                 nth_error messages k = Some x ->
                 exists m,
                   x = SendTransportFeedback m /\
                   tf_feedback_seq m
                   = (feedback_packet_count_ p + Z.of_nat k) mod 256 /\
                   tf_media_ssrc m = media_ssrc_ p /\
                   include_timestamps_ m = true).
  { intros q Hsender Hq Hprocess. exists q, []. split; [exact Hprocess|].
    split; [now rewrite app_nil_r|]. split.
    - rewrite Hq. cbn [length Z.of_nat]. rewrite Z.add_0_r.
      symmetry. now apply Z.mod_small.
    - intros [|k] x; discriminate. }
  destruct (send_periodic_feedback_ p) eqn:Hon.
  - destruct (periodic_window_start_seq_ p) as [start|] eqn:Hc.
    + destruct (SendPeriodicFeedbacks_loop_spec
                  (length (packet_arrival_times_ p)) Hfits
                  (set_last_process_time_ms_ now p) start Hs Hc)
        as (chunks & _ & _ & Hloop); [apply lower_bound_length|].
      eexists. eexists. split; [|split; [|split]].
      * unfold Process, SendPeriodicFeedbacks. rewrite Hon. cbn [negb].
        change (periodic_window_start_seq_ (set_last_process_time_ms_ now p))
          with (periodic_window_start_seq_ p).
        rewrite Hc. exact Hloop.
      * reflexivity.
      * cbn [after_drain feedback_packet_count_ set_feedback_sender_
               set_periodic_window_start_seq_ set_feedback_packet_count_
               set_last_process_time_ms_].
        now apply advance_count_eq.
      * intros k x Hk.
        apply periodic_messages_nth in Hk.
        destruct Hk as (m & -> & Hseq & Hssrc & Hts).
        exists m. repeat split; try assumption.
        rewrite Hseq. now apply advance_count_eq.
    + apply (Hnone (set_last_process_time_ms_ now p)); try reflexivity.
      unfold Process, SendPeriodicFeedbacks. rewrite Hon. cbn [negb].
      change (periodic_window_start_seq_ (set_last_process_time_ms_ now p))
        with (periodic_window_start_seq_ p).
      now rewrite Hc.
  - apply (Hnone p); try reflexivity. unfold Process. now rewrite Hon.
Qed.

End Drain.

(** ** Messages with room to spare, and messages with none *)

Section Capacity.

Context {unwrapper_impl : SeqNumUnwrapper} {capacity : FeedbackCapacity}.

Lemma add_received_packets_all n :
  room_for n ->
  forall r e begin_iterator m next,
    (length (tf_packets m) + length r <= n)%nat ->
    add_received_packets (r ++ e) e begin_iterator m next
    = Ok (with_records m r, next_after next r).
Proof.
  intros Hroom. induction r as [|[k v] r IH]; intros e begin_iterator m next Hn.
  - rewrite with_records_nil. apply add_received_packets_end.
  - rewrite add_received_packets_step.
    destruct (AddReceivedPacket m (Z.land k 65535) (v * 1000)) as [x|] eqn:Ex.
    + rewrite IH.
      * now rewrite next_after_cons, (with_records_cons m k v r x Ex).
      * unfold AddReceivedPacket in Ex.
        destruct (has_room m (Z.land k 65535) (v * 1000)); [|discriminate].
        injection Ex as <-. cbn [tf_packets]. rewrite length_app.
        cbn [length] in *. lia.
    + unfold AddReceivedPacket in Ex. rewrite Hroom in Ex; [discriminate|].
      cbn [length] in Hn. lia.
Qed.

(** With room for the whole range, one message covers it. *)
Lemma BuildFeedbackPacket_all n count media_ssrc base r e m :
  room_for n -> r <> [] -> (length r <= n)%nat -> tf_packets m = [] ->
  BuildFeedbackPacket count media_ssrc base (r ++ e) e m
  = Ok (feedback_message (include_timestamps_ m) count media_ssrc base r,
        next_after base r).
Proof.
  intros Hroom Hr Hn Hm. destruct r as [|[k v] r]; [contradiction|].
  rewrite BuildFeedbackPacket_unfold.
  rewrite (add_received_packets_all n Hroom ((k, v) :: r)).
  - unfold with_records, feedback_message. cbn. now rewrite Hm.
  - cbn [tf_packets SetFeedbackSequenceNumber SetBase SetMediaSsrc].
    rewrite Hm. cbn [length] in *. lia.
Qed.

(** X6: when the arrivals stored from the cursor on fit one message, the
    periodic drain sends exactly one: its base is the cursor truncated to 16
    bits, its reference time the arrival time of the first of them in
    microseconds, its records are all of them, in order, as 16-bit sequence
    numbers and microseconds, and the cursor moves one past the last. *)
Theorem periodic_drain_single_message n now p start :
  room_for n ->
  sorted (packet_arrival_times_ p) ->
  send_periodic_feedback_ p = true ->
  periodic_window_start_seq_ p = Some start ->
  lower_bound start (packet_arrival_times_ p) <> [] ->
  (length (lower_bound start (packet_arrival_times_ p)) <= n)%nat ->
  Process now p
  = Ok (after_drain (set_last_process_time_ms_ now p)
          [SendTransportFeedback
             (feedback_message true (feedback_packet_count_ p) (media_ssrc_ p)
                start (lower_bound start (packet_arrival_times_ p)))]
          (next_after start (lower_bound start (packet_arrival_times_ p)))).
Proof.
  intros Hroom Hs Hon Hc Hrun Hn.
  unfold Process, SendPeriodicFeedbacks. rewrite Hon. cbn [negb].
  change (periodic_window_start_seq_ (set_last_process_time_ms_ now p))
    with (periodic_window_start_seq_ p).
  change (packet_arrival_times_ (set_last_process_time_ms_ now p))
    with (packet_arrival_times_ p).
  rewrite Hc.
  pose proof (lower_bound_length start (packet_arrival_times_ p)) as Hlen.
  destruct (length (packet_arrival_times_ p)) as [|fuel] eqn:Hfuel.
  { exfalso. apply Hrun. apply length_zero_iff_nil. lia. }
  cbn [SendPeriodicFeedbacks_loop].
  change (periodic_window_start_seq_ (set_last_process_time_ms_ now p))
    with (periodic_window_start_seq_ p).
  change (packet_arrival_times_ (set_last_process_time_ms_ now p))
    with (packet_arrival_times_ p).
  rewrite Hc, (iter_eqb_nil_false _ Hrun).
  set (run := lower_bound start (packet_arrival_times_ p)) in *.
  pose proof (BuildFeedbackPacket_all n (feedback_packet_count_ p)
                (media_ssrc_ p) start run [] (TransportFeedback_new true)
                Hroom Hrun Hn eq_refl) as Hbuild.
  rewrite app_nil_r in Hbuild.
  change (feedback_packet_count_ (set_last_process_time_ms_ now p))
    with (feedback_packet_count_ p).
  change (media_ssrc_
            (set_feedback_packet_count_
               (next_feedback_packet_count (feedback_packet_count_ p))
               (set_last_process_time_ms_ now p)))
    with (media_ssrc_ p).
  rewrite Hbuild. cbn [bind].
  apply (SendPeriodicFeedbacks_loop_drained _ _ (next_after start run)).
  - reflexivity.
  - apply (lower_bound_after_chunk (packet_arrival_times_ p) start run []);
      [assumption | now rewrite app_nil_r | assumption].
Qed.

(** X7: when a message has room for K records, a request with count K is
    answered in full: the one message sent carries every stored arrival with
    a sequence number in [[seq-K+1, seq]], in order, and nothing else. *)
Theorem on_demand_feedback_in_full n p seq request :
  room_for n ->
  sorted (packet_arrival_times_ p) ->
  0 < sequence_count request <= Z.of_nat n ->
  entries_between (seq - sequence_count request + 1) seq
    (packet_arrival_times_ p) <> [] ->
  SendFeedbackOnRequest p seq request
  = Ok (after_request p
          (feedback_message (include_timestamps request)
             (feedback_packet_count_ p) (media_ssrc_ p)
             (seq - sequence_count request + 1)
             (entries_between (seq - sequence_count request + 1) seq
                (packet_arrival_times_ p)))
          (seq - sequence_count request + 1)).
Proof.
  intros Hroom Hs HK Hpresent.
  set (first := seq - sequence_count request + 1) in *.
  rewrite SendFeedbackOnRequest_nonzero by lia. fold first.
  rewrite (requested_range first seq (packet_arrival_times_ p) Hs)
    by (unfold first; lia).
  rewrite (BuildFeedbackPacket_all n); [reflexivity | assumption | assumption | | reflexivity].
  assert (Hsorted : sorted (entries_between first seq (packet_arrival_times_ p)))
    by (now apply sorted_filter).
  assert (Hin : Forall (fun e => first <= fst e <= seq)
                  (entries_between first seq (packet_arrival_times_ p))).
  { apply Forall_forall. intros e He. now apply entries_between_In in He. }
  pose proof (sorted_length_bound _ first seq Hsorted Hin Hpresent).
  unfold first in *. lia.
Qed.

(** X8: when the wire format refuses the first record of a fresh message, the
    periodic drain does not return: [BuildFeedbackPacket] stops at its
    RTC_CHECK, before anything is sent. *)
Theorem periodic_drain_first_record_refused now p start k v rest :
  send_periodic_feedback_ p = true ->
  periodic_window_start_seq_ p = Some start ->
  lower_bound start (packet_arrival_times_ p) = (k, v) :: rest ->
  has_room
    (initialised_message true (feedback_packet_count_ p) (media_ssrc_ p)
       start v)
    (Z.land k 65535) (v * 1000) = false ->
  Process now p = Err CheckFailed.
Proof.
  intros Hon Hc Hrun Hrefused.
  unfold Process, SendPeriodicFeedbacks. rewrite Hon. cbn [negb].
  change (periodic_window_start_seq_ (set_last_process_time_ms_ now p))
    with (periodic_window_start_seq_ p).
  change (packet_arrival_times_ (set_last_process_time_ms_ now p))
    with (packet_arrival_times_ p).
  rewrite Hc.
  pose proof (lower_bound_length start (packet_arrival_times_ p)) as Hlen.
  rewrite Hrun in Hlen. cbn [length] in Hlen.
  destruct (length (packet_arrival_times_ p)) as [|fuel]; [lia|].
  cbn [SendPeriodicFeedbacks_loop].
  change (periodic_window_start_seq_ (set_last_process_time_ms_ now p))
    with (periodic_window_start_seq_ p).
  change (packet_arrival_times_ (set_last_process_time_ms_ now p))
    with (packet_arrival_times_ p).
  rewrite Hc, Hrun, iter_eqb_nil_false by discriminate.
  change (feedback_packet_count_ (set_last_process_time_ms_ now p))
    with (feedback_packet_count_ p).
  change (media_ssrc_
            (set_feedback_packet_count_
               (next_feedback_packet_count (feedback_packet_count_ p))
               (set_last_process_time_ms_ now p)))
    with (media_ssrc_ p).
  rewrite <- (app_nil_r ((k, v) :: rest)).
  rewrite BuildFeedbackPacket_unfold, add_received_packets_step.
  unfold AddReceivedPacket.
  change (SetFeedbackSequenceNumber
            (SetBase (SetMediaSsrc (TransportFeedback_new true) (media_ssrc_ p))
               (Z.land start 65535) (v * 1000))
            (feedback_packet_count_ p))
    with (initialised_message true (feedback_packet_count_ p) (media_ssrc_ p)
            start v).
  rewrite Hrefused, iter_eqb_refl. reflexivity.
Qed.

End Capacity.

(** ** Sequence numbers on the wire *)

Section Wire.

Lemma wire_sequence_number k : Z.land k 65535 = k mod 65536.
Proof. change 65535 with (Z.ones 16). now rewrite Z.land_ones by lia. Qed.

Lemma sorted_unique_keys m k v1 v2 :
  sorted m -> In (k, v1) m -> In (k, v2) m -> v1 = v2.
Proof.
  induction 1 as [|k' v' m Hall Hs IH]; [contradiction|].
  intros [H1|H1] [H2|H2].
  - congruence.
  - injection H1 as -> ->.
    apply (proj1 (Forall_forall _ _) Hall) in H2. cbn [fst] in H2. lia.
  - injection H2 as -> ->.
    apply (proj1 (Forall_forall _ _) Hall) in H1. cbn [fst] in H1. lia.
  - now apply IH.
Qed.

Lemma span_covers_keys m e1 e2 :
  sorted m -> In e1 m -> In e2 m -> fst e1 - fst e2 <= span m.
Proof.
  intros Hs H1 H2.
  destruct m as [|[k v] l] eqn:E; [contradiction|]. rewrite <- E in *.
  destruct (last_key_nonempty m) as [hi Hhi]; [rewrite E; discriminate|].
  assert (Hlo : first_key m = Some k) by (now rewrite E).
  pose proof (sorted_keys_between m k hi Hs Hlo Hhi) as Hkeys.
  unfold span. rewrite Hlo, Hhi.
  apply (proj1 (Forall_forall _ _) Hkeys) in H1.
  apply (proj1 (Forall_forall _ _) Hkeys) in H2. lia.
Qed.

(** X9: the truncation of sequence numbers to 16 bits loses nothing within a
    window: in a window with strictly ascending keys that span at most 32768,
    two stored arrivals with the same 16-bit sequence number on the wire are
    the same arrival; and every wire sequence number is a 16-bit number. *)
Theorem wire_sequence_numbers_distinct m e1 e2 :
  window_ok m -> In e1 m -> In e2 m ->
  fst (wire e1) = fst (wire e2) ->
  e1 = e2 /\ 0 <= fst (wire e1) < 65536.
Proof.
  intros [Hs Hspan] H1 H2. unfold wire. cbn [fst].
  rewrite !wire_sequence_number. intros Hwire.
  pose proof (span_covers_keys m e1 e2 Hs H1 H2) as H12.
  pose proof (span_covers_keys m e2 e1 Hs H2 H1) as H21.
  split; [|apply Z.mod_pos_bound; lia].
  destruct e1 as [k1 v1], e2 as [k2 v2]. cbn [fst] in *.
  assert (Hk : k1 = k2).
  { pose proof (Z.div_mod k1 65536 ltac:(lia)) as D1.
    pose proof (Z.div_mod k2 65536 ltac:(lia)) as D2.
    rewrite Hwire in D1. lia. }
  subst k2. f_equal. exact (sorted_unique_keys m k1 v1 v2 Hs H1 H2).
Qed.

End Wire.

(** ** Storing an arrival *)

Section Storing.

Context {unwrapper_impl : SeqNumUnwrapper} {capacity : FeedbackCapacity}.

Lemma find_assign_same k v m : find k (assign k v m) = Some v.
Proof.
  induction m as [|[k' v'] m IH]; cbn [assign find].
  - now rewrite Z.eqb_refl.
  - destruct (Z.ltb_spec k k'); cbn [find].
    + now rewrite Z.eqb_refl.
    + destruct (Z.eqb_spec k k'); cbn [find].
      * now rewrite Z.eqb_refl.
      * destruct (Z.eqb_spec k' k); [congruence | exact IH].
Qed.

Lemma find_In_sorted k v m : sorted m -> In (k, v) m -> find k m = Some v.
Proof.
  induction 1 as [|k' v' m Hall Hs IH]; [contradiction|].
  intros [H|H]; cbn [find].
  - injection H as -> ->. now rewrite Z.eqb_refl.
  - destruct (Z.eqb_spec k' k) as [->|_]; [|now apply IH].
    apply (proj1 (Forall_forall _ _) Hall) in H. cbn [fst] in H. lia.
Qed.

Lemma find_lower_bound b k m :
  b <= k -> find k (lower_bound b m) = find k m.
Proof.
  intros Hb. destruct (lower_bound_split b m) as (pre & Hm & Hpre).
  rewrite Hm at 2. rewrite find_app_skip; [reflexivity|].
  eapply Forall_impl; [|exact Hpre]. cbn beta. intros. lia.
Qed.

Lemma find_lower_bound_below b k m :
  sorted m -> k < b -> find k (lower_bound b m) = None.
Proof.
  intros Hs Hk. apply find_None. intros Hin. apply in_map_iff in Hin.
  destruct Hin as ([k' v'] & Hfst & Hin). cbn [fst] in Hfst. subst k'.
  apply (proj1 (Forall_forall _ _) (lower_bound_ge b m Hs)) in Hin.
  cbn [fst] in Hin. lia.
Qed.

Lemma assign_keeps e k v m :
  find k m = None -> In e m -> In e (assign k v m).
Proof.
  intros Hfind. apply find_None in Hfind.
  induction m as [|[k' v'] m IH]; [contradiction|].
  cbn [assign]. cbn [keys map fst] in Hfind. intros He.
  destruct (Z.ltb_spec k k'); [now right|].
  destruct (Z.eqb_spec k k') as [->|_]; [exfalso; apply Hfind; now left|].
  destruct He as [<-|Hin]; [now left|]. right. apply IH; [|assumption].
  intros H'. apply Hfind. now right.
Qed.

(** X10: storing and looking up.  A packet whose sequence number is not yet
    stored, arriving within bounds without a feedback request, is stored with
    its arrival time and found under its sequence number afterwards, unless a
    stored key lies more than 32768 ahead of it, in which case it is dropped
    at once; and every entry of the window afterwards is this arrival or was
    there before. *)
Theorem stored_arrival_is_found p sequence_number arrival_time :
  sorted (packet_arrival_times_ p) ->
  0 <= arrival_time <= kMaxTimeMs ->
  find (fst (Unwrap (unwrapper_ p) sequence_number))
    (packet_arrival_times_ p) = None ->
  exists p',
    OnPacketArrival p sequence_number arrival_time None = Ok p' /\
    let seq := fst (Unwrap (unwrapper_ p) sequence_number) in
    (find seq (packet_arrival_times_ p') = Some arrival_time \/
     (find seq (packet_arrival_times_ p') = None /\
      exists e, In e (packet_arrival_times_ p') /\ seq + 32768 < fst e)) /\
    (forall e, In e (packet_arrival_times_ p') ->
               e = (seq, arrival_time) \/ In e (packet_arrival_times_ p)).
Proof.
  intros Hs Ht Hfind.
  rewrite (OnPacketArrival_phases _ _ _ _ Ht). cbv zeta.
  set (seq := fst (Unwrap (unwrapper_ p) sequence_number)) in *.
  set (u := snd (Unwrap (unwrapper_ p) sequence_number)).
  change (packet_arrival_times_ (on_arrival p seq u arrival_time))
    with (window_on_arrival p seq arrival_time).
  rewrite window_on_arrival_find, Hfind.
  eexists. split; [reflexivity|].
  change (packet_arrival_times_
            (stored_and_pruned (on_arrival p seq u arrival_time) seq
               arrival_time))
    with (window_after_insert seq arrival_time
            (window_on_arrival p seq arrival_time)).
  set (w := window_on_arrival p seq arrival_time).
  assert (Hw : sorted w) by (now apply window_on_arrival_sorted).
  pose proof (assign_sorted seq arrival_time w Hw) as Hstored.
  rewrite window_after_insert_eq. split.
  - destruct (Z.le_gt_cases (newest_key seq arrival_time w - kMaxNumberOfPackets)
                seq) as [Hkept|Hdropped].
    + left. rewrite find_lower_bound by assumption. apply find_assign_same.
    + right. split; [now apply find_lower_bound_below|].
      unfold newest_key in *.
      destruct (last_key_nonempty (assign seq arrival_time w)
                  (assign_nonempty seq arrival_time w)) as [newest Hn].
      rewrite Hn in *. change kMaxNumberOfPackets with 32768 in *.
      pose proof (last_key_In _ _ Hn) as Hin. apply in_map_iff in Hin.
      destruct Hin as (e & Hfst & Hin). exists e. split; [|lia].
      destruct (lower_bound_split (newest - 32768) (assign seq arrival_time w))
        as (pre & Hm & Hpre).
      rewrite Hm in Hin. apply in_app_or in Hin. destruct Hin as [Hin|Hin];
        [|assumption].
      apply (proj1 (Forall_forall _ _) Hpre) in Hin. lia.
  - intros e He. apply lower_bound_In, assign_In in He.
    destruct He as [->|He]; [now left|].
    right. now apply (window_on_arrival_In p seq arrival_time).
Qed.

(** Culling, as the loop does it: it erases from the front while the entry
    is older than the arriving packet in sequence and by at least the back
    window in time, and stops at the first entry that is not. *)
Lemma cull_old_packets_erased seq t w m :
  exists erased,
    m = erased ++ cull_old_packets seq t w m /\
    Forall (fun e => fst e < seq /\ w <= t - snd e) erased /\
    match cull_old_packets seq t w m with
    | [] => True
    | e :: _ => ~ (fst e < seq /\ w <= t - snd e)
    end.
Proof.
  induction m as [|[k v] m (erased & Hm & Herased & Hstop)];
    cbn [cull_old_packets].
  - exists []. repeat split; constructor.
  - destruct ((k <? seq) && (w <=? t - v)) eqn:E.
    + exists ((k, v) :: erased). split; [cbn [app]; congruence|].
      split; [|exact Hstop]. constructor; [|assumption].
      apply andb_true_iff in E. destruct E as [E1 E2].
      apply Z.ltb_lt in E1. apply Z.leb_le in E2. cbn [fst snd]. lia.
    + exists []. split; [reflexivity|]. split; [constructor|].
      cbn [fst snd]. intros [H1 H2].
      apply andb_false_iff in E. destruct E as [E|E];
        [apply Z.ltb_ge in E | apply Z.leb_gt in E]; lia.
Qed.

(** X11: what a packet arrival can erase.  When a packet arrives within
    bounds without a feedback request, an arrival stored before is still
    stored afterwards if its sequence number is not smaller than the packet's
    and at most 32768 behind the largest key; the time-based culling never
    erases an arrival with a sequence number at or above the packet's, and
    none that arrived less than the back window before it. *)
Theorem arrival_erases_only_old_entries p sequence_number arrival_time e :
  sorted (packet_arrival_times_ p) ->
  0 <= arrival_time <= kMaxTimeMs ->
  In e (packet_arrival_times_ p) ->
  let seq := fst (Unwrap (unwrapper_ p) sequence_number) in
  (seq <= fst e \/ arrival_time - snd e < back_window (send_config_ p) ->
   In e (window_on_arrival p seq arrival_time)) /\
  (seq <= fst e ->
   forall p',
     OnPacketArrival p sequence_number arrival_time None = Ok p' ->
     (forall e', In e' (packet_arrival_times_ p') -> fst e' <= fst e + 32768) ->
     In e (packet_arrival_times_ p')).
Proof.
  intros Hs Ht He seq.
  assert (Hkept : seq <= fst e \/
                  arrival_time - snd e < back_window (send_config_ p) ->
                  In e (window_on_arrival p seq arrival_time)).
  { intros Hcase. unfold window_on_arrival.
    destruct (send_periodic_feedback_ p); [|assumption].
    destruct (periodic_window_start_seq_ p) as [start|]; [|assumption].
    destruct (iter_eqb _ _); [|assumption].
    destruct (cull_old_packets_erased seq arrival_time
                (back_window (send_config_ p)) (packet_arrival_times_ p))
      as (erased & Hm & Herased & _).
    rewrite Hm in He. apply in_app_or in He. destruct He as [He|He];
      [|assumption].
    apply (proj1 (Forall_forall _ _) Herased) in He. lia. }
  split; [exact Hkept|].
  intros Hseq p'. rewrite (OnPacketArrival_phases _ _ _ _ Ht). cbv zeta.
  fold seq. set (u := snd (Unwrap (unwrapper_ p) sequence_number)).
  change (packet_arrival_times_ (on_arrival p seq u arrival_time))
    with (window_on_arrival p seq arrival_time).
  specialize (Hkept (or_introl Hseq)).
  destruct (find seq (window_on_arrival p seq arrival_time)) eqn:Hfind.
  - intros [= <-] _. exact Hkept.
  - intros [= <-].
    change (packet_arrival_times_
              (stored_and_pruned (on_arrival p seq u arrival_time) seq
                 arrival_time))
      with (window_after_insert seq arrival_time
              (window_on_arrival p seq arrival_time)).
    set (w := window_on_arrival p seq arrival_time) in *.
    rewrite window_after_insert_eq. intros Hnear.
    assert (Hw : sorted w) by (now apply window_on_arrival_sorted).
    pose proof (assign_sorted seq arrival_time w Hw) as Hstored.
    assert (Hin : In e (assign seq arrival_time w))
      by (now apply assign_keeps).
    destruct (lower_bound_split
                (newest_key seq arrival_time w - kMaxNumberOfPackets)
                (assign seq arrival_time w)) as (pre & Hm & Hpre).
    rewrite Hm in Hin. apply in_app_or in Hin. destruct Hin as [Hin|Hin];
      [|assumption].
    exfalso.
    unfold newest_key in Hpre, Hm, Hnear.
    destruct (last_key_nonempty (assign seq arrival_time w)
                (assign_nonempty seq arrival_time w)) as [newest Hn].
    rewrite Hn in Hpre, Hm, Hnear. change kMaxNumberOfPackets with 32768 in *.
    apply (proj1 (Forall_forall _ _) Hpre) in Hin.
    pose proof (last_key_In _ _ Hn) as Hlast. apply in_map_iff in Hlast.
    destruct Hlast as (x & Hfst & Hx).
    rewrite Hm in Hx. apply in_app_or in Hx. destruct Hx as [Hx|Hx].
    + apply (proj1 (Forall_forall _ _) Hpre) in Hx. lia.
    + specialize (Hnear x Hx). lia.
Qed.

End Storing.

(** ** From arrival to feedback *)

Section Delivery.

Context {unwrapper_impl : SeqNumUnwrapper} {capacity : FeedbackCapacity}.

Lemma periodic_messages_chunk chunk chunks :
  In chunk chunks ->
  forall count media_ssrc base,
  exists message,
    In (SendTransportFeedback message)
      (periodic_messages count media_ssrc base chunks) /\
    tf_packets message = map wire chunk.
Proof.
  induction chunks as [|c chunks IH]; [contradiction|].
  intros [->|Hin] count media_ssrc base; cbn [periodic_messages].
  - eexists. split; [left; reflexivity | reflexivity].
  - destruct (IH Hin (next_feedback_packet_count count) media_ssrc
                (next_after base c)) as (message & Hm & Hp).
    exists message. split; [now right | exact Hp].
Qed.

Lemma In_lower_bound e b m : In e m -> b <= fst e -> In e (lower_bound b m).
Proof.
  intros Hin Hb. destruct (lower_bound_split b m) as (pre & Hm & Hpre).
  rewrite Hm in Hin. apply in_app_or in Hin. destruct Hin as [Hin|Hin];
    [|assumption].
  apply (proj1 (Forall_forall _ _) Hpre) in Hin. lia.
Qed.

Lemma find_Some_In k v m : find k m = Some v -> In (k, v) m.
Proof.
  induction m as [|[k' v'] m IH]; cbn [find]; [discriminate|].
  destruct (Z.eqb_spec k' k) as [->|_].
  - intros [= ->]. now left.
  - intros H. right. now apply IH.
Qed.

Lemma first_key_le_In m lo e :
  sorted m -> first_key m = Some lo -> In e m -> lo <= fst e.
Proof.
  intros Hs Hlo Hin.
  destruct (last_key_nonempty m) as [hi Hhi];
    [destruct m; [discriminate Hlo | discriminate]|].
  pose proof (sorted_keys_between m lo hi Hs Hlo Hhi) as Hkeys.
  apply (proj1 (Forall_forall _ _) Hkeys) in Hin. lia.
Qed.

(** After an arrival with periodic feedback enabled the cursor is set, and
    not above any sequence number that is stored at or above the packet's. *)
Lemma cursor_after_arrival p sequence_number arrival_time p' :
  sorted (packet_arrival_times_ p) ->
  send_periodic_feedback_ p = true ->
  0 <= arrival_time <= kMaxTimeMs ->
  OnPacketArrival p sequence_number arrival_time None = Ok p' ->
  forall v,
    find (fst (Unwrap (unwrapper_ p) sequence_number))
      (packet_arrival_times_ p') = Some v ->
    exists start,
      periodic_window_start_seq_ p' = Some start /\
      start <= fst (Unwrap (unwrapper_ p) sequence_number).
Proof.
  intros Hs Hon Ht. rewrite (OnPacketArrival_phases _ _ _ _ Ht). cbv zeta.
  set (seq := fst (Unwrap (unwrapper_ p) sequence_number)).
  set (u := snd (Unwrap (unwrapper_ p) sequence_number)).
  assert (Hcursor : exists c, cursor_on_arrival p seq = Some c /\ c <= seq).
  { unfold cursor_on_arrival. rewrite Hon.
    destruct (periodic_window_start_seq_ p) as [start|].
    - destruct (Z.ltb_spec seq start); eexists; (split; [reflexivity | lia]).
    - eexists. split; [reflexivity | lia]. }
  destruct Hcursor as (c & Hc & Hle).
  change (packet_arrival_times_ (on_arrival p seq u arrival_time))
    with (window_on_arrival p seq arrival_time).
  destruct (find seq (window_on_arrival p seq arrival_time)) eqn:Hfind.
  - intros [= <-] v _. exists c. split; [exact Hc | exact Hle].
  - intros [= <-] v.
    change (packet_arrival_times_
              (stored_and_pruned (on_arrival p seq u arrival_time) seq
                 arrival_time))
      with (window_after_insert seq arrival_time
              (window_on_arrival p seq arrival_time)).
    change (periodic_window_start_seq_
              (stored_and_pruned (on_arrival p seq u arrival_time) seq
                 arrival_time))
      with (cursor_after_insert (send_periodic_feedback_ p)
              (cursor_on_arrival p seq) seq arrival_time
              (window_on_arrival p seq arrival_time)).
    set (w := window_on_arrival p seq arrival_time).
    assert (Hw : sorted w) by (now apply window_on_arrival_sorted).
    pose proof (assign_sorted seq arrival_time w Hw) as Hstored.
    rewrite window_after_insert_eq. intros Hv.
    unfold cursor_after_insert. cbv zeta. rewrite Hon, Hc.
    destruct (iter_eqb _ _); [exists c; now split|].
    apply find_Some_In in Hv.
    set (kept := lower_bound (newest_key seq arrival_time w - kMaxNumberOfPackets)
                   (assign seq arrival_time w)) in *.
    destruct kept as [|[k0 v0] kept'] eqn:Hkept; [contradiction|].
    exists k0. split; [reflexivity|].
    assert (Hsk : sorted kept) by (now apply lower_bound_sorted).
    rewrite Hkept in Hsk.
    exact (first_key_le_In ((k0, v0) :: kept') k0 (seq, v) Hsk eq_refl Hv).
Qed.

(** X12: an arrival is reported by the next periodic drain.  With periodic
    feedback enabled, when a packet arrives within bounds without a feedback
    request and its sequence number is stored afterwards, the next call of
    [Process] returns and hands to the feedback sender a transport feedback
    message that carries the packet's 16-bit sequence number with the stored
    arrival time.  The wire format is assumed to accept the first record of a
    fresh message. *)
Theorem stored_arrival_reported_by_next_drain now p sequence_number
  arrival_time p1 v :
  first_record_fits ->
  sorted (packet_arrival_times_ p) ->
  send_periodic_feedback_ p = true ->
  0 <= arrival_time <= kMaxTimeMs ->
  OnPacketArrival p sequence_number arrival_time None = Ok p1 ->
  find (fst (Unwrap (unwrapper_ p) sequence_number))
    (packet_arrival_times_ p1) = Some v ->
  exists p2 messages message,
    Process now p1 = Ok p2 /\
    feedback_sender_ p2 = feedback_sender_ p1 ++ messages /\
    In (SendTransportFeedback message) messages /\
    In (Z.land (fst (Unwrap (unwrapper_ p) sequence_number)) 65535, v * 1000)
      (tf_packets message).
Proof.
  intros Hfits Hs Hon Ht Harrival Hv.
  set (seq := fst (Unwrap (unwrapper_ p) sequence_number)) in *.
  destruct (cursor_after_arrival p sequence_number arrival_time p1 Hs Hon Ht
              Harrival v Hv) as (start & Hc & Hle).
  assert (Hs1 : sorted (packet_arrival_times_ p1)).
  { revert Harrival. rewrite (OnPacketArrival_phases _ _ _ _ Ht). cbv zeta.
    fold seq.
    set (u := snd (Unwrap (unwrapper_ p) sequence_number)).
    change (packet_arrival_times_ (on_arrival p seq u arrival_time))
      with (window_on_arrival p seq arrival_time).
    pose proof (window_on_arrival_sorted p seq arrival_time Hs) as Hw.
    destruct (find seq (window_on_arrival p seq arrival_time)).
    - intros [= <-]. exact Hw.
    - intros [= <-].
      change (packet_arrival_times_
                (stored_and_pruned (on_arrival p seq u arrival_time) seq
                   arrival_time))
        with (window_after_insert seq arrival_time
                (window_on_arrival p seq arrival_time)).
      now apply window_after_insert_sorted. }
  assert (Hon1 : send_periodic_feedback_ p1 = true).
  { destruct (OnPacketArrival_frame _ _ _ _ _ Harrival)
      as (_ & _ & _ & _ & H & _). congruence. }
  destruct (SendPeriodicFeedbacks_loop_spec
              (length (packet_arrival_times_ p1)) Hfits
              (set_last_process_time_ms_ now p1) start Hs1 Hc)
    as (chunks & Hcat & Hne & Hloop).
  { apply lower_bound_length. }
  change (packet_arrival_times_ (set_last_process_time_ms_ now p1))
    with (packet_arrival_times_ p1) in Hcat.
  assert (Hin : In (seq, v) (concat chunks)).
  { rewrite Hcat. apply In_lower_bound; [now apply find_Some_In | exact Hle]. }
  apply in_concat in Hin. destruct Hin as (chunk & Hchunk & Hin).
  destruct (periodic_messages_chunk chunk chunks Hchunk
              (feedback_packet_count_ p1) (media_ssrc_ p1) start)
    as (message & Hmessage & Hpackets).
  eexists. exists (periodic_messages (feedback_packet_count_ p1)
                     (media_ssrc_ p1) start chunks), message.
  split; [|split; [|split]].
  - unfold Process, SendPeriodicFeedbacks. rewrite Hon1. cbn [negb].
    change (periodic_window_start_seq_ (set_last_process_time_ms_ now p1))
      with (periodic_window_start_seq_ p1).
    rewrite Hc. exact Hloop.
  - reflexivity.
  - exact Hmessage.
  - rewrite Hpackets.
    change (Z.land seq 65535, v * 1000) with (wire (seq, v)).
    now apply in_map.
Qed.

(** X13: with periodic feedback disabled the periodic machinery stands
    still.  Once [SetSendPeriodicFeedback(false)] was called, [Process]
    returns at once and changes nothing, and a packet that arrives without a
    feedback request neither moves the periodic cursor nor culls the window
    by time: an arrival stored before is erased only if it lies more than
    32768 below a key that is stored afterwards. *)
Theorem disabled_periodic_feedback_stands_still p now sequence_number
  arrival_time p' :
  let q := SetSendPeriodicFeedback false p in
  Process now q = Ok q /\
  (OnPacketArrival q sequence_number arrival_time None = Ok p' ->
   periodic_window_start_seq_ p' = periodic_window_start_seq_ p /\
   send_periodic_feedback_ p' = false /\
   forall e, In e (packet_arrival_times_ p) ->
             In e (packet_arrival_times_ p') \/
             exists e', In e' (packet_arrival_times_ p') /\
                        fst e + 32768 < fst e').
Proof.
  cbv zeta. unfold SetSendPeriodicFeedback.
  set (q := set_send_periodic_feedback_ false p).
  split; [reflexivity|].
  destruct ((arrival_time <? 0) || (kMaxTimeMs <? arrival_time)) eqn:Hbounds.
  { unfold OnPacketArrival. rewrite Hbounds. intros [= <-].
    split; [reflexivity|]. split; [reflexivity|]. intros e He. now left. }
  assert (Ht : 0 <= arrival_time <= kMaxTimeMs).
  { apply orb_false_iff in Hbounds. destruct Hbounds as [H0 H1].
    apply Z.ltb_ge in H0, H1. lia. }
  rewrite (OnPacketArrival_phases _ _ _ _ Ht). cbv zeta.
  change (unwrapper_ q) with (unwrapper_ p).
  set (seq := fst (Unwrap (unwrapper_ p) sequence_number)).
  set (u := snd (Unwrap (unwrapper_ p) sequence_number)).
  change (packet_arrival_times_ (on_arrival q seq u arrival_time))
    with (packet_arrival_times_ p).
  destruct (find seq (packet_arrival_times_ p)) eqn:Hfind.
  - intros [= <-]. split; [reflexivity|]. split; [reflexivity|].
    intros e He. now left.
  - intros [= <-]. split; [|split; [reflexivity|]].
    + change (periodic_window_start_seq_
                (stored_and_pruned (on_arrival q seq u arrival_time) seq
                   arrival_time))
        with (cursor_after_insert false (periodic_window_start_seq_ p) seq
                arrival_time (packet_arrival_times_ p)).
      unfold cursor_after_insert. cbv zeta. now destruct (iter_eqb _ _).
    + change (packet_arrival_times_
                (stored_and_pruned (on_arrival q seq u arrival_time) seq
                   arrival_time))
        with (window_after_insert seq arrival_time (packet_arrival_times_ p)).
      rewrite window_after_insert_eq. intros e He.
      set (m := packet_arrival_times_ p) in *.
      assert (Hin : In e (assign seq arrival_time m))
        by (now apply assign_keeps).
      destruct (lower_bound_split
                  (newest_key seq arrival_time m - kMaxNumberOfPackets)
                  (assign seq arrival_time m)) as (pre & Hm & Hpre).
      rewrite Hm in Hin. apply in_app_or in Hin. destruct Hin as [Hin|Hin];
        [|now left].
      right. unfold newest_key in Hpre, Hm |- *.
      destruct (last_key_nonempty (assign seq arrival_time m)
                  (assign_nonempty seq arrival_time m)) as [newest Hn].
      rewrite Hn in Hpre, Hm |- *. change kMaxNumberOfPackets with 32768 in *.
      apply (proj1 (Forall_forall _ _) Hpre) in Hin.
      pose proof (last_key_In _ _ Hn) as Hlast. apply in_map_iff in Hlast.
      destruct Hlast as (x & Hfst & Hx).
      exists x. split; [|lia].
      rewrite Hm in Hx. apply in_app_or in Hx. destruct Hx as [Hx|Hx];
        [|assumption].
      apply (proj1 (Forall_forall _ _) Hpre) in Hx. lia.
Qed.

End Delivery.

(** ** The bookkeeping of [IncomingPacket] *)

Section Bookkeeping.

Context {unwrapper_impl : SeqNumUnwrapper} {capacity : FeedbackCapacity}
        {binary64 : Binary64} {telemetry : Telemetry}.

Lemma OnPacketArrival_application_packets p sequence_number arrival_time
  request p' :
  OnPacketArrival p sequence_number arrival_time request = Ok p' ->
  application_packets (feedback_sender_ p')
  = application_packets (feedback_sender_ p).
Proof.
  intros H. apply OnPacketArrival_sent in H.
  destruct H as [->|(_ & message & ->)]; [reflexivity|].
  rewrite application_packets_app. cbn [application_packets].
  now rewrite app_nil_r.
Qed.

(** What [IncomingPacket] adds once [OnPacketArrival] has returned. *)
Lemma IncomingPacket_bookkeeping now p arrival_time_ms payload_size header p' :
  IncomingPacket now p arrival_time_ms payload_size header = Ok p' ->
  hasTransportSequenceNumber header = true ->
  let send_time_ms :=
    fst (GetTtimeFromAbsSendtime p (absoluteSendTime header)) in
  let received := received_packet header arrival_time_ms payload_size
                    send_time_ms in
  let due :=
    last_bwe_sendback_ms_ p
    <? bwe_time_now now - bwe_sendback_interval_ms_ p in
  let estimation := GetBweEstimate (onnx_infer_ p ++ [received 0%Q 0%Q]) in
  onnx_infer_ p' = onnx_infer_ p ++ [received 0%Q 0%Q] /\
  stats_collect_ p'
  = stats_collect_ p
    ++ [if due then received estimation estimation
        else received SC_PACER_PACING_RATE_EMPTY SC_PACER_PADDING_RATE_EMPTY] /\
  application_packets (feedback_sender_ p')
  = application_packets (feedback_sender_ p)
    ++ (if due then [bwe_message estimation (bwe_timestamp now)] else []) /\
  last_bwe_sendback_ms_ p'
  = (if due then bwe_time_now now else last_bwe_sendback_ms_ p) /\
  bwe_sendback_interval_ms_ p' = bwe_sendback_interval_ms_ p /\
  last_redis_save_ms_ p'
  = (if last_redis_save_ms_ p
        <? redis_time_now now - redis_save_interval_ms_ p
     then redis_time_now now
     else last_redis_save_ms_ p) /\
  redis_save_interval_ms_ p' = redis_save_interval_ms_ p.
Proof.
  unfold IncomingPacket. intros H Hext. rewrite Hext in H. cbn [negb] in H.
  destruct (OnPacketArrival _ _ _ _) as [p1|f] eqn:Harrival; cbn [bind] in H;
    [|discriminate].
  pose proof (OnPacketArrival_application_packets _ _ _ _ _ Harrival) as Happ.
  apply OnPacketArrival_frame in Harrival.
  destruct Harrival as (_ & _ & _ & _ & _ & Hbi & Hlb & Hst & Hri & Hlr & Hox
                        & Hcy & Hma).
  read_members. cbv zeta.
  unfold GetTtimeFromAbsSendtime in *. rewrite <- Hcy, <- Hma.
  destruct (abs_send_time_step _ _ _) as [cycles max_abs_send_time].
  cbn [fst]. rewrite <- Hbi, <- Hlb, <- Hst, <- Hri, <- Hlr, <- Hox, <- Happ.
  clear Hbi Hlb Hst Hri Hlr Hox Hcy Hma Happ.
  revert H. unfold TimeToSendBweMessage. read_members.
  destruct (last_bwe_sendback_ms_ p1
            <? bwe_time_now now - bwe_sendback_interval_ms_ p1);
    unfold TimeToSaveIntoRedis, SendbackBweEstimation, SaveIntoRedis;
    read_members;
    destruct (last_redis_save_ms_ p1
              <? redis_time_now now - redis_save_interval_ms_ p1);
    intros [= <-]; read_members;
    rewrite ?application_packets_app, ?app_nil_r; repeat split.
Qed.

(** X14: bandwidth estimates are sent back at most once per send-back
    interval.  The clock is read up to three times during a call, and the
    readings may differ.  A packet that carries the transport sequence
    number extension makes [IncomingPacket] send one application packet
    exactly when the reading of [TimeToSendBweMessage] is more than
    [bwe_sendback_interval_ms_] past the last send-back; that reading becomes
    the time of the last send-back, while the packet carries the estimate in
    all three rates and, as its timestamp, the reading taken after the
    estimator has run.  After an estimate was sent, the next call sends none
    unless its reading of [TimeToSendBweMessage] is more than the interval
    past that of the call that sent. *)
Theorem bwe_estimates_rate_limited now p arrival_time_ms payload_size header
  p' :
  IncomingPacket now p arrival_time_ms payload_size header = Ok p' ->
  hasTransportSequenceNumber header = true ->
  let due :=
    last_bwe_sendback_ms_ p
    <? bwe_time_now now - bwe_sendback_interval_ms_ p in
  let estimation :=
    GetBweEstimate
      (onnx_infer_ p
       ++ [received_packet header arrival_time_ms payload_size
             (fst (GetTtimeFromAbsSendtime p (absoluteSendTime header)))
             0%Q 0%Q]) in
  application_packets (feedback_sender_ p')
  = application_packets (feedback_sender_ p)
    ++ (if due then [bwe_message estimation (bwe_timestamp now)] else []) /\
  last_bwe_sendback_ms_ p'
  = (if due then bwe_time_now now else last_bwe_sendback_ms_ p) /\
  (forall now' arrival_time_ms' payload_size' header' p'',
     due = true ->
     bwe_time_now now' - bwe_time_now now <= bwe_sendback_interval_ms_ p ->
     IncomingPacket now' p' arrival_time_ms' payload_size' header' = Ok p'' ->
     application_packets (feedback_sender_ p'')
     = application_packets (feedback_sender_ p')).
Proof.
  intros H Hext. cbv zeta.
  destruct (IncomingPacket_bookkeeping _ _ _ _ _ _ H Hext)
    as (_ & _ & Happ & Hlast & Hinterval & _).
  split; [exact Happ|]. split; [exact Hlast|].
  intros now' arrival_time_ms' payload_size' header' p'' Hdue Hnow H'.
  rewrite Hdue in Hlast.
  destruct (hasTransportSequenceNumber header') eqn:Hext'.
  - destruct (IncomingPacket_bookkeeping _ _ _ _ _ _ H' Hext')
      as (_ & _ & Happ' & _).
    rewrite Happ', Hlast, Hinterval.
    destruct (Z.ltb_spec (bwe_time_now now)
                (bwe_time_now now' - bwe_sendback_interval_ms_ p)); [lia|].
    apply app_nil_r.
  - unfold IncomingPacket in H'. rewrite Hext' in H'. cbn [negb] in H'.
    now injection H' as <-.
Qed.

(** X15: every packet with the extension is recorded once.  Whether
    [OnPacketArrival] stores the packet, drops it as a duplicate or as out of
    bounds, or answers a feedback request, [IncomingPacket] hands exactly one
    record of the packet to the estimator and one to the statistics
    collector, with the header's fields, the arrival time, the payload size
    and the send time computed from the absolute send time; the rates of the
    collected record are the estimate when one was sent back, that is, when
    the reading of [TimeToSendBweMessage] is more than the interval past the
    last send-back, and the collector's empty values otherwise.  The time of
    the last save to the remote store moves to the reading of
    [TimeToSaveIntoRedis] exactly when that reading is more than
    [redis_save_interval_ms_] past it.  A packet without the extension is not
    recorded and changes nothing. *)
Theorem incoming_packet_recorded_once now p arrival_time_ms payload_size
  header p' :
  IncomingPacket now p arrival_time_ms payload_size header = Ok p' ->
  let received :=
    received_packet header arrival_time_ms payload_size
      (fst (GetTtimeFromAbsSendtime p (absoluteSendTime header))) in
  let estimation := GetBweEstimate (onnx_infer_ p ++ [received 0%Q 0%Q]) in
  if hasTransportSequenceNumber header then
    onnx_infer_ p' = onnx_infer_ p ++ [received 0%Q 0%Q] /\
    stats_collect_ p'
    = stats_collect_ p
      ++ [if last_bwe_sendback_ms_ p
             <? bwe_time_now now - bwe_sendback_interval_ms_ p
          then received estimation estimation
          else received SC_PACER_PACING_RATE_EMPTY
                 SC_PACER_PADDING_RATE_EMPTY] /\
    last_redis_save_ms_ p'
    = (if last_redis_save_ms_ p
          <? redis_time_now now - redis_save_interval_ms_ p
       then redis_time_now now
       else last_redis_save_ms_ p)
  else p' = p.
Proof.
  intros H. cbv zeta.
  destruct (hasTransportSequenceNumber header) eqn:Hext.
  - destruct (IncomingPacket_bookkeeping _ _ _ _ _ _ H Hext)
      as (Honnx & Hstats & _ & _ & _ & Hredis & _).
    split; [exact Honnx | split; [exact Hstats | exact Hredis]].
  - unfold IncomingPacket in H. rewrite Hext in H. cbn [negb] in H.
    now injection H as <-.
Qed.

End Bookkeeping.

(** ** The wrap test of the send time *)

Section WrapTest.

Context {unwrapper_impl : SeqNumUnwrapper} {binary64 : Binary64}.

(** The test on the 32-bit difference of the shifted send times is a test on
    their distance on the 24-bit circle; the top byte of either is shifted
    out. *)
Lemma shifted_difference a m :
  (Z.shiftl a 8 mod 2 ^ 32 - Z.shiftl m 8 mod 2 ^ 32) mod 2 ^ 32
  = 256 * forward_distance a m.
Proof.
  rewrite !Z.shiftl_mul_pow2 by lia.
  rewrite Zminus_mod_idemp_l, Zminus_mod_idemp_r.
  unfold forward_distance.
  replace (a * 2 ^ 8 - m * 2 ^ 8) with (256 * (a - m)) by lia.
  change (2 ^ 32) with (256 * 2 ^ 24).
  now rewrite Z.mul_mod_distr_l by lia.
Qed.

Lemma newer_send_time a m :
  (0 <=? to_int32 ((Z.shiftl a 8 mod 2 ^ 32 - Z.shiftl m 8 mod 2 ^ 32)
                   mod 2 ^ 32))
  = (forward_distance a m <? 2 ^ 23).
Proof.
  rewrite shifted_difference.
  assert (H : 0 <= forward_distance a m < 2 ^ 24)
    by (apply Z.mod_pos_bound; lia).
  unfold to_int32.
  destruct (Z.ltb_spec (256 * forward_distance a m) (2 ^ 31));
    destruct (Z.ltb_spec (forward_distance a m) (2 ^ 23));
    destruct (Z.leb_spec 0 (256 * forward_distance a m));
    destruct (Z.leb_spec 0 (256 * forward_distance a m - 2 ^ 32));
    try reflexivity; lia.
Qed.

(** X17: the wrap test of [GetTtimeFromAbsSendtime].  Once the state is
    initialised, a send time counts as newer than the largest one seen exactly
    when it lies less than 2^23 ahead of it on the 24-bit circle, whatever
    the top byte of either value; only then it becomes the largest one seen,
    and the cycle count grows by one exactly when it is also numerically
    smaller.  Otherwise neither member changes.  The first call sets the
    cycle count to zero.  The cycle count never decreases, and the send time
    returned is computed with the cycle count after the call. *)
Theorem send_time_wrap_test p absoluteSendTime :
  let first_call := cycles_ p =? -1 in
  let cycles := if first_call then 0 else cycles_ p in
  let largest := if first_call then absoluteSendTime
                 else max_abs_send_time_ p in
  let newer := forward_distance absoluteSendTime largest <? 2 ^ 23 in
  let p' := snd (GetTtimeFromAbsSendtime p absoluteSendTime) in
  max_abs_send_time_ p' = (if newer then absoluteSendTime else largest) /\
  cycles_ p'
  = (if newer && (absoluteSendTime <? largest) then cycles + 1 else cycles) /\
  cycles_ p <= cycles_ p' /\
  fst (GetTtimeFromAbsSendtime p absoluteSendTime)
  = send_time_ms_of absoluteSendTime (cycles_ p').
Proof.
  cbv zeta. unfold GetTtimeFromAbsSendtime, abs_send_time_step.
  destruct (Z.eqb_spec (cycles_ p) (-1)) as [Hfirst|Hfirst];
    rewrite newer_send_time;
    match goal with
    | |- context [forward_distance ?a ?m <? 2 ^ 23] =>
        destruct (forward_distance a m <? 2 ^ 23)
    end;
    cbn [andb];
    try match goal with
    | |- context [?a <? ?m] => destruct (Z.ltb_spec a m)
    end;
    cbn [fst snd]; read_members; repeat split; lia.
Qed.

End WrapTest.

(** ** The ends of the send interval *)

Section Saturation.

Context {unwrapper_impl : SeqNumUnwrapper} {binary64 : Binary64}.

Local Open Scope Q_scope.

(** The interval computed from the rate of a configured interval is that
    interval. *)
Lemma interval_of_own_rate interval :
  binary64_monotone -> binary64_exact -> binary64_error ->
  (0 < interval <= 2 ^ 31 - 1)%Z ->
  trunc (fl ((1 # 2)
             + fl (twcc_report_bits
                   / fl (twcc_report_bits / inject_Z interval))))
  = interval.
Proof.
  intros Hmono Hexact Herror Hinterval.
  set (config := {| back_window := 0; min_interval := interval;
                    max_interval := interval; default_interval := interval;
                    bandwidth_fraction := 0 |}).
  assert (Hconfig : (0 < min_interval config <= max_interval config
                     /\ max_interval config <= 2 ^ 31 - 1)%Z)
    by (cbn; lia).
  pose proof (interval_of_clamped_rate config Hmono Hexact Herror Hconfig
                (fl (twcc_report_bits / inject_Z interval))
                (Qle_refl _) (Qle_refl _)) as H.
  cbn [min_interval max_interval config] in H. lia.
Qed.

Lemma fl_zero : binary64_exact -> fl 0 == 0.
Proof.
  intros Hexact.
  assert (H : fl (inject_Z 0 / inject_Z (2 ^ 0)) == inject_Z 0 / inject_Z (2 ^ 0))
    by (apply Hexact; lia).
  assert (Hz : inject_Z 0 / inject_Z (2 ^ 0) == 0) by reflexivity.
  apply Qle_antisym.
  - apply Qle_trans with (y := fl (inject_Z 0 / inject_Z (2 ^ 0))).
    + apply Qle_lteq. right. now apply Qeq_sym.
    + rewrite H, Hz. apply Qle_refl.
  - rewrite <- Hz at 1. rewrite <- H. apply Qle_refl.
Qed.

(** X18: the ends of the send interval.  When the bitrate is zero or
    negative, [OnBitrateChanged] sets the send interval to [max_interval];
    when the share of the bitrate given to feedback, as computed, reaches the
    rate of one report per [min_interval], it sets it to [min_interval].  The
    assumptions on the arithmetic and on the configuration are those under
    which the interval stays within its bounds. *)
Theorem send_interval_saturates p bitrate_bps :
  binary64_monotone -> binary64_exact -> binary64_error ->
  (0 < min_interval (send_config_ p) <= max_interval (send_config_ p)
   /\ max_interval (send_config_ p) <= 2 ^ 31 - 1)%Z ->
  0 <= bandwidth_fraction (send_config_ p) ->
  ((bitrate_bps <= 0)%Z ->
   send_interval_ms_ (OnBitrateChanged bitrate_bps p)
   = max_interval (send_config_ p)) /\
  (fl (twcc_report_bits / inject_Z (min_interval (send_config_ p)))
   <= fl (bandwidth_fraction (send_config_ p) * inject_Z bitrate_bps) ->
   send_interval_ms_ (OnBitrateChanged bitrate_bps p)
   = min_interval (send_config_ p)).
Proof.
  intros Hmono Hexact Herror Hconfig Hfraction.
  pose proof (twcc_rates_ordered (send_config_ p) Hmono Hconfig) as Hrates.
  pose proof (kMinTwccRate_pos (send_config_ p) Herror Hconfig) as Hpos.
  change (send_interval_ms_ (OnBitrateChanged bitrate_bps p))
    with (twcc_interval_ms (send_config_ p) bitrate_bps).
  unfold twcc_interval_ms. cbv zeta. fold twcc_report_bits.
  set (share := fl (bandwidth_fraction (send_config_ p) * inject_Z bitrate_bps)).
  set (lo := fl (twcc_report_bits / inject_Z (max_interval (send_config_ p))))
    in *.
  set (hi := fl (twcc_report_bits / inject_Z (min_interval (send_config_ p))))
    in *.
  split.
  - intros Hb.
    assert (Hshare : share <= 0).
    { apply Qle_trans with (y := fl 0).
      - apply Hmono.
        assert (Hq : inject_Z bitrate_bps <= 0)
          by (now rewrite Zle_Qle in Hb).
        setoid_replace 0 with (bandwidth_fraction (send_config_ p) * 0)
          by ring.
        now apply Qmult_le_l_nonneg.
      - apply Qle_lteq. right. now apply fl_zero. }
    unfold SafeClamp. destruct (Qlt_le_dec share lo); [|lra].
    apply interval_of_own_rate; try assumption. lia.
  - intros Hshare. unfold SafeClamp.
    destruct (Qlt_le_dec share lo); [lra|].
    destruct (Qlt_le_dec hi share).
    + apply interval_of_own_rate; try assumption. lia.
    + assert (Heq : share == hi) by (now apply Qle_antisym).
      assert (Hq : twcc_report_bits / share == twcc_report_bits / hi)
        by (now rewrite Heq).
      assert (Hs : (1 # 2) + fl (twcc_report_bits / share)
                   == (1 # 2) + fl (twcc_report_bits / hi))
        by (now rewrite (fl_proper _ _ Hmono Hq)).
      transitivity (trunc (fl ((1 # 2) + fl (twcc_report_bits / hi)))).
      * unfold trunc.
        pose proof (fl_proper _ _ Hmono Hs) as Hfl.
        destruct (Qlt_le_dec _ 0), (Qlt_le_dec _ 0); try lra.
        -- now apply Qceiling_comp.
        -- now apply Qfloor_comp.
      * apply interval_of_own_rate; try assumption. lia.
Qed.

End Saturation.

(** ** Saving to the remote store *)

Section Saving.

(** A failed [DBSave] is followed by at most one repairing call, the one that
    fits the failure, and never by [DBSave] itself. *)
Lemma repair_calls_cases res :
  repair_calls res
  = match res with
    | SC_CONNECT_ERROR => [DBConnect]
    | SC_SESSION_ERROR | SC_COLLECT_TYPE_ERROR => [SetStatsConfig]
    | SC_SUCCESS | SC_OTHER_ERROR => []
    end.
Proof. now destruct res. Qed.

Lemma SaveIntoRedis_loop_retries results fuel :
  forall saves retry_times,
    - 2 ^ 31 < retry_times ->
    (Z.to_nat retry_times < fuel)%nat ->
    exists retries,
      SaveIntoRedis_loop fuel results saves retry_times
      = Ok (calls_with_retries results saves retries) /\
      (retries <= Z.to_nat retry_times)%nat /\
      (forall k, (k < retries)%nat ->
                 is_success (results (saves + k)%nat) = false) /\
      (is_success (results (saves + retries)%nat) = true \/
       retries = Z.to_nat retry_times).
Proof.
  induction fuel as [|fuel IH]; intros saves retry_times Hmin Hfuel; [lia|].
  cbn [SaveIntoRedis_loop]. cbv zeta.
  destruct (is_success (results saves)) eqn:Hres.
  - exists 0%nat. rewrite Nat.add_0_r.
    split; [reflexivity|]. split; [lia|]. split; [lia|]. now left.
  - destruct (Z.eqb_spec retry_times (- 2 ^ 31)) as [Heq|_]; [lia|].
    destruct (Z.ltb_spec (retry_times - 1) 0) as [Hlast|Hmore].
    + exists 0%nat. split; [reflexivity|]. split; [lia|]. split; [lia|].
      right. lia.
    + destruct (IH (S saves) (retry_times - 1)) as
        (retries & Hloop & Hbound & Hfailed & Hstop); [lia | lia |].
      rewrite Hloop. cbn [bind].
      exists (S retries). split; [|split; [lia|split]].
      * unfold calls_with_retries. cbn [seq flat_map app].
        now rewrite <- app_assoc.
      * intros [|k] Hk.
        -- now rewrite Nat.add_0_r.
        -- replace (saves + S k)%nat with (S saves + k)%nat by lia.
           apply Hfailed. lia.
      * destruct Hstop as [Hstop|Hstop].
        -- left. replace (saves + S retries)%nat
             with (S saves + retries)%nat by lia.
           exact Hstop.
        -- right. lia.
Qed.

(** X19: [SaveIntoRedis] gives up.  Called with a number of retries above
    the least [int], it returns after [retries] + 1 calls of [DBSave] for
    some [retries] of at most [retry_times] (none when [retry_times] is zero
    or negative), whatever the store answers.  The calls it makes are these
    and no others: each of the first [retries] calls of [DBSave] failed and
    is followed by its repair, which is [DBConnect] after a connect error,
    [SetStatsConfig] after a session or collect-type error and nothing
    otherwise, and then by the next [DBSave]; the last [DBSave] succeeded
    unless the retries ran out. *)
Theorem SaveIntoRedis_gives_up results retry_times :
  - 2 ^ 31 < retry_times ->
  exists retries,
    SaveIntoRedis_calls results retry_times
    = Ok (flat_map
            (fun k =>
               DBSave
               :: match results k with
                  | SC_CONNECT_ERROR => [DBConnect]
                  | SC_SESSION_ERROR | SC_COLLECT_TYPE_ERROR =>
                      [SetStatsConfig]
                  | SC_SUCCESS | SC_OTHER_ERROR => []
                  end)
            (seq 0 retries)
          ++ [DBSave]) /\
    (retries <= Z.to_nat retry_times)%nat /\
    (forall k, (k < retries)%nat -> is_success (results k) = false) /\
    (is_success (results retries) = true \/ retries = Z.to_nat retry_times).
Proof.
  intros Hmin.
  destruct (SaveIntoRedis_loop_retries results (S (Z.to_nat retry_times)) 0
              retry_times Hmin) as (retries & Hcalls & H); [lia|].
  exists retries. split; [|exact H].
  unfold SaveIntoRedis_calls. rewrite Hcalls. unfold calls_with_retries.
  do 2 f_equal. apply flat_map_ext. intros k.
  now rewrite repair_calls_cases.
Qed.

End Saving.

(** ** The further properties at concrete inputs *)

Section FurtherExamples.

Local Existing Instance closest_distance_unwrapper.
Local Existing Instance two_records.
Local Existing Instance exact_arithmetic.
Local Existing Instance silent_telemetry.

Lemma two_records_room : room_for 2.
Proof.
  intros m s t H. cbn [has_room two_records capacity_of].
  now apply Nat.ltb_lt.
Qed.

Lemma after_periodic_drain_sorted :
  sorted (packet_arrival_times_ after_periodic_drain).
Proof. apply sortedb_sorted. reflexivity. Qed.

Lemma after_sixth_arrival_eq :
  OnPacketArrival after_periodic_drain 6 120 None = Ok after_sixth_arrival.
Proof. reflexivity. Qed.

Lemma after_sixth_arrival_sorted :
  sorted (packet_arrival_times_ after_sixth_arrival).
Proof. apply sortedb_sorted. reflexivity. Qed.

Lemma after_estimate_eq :
  IncomingPacket (advancing_from 300) after_five_arrivals 300 1200
    (example_header 42 6 0 None)
  = Ok after_estimate.
Proof. reflexivity. Qed.

Lemma OnPacketArrival_keeps_other_members_witness :
  OnPacketArrival after_periodic_drain 6 120 None = Ok after_sixth_arrival /\
  other_members_kept after_sixth_arrival after_periodic_drain /\
  feedback_sender_ after_sixth_arrival = feedback_sender_ after_periodic_drain.
Proof.
  split; [exact after_sixth_arrival_eq|].
  destruct (OnPacketArrival_keeps_other_members after_periodic_drain 6 120
              None after_sixth_arrival after_sixth_arrival_eq)
    as [Hkept [Hsame|(Hrequest & _)]].
  - split; [exact Hkept | exact Hsame].
  - exfalso. now apply Hrequest.
Defined.

Lemma reachable_window_shape_witness :
  reachable example_config example_alphacc after_periodic_drain /\
  window_ok (packet_arrival_times_ after_periodic_drain) /\
  0 <= feedback_packet_count_ after_periodic_drain < 256.
Proof.
  split; [exact after_periodic_drain_reachable|].
  exact (reachable_window_shape example_config example_alphacc
           after_periodic_drain after_periodic_drain_reachable).
Defined.

Lemma second_drain_sends_nothing_witness :
  Process 150 after_five_arrivals = Ok after_periodic_drain /\
  Process 300 after_periodic_drain
  = Ok (set_last_process_time_ms_ 300 after_periodic_drain).
Proof.
  split; [exact after_periodic_drain_eq|].
  exact (second_drain_sends_nothing 150 300 after_five_arrivals
           after_periodic_drain after_periodic_drain_eq).
Defined.

Lemma TimeUntilNextProcess_after_Process_witness :
  Process 150 after_five_arrivals = Ok after_periodic_drain /\
  send_periodic_feedback_ after_five_arrivals = true /\
  150 <> -1 /\
  TimeUntilNextProcess 200 after_periodic_drain = 50.
Proof.
  assert (Hnow : 150 <> -1) by discriminate.
  split; [exact after_periodic_drain_eq|]. split; [reflexivity|].
  split; [exact Hnow|].
  exact (TimeUntilNextProcess_after_Process 150 200 after_five_arrivals
           after_periodic_drain after_periodic_drain_eq eq_refl Hnow).
Defined.

Lemma periodic_drain_numbers_messages_witness :
  first_record_fits /\
  sorted (packet_arrival_times_ after_five_arrivals) /\
  0 <= feedback_packet_count_ after_five_arrivals < 256 /\
  exists p' messages,
    Process 150 after_five_arrivals = Ok p' /\
    feedback_sender_ p' = feedback_sender_ after_five_arrivals ++ messages /\
    feedback_packet_count_ p' = Z.of_nat (length messages) mod 256.
Proof.
  assert (Hcount : 0 <= feedback_packet_count_ after_five_arrivals < 256)
    by (split; by_computation).
  split; [exact two_records_first_fits|].
  split; [exact after_five_arrivals_sorted|]. split; [exact Hcount|].
  destruct (periodic_drain_numbers_messages 150 after_five_arrivals
              two_records_first_fits after_five_arrivals_sorted Hcount)
    as (p' & messages & Hprocess & Hsent & Hcounter & _).
  exists p', messages. split; [exact Hprocess|]. split; [exact Hsent|].
  exact Hcounter.
Defined.

Lemma periodic_drain_single_message_witness :
  room_for 2 /\
  sorted (packet_arrival_times_ after_sixth_arrival) /\
  send_periodic_feedback_ after_sixth_arrival = true /\
  periodic_window_start_seq_ after_sixth_arrival = Some 6 /\
  lower_bound 6 (packet_arrival_times_ after_sixth_arrival) = [(6, 120)] /\
  Process 200 after_sixth_arrival
  = Ok (after_drain (set_last_process_time_ms_ 200 after_sixth_arrival)
          [SendTransportFeedback
             (feedback_message true 3 42 6
                (lower_bound 6 (packet_arrival_times_ after_sixth_arrival)))]
          (next_after 6
             (lower_bound 6 (packet_arrival_times_ after_sixth_arrival)))).
Proof.
  assert (Hrun : lower_bound 6 (packet_arrival_times_ after_sixth_arrival)
                 = [(6, 120)]) by reflexivity.
  split; [exact two_records_room|].
  split; [exact after_sixth_arrival_sorted|].
  split; [reflexivity|]. split; [reflexivity|]. split; [exact Hrun|].
  apply (periodic_drain_single_message 2 200 after_sixth_arrival 6
           two_records_room after_sixth_arrival_sorted eq_refl eq_refl).
  - rewrite Hrun. discriminate.
  - rewrite Hrun. cbn [length]. lia.
Defined.

Lemma on_demand_feedback_in_full_witness :
  room_for 2 /\
  sorted (packet_arrival_times_ after_five_arrivals) /\
  0 < sequence_count request_for_one <= Z.of_nat 2 /\
  entries_between (4 - sequence_count request_for_one + 1) 4
    (packet_arrival_times_ after_five_arrivals) = [(4, 106)] /\
  SendFeedbackOnRequest after_five_arrivals 4 request_for_one
  = Ok (after_request after_five_arrivals
          (feedback_message true 0 42 4
             (entries_between (4 - sequence_count request_for_one + 1) 4
                (packet_arrival_times_ after_five_arrivals)))
          (4 - sequence_count request_for_one + 1)).
Proof.
  assert (HK : 0 < sequence_count request_for_one <= Z.of_nat 2)
    by (split; by_computation).
  assert (Hrange : entries_between (4 - sequence_count request_for_one + 1) 4
                     (packet_arrival_times_ after_five_arrivals) = [(4, 106)])
    by reflexivity.
  split; [exact two_records_room|].
  split; [exact after_five_arrivals_sorted|]. split; [exact HK|].
  split; [exact Hrange|].
  apply (on_demand_feedback_in_full 2 after_five_arrivals 4 request_for_one
           two_records_room after_five_arrivals_sorted HK).
  rewrite Hrange. discriminate.
Defined.

Lemma periodic_drain_first_record_refused_witness :
  send_periodic_feedback_ after_five_arrivals = true /\
  periodic_window_start_seq_ after_five_arrivals = Some 1 /\
  lower_bound 1 (packet_arrival_times_ after_five_arrivals)
  = (1, 100) :: [(2, 101); (3, 105); (4, 106); (5, 110)] /\
  @has_room (capacity_of 0) (initialised_message true 0 42 1 100)
    (Z.land 1 65535) (100 * 1000) = false /\
  @Process closest_distance_unwrapper (capacity_of 0) 150 after_five_arrivals
  = Err CheckFailed.
Proof.
  split; [reflexivity|]. split; [reflexivity|]. split; [reflexivity|].
  split; [reflexivity|].
  exact (@periodic_drain_first_record_refused closest_distance_unwrapper
           (capacity_of 0) 150 after_five_arrivals 1 1 100
           [(2, 101); (3, 105); (4, 106); (5, 110)]
           eq_refl eq_refl eq_refl eq_refl).
Defined.

Lemma wire_sequence_numbers_distinct_witness :
  window_ok [(65535, 10); (65539, 11)] /\
  In (65539, 11) [(65535, 10); (65539, 11)] /\
  fst (wire (65539, 11)) = 3 /\
  0 <= fst (wire (65539, 11)) < 65536.
Proof.
  assert (Hw : window_ok [(65535, 10); (65539, 11)]).
  { split; [apply sortedb_sorted; reflexivity | by_computation]. }
  assert (Hin : In (65539, 11) [(65535, 10); (65539, 11)])
    by (right; left; reflexivity).
  split; [exact Hw|]. split; [exact Hin|]. split; [reflexivity|].
  exact (proj2 (wire_sequence_numbers_distinct _ (65539, 11) (65539, 11)
                  Hw Hin Hin eq_refl)).
Defined.

Lemma stored_arrival_is_found_witness :
  sorted (packet_arrival_times_ after_five_arrivals) /\
  0 <= 120 <= kMaxTimeMs /\
  find (fst (Unwrap (unwrapper_ after_five_arrivals) 6))
    (packet_arrival_times_ after_five_arrivals) = None /\
  exists p',
    OnPacketArrival after_five_arrivals 6 120 None = Ok p' /\
    forall e, In e (packet_arrival_times_ p') ->
              e = (6, 120) \/ In e (packet_arrival_times_ after_five_arrivals).
Proof.
  assert (Ht : 0 <= 120 <= kMaxTimeMs) by (split; by_computation).
  assert (Hfind : find (fst (Unwrap (unwrapper_ after_five_arrivals) 6))
                    (packet_arrival_times_ after_five_arrivals) = None)
    by reflexivity.
  split; [exact after_five_arrivals_sorted|]. split; [exact Ht|].
  split; [exact Hfind|].
  destruct (stored_arrival_is_found after_five_arrivals 6 120
              after_five_arrivals_sorted Ht Hfind) as (p' & Hok & _ & Hnew).
  exists p'. split; [exact Hok | exact Hnew].
Defined.

Lemma arrival_erases_only_old_entries_witness :
  sorted (packet_arrival_times_ after_periodic_drain) /\
  0 <= 10000 <= kMaxTimeMs /\
  In (5, 110) (packet_arrival_times_ after_periodic_drain) /\
  In (5, 110) (window_on_arrival after_periodic_drain 2 10000).
Proof.
  assert (Ht : 0 <= 10000 <= kMaxTimeMs) by (split; by_computation).
  assert (Hin : In (5, 110) (packet_arrival_times_ after_periodic_drain))
    by (do 4 right; left; reflexivity).
  split; [exact after_periodic_drain_sorted|]. split; [exact Ht|].
  split; [exact Hin|].
  apply (proj1 (arrival_erases_only_old_entries after_periodic_drain 2 10000
                  (5, 110) after_periodic_drain_sorted Ht Hin)).
  left. by_computation.
Defined.

Lemma stored_arrival_reported_by_next_drain_witness :
  first_record_fits /\
  sorted (packet_arrival_times_ after_periodic_drain) /\
  send_periodic_feedback_ after_periodic_drain = true /\
  0 <= 120 <= kMaxTimeMs /\
  OnPacketArrival after_periodic_drain 6 120 None = Ok after_sixth_arrival /\
  find (fst (Unwrap (unwrapper_ after_periodic_drain) 6))
    (packet_arrival_times_ after_sixth_arrival) = Some 120 /\
  exists p2 messages message,
    Process 200 after_sixth_arrival = Ok p2 /\
    feedback_sender_ p2 = feedback_sender_ after_sixth_arrival ++ messages /\
    In (SendTransportFeedback message) messages /\
    In (6, 120000) (tf_packets message).
Proof.
  assert (Ht : 0 <= 120 <= kMaxTimeMs) by (split; by_computation).
  assert (Hfound : find (fst (Unwrap (unwrapper_ after_periodic_drain) 6))
                     (packet_arrival_times_ after_sixth_arrival) = Some 120)
    by reflexivity.
  split; [exact two_records_first_fits|].
  split; [exact after_periodic_drain_sorted|]. split; [reflexivity|].
  split; [exact Ht|]. split; [exact after_sixth_arrival_eq|].
  split; [exact Hfound|].
  exact (stored_arrival_reported_by_next_drain 200 after_periodic_drain 6 120
           after_sixth_arrival 120 two_records_first_fits
           after_periodic_drain_sorted eq_refl Ht after_sixth_arrival_eq
           Hfound).
Defined.

Lemma disabled_periodic_feedback_stands_still_witness :
  OnPacketArrival (SetSendPeriodicFeedback false after_periodic_drain) 7 10000
    None = Ok after_arrival_while_disabled /\
  periodic_window_start_seq_ after_arrival_while_disabled = Some 6 /\
  send_periodic_feedback_ after_arrival_while_disabled = false.
Proof.
  assert (Harrival : OnPacketArrival
                       (SetSendPeriodicFeedback false after_periodic_drain)
                       7 10000 None = Ok after_arrival_while_disabled)
    by reflexivity.
  split; [exact Harrival|].
  destruct (proj2 (disabled_periodic_feedback_stands_still
                     after_periodic_drain 0 7 10000
                     after_arrival_while_disabled) Harrival)
    as (Hcursor & Hoff & _).
  split; [|exact Hoff]. rewrite Hcursor. reflexivity.
Defined.

Lemma bwe_estimates_rate_limited_witness :
  IncomingPacket (advancing_from 300) after_five_arrivals 300 1200
    (example_header 42 6 0 None)
  = Ok after_estimate /\
  hasTransportSequenceNumber (example_header 42 6 0 None) = true /\
  application_packets (feedback_sender_ after_five_arrivals) = [] /\
  application_packets (feedback_sender_ after_estimate)
  = [bwe_message 0 301] /\
  last_bwe_sendback_ms_ after_estimate = 300.
Proof.
  split; [exact after_estimate_eq|]. split; [reflexivity|].
  split; [reflexivity|].
  destruct (bwe_estimates_rate_limited (advancing_from 300)
              after_five_arrivals 300 1200 (example_header 42 6 0 None)
              after_estimate after_estimate_eq eq_refl)
    as (Hsent & Hlast & _).
  split; [rewrite Hsent | rewrite Hlast]; reflexivity.
Defined.

Lemma incoming_packet_recorded_once_witness :
  IncomingPacket (advancing_from 300) after_five_arrivals 300 1200
    (example_header 42 6 0 None)
  = Ok after_estimate /\
  length (onnx_infer_ after_estimate)
  = S (length (onnx_infer_ after_five_arrivals)) /\
  last_redis_save_ms_ after_estimate = 0.
Proof.
  split; [exact after_estimate_eq|].
  destruct (incoming_packet_recorded_once (advancing_from 300)
              after_five_arrivals 300 1200 (example_header 42 6 0 None)
              after_estimate after_estimate_eq)
    as (Honnx & _ & Hredis).
  split.
  - rewrite Honnx, length_app. cbn [length]. lia.
  - rewrite Hredis. reflexivity.
Defined.

Lemma send_interval_saturates_witness :
  binary64_monotone /\ binary64_exact /\ binary64_error /\
  (0 < min_interval (send_config_ fresh_proxy)
   <= max_interval (send_config_ fresh_proxy)
   /\ max_interval (send_config_ fresh_proxy) <= 2 ^ 31 - 1) /\
  (0 <= bandwidth_fraction (send_config_ fresh_proxy))%Q /\
  send_interval_ms_ (OnBitrateChanged 0 fresh_proxy) = 250 /\
  send_interval_ms_ (OnBitrateChanged 1000000 fresh_proxy) = 50.
Proof.
  assert (Hconfig : 0 < min_interval (send_config_ fresh_proxy)
                    <= max_interval (send_config_ fresh_proxy)
                    /\ max_interval (send_config_ fresh_proxy) <= 2 ^ 31 - 1)
    by (repeat split; by_computation).
  assert (Hfraction : (0 <= bandwidth_fraction (send_config_ fresh_proxy))%Q)
    by by_computation.
  split; [exact exact_arithmetic_monotone|].
  split; [exact exact_arithmetic_exact|].
  split; [exact exact_arithmetic_error|].
  split; [exact Hconfig|]. split; [exact Hfraction|].
  split.
  - apply (proj1 (send_interval_saturates fresh_proxy 0
                    exact_arithmetic_monotone exact_arithmetic_exact
                    exact_arithmetic_error Hconfig Hfraction)).
    by_computation.
  - apply (proj2 (send_interval_saturates fresh_proxy 1000000
                    exact_arithmetic_monotone exact_arithmetic_exact
                    exact_arithmetic_error Hconfig Hfraction)).
    by_computation.
Defined.

Lemma SaveIntoRedis_gives_up_witness :
  - 2 ^ 31 < 3 /\
  SaveIntoRedis_calls unreachable_store 3
  = Ok [DBSave; DBConnect; DBSave; DBConnect; DBSave; DBConnect; DBSave].
Proof.
  assert (Hmin : - 2 ^ 31 < 3) by by_computation.
  split; [exact Hmin|].
  destruct (SaveIntoRedis_gives_up unreachable_store 3 Hmin)
    as (retries & Hcalls & Hbound & _ & [Hsuccess|Hall]).
  - discriminate Hsuccess.
  - rewrite Hcalls, Hall. reflexivity.
Defined.

End FurtherExamples.
